(** * PersonaPulse: the panel-simulation and aggregation pipeline

    A shallow embedding of the survey pipeline of the application:
    [types.ts] (the data model), [services/geminiService.ts] (the three
    calls to the text-generation capability) and [App.tsx]
    ([runSimulation], the tabulation inside [renderResults], and the
    template handlers [saveTemplate] / [loadTemplate]).

    Conventions of the embedding.
    - A JavaScript string is a [string]: the sequence of its code units,
      for code units below 256.
    - A JavaScript number that the pipeline treats as an integer is a [Z]:
      the integer it denotes. This is exact for safe integers (magnitude
      below 2^53, [JS.isSafeInteger]); statements that depend on the value
      or on the decimal text of such a number carry that bound. The
      progress percentage is a double, held as the rational [Q] it
      denotes, and its arithmetic rounds as IEEE 754 binary64 does
      ([Double]). The one place where the program can produce [NaN] (a
      bucket counter) has a constructor for it.
    - [await] is sequential composition. The text-generation capability is
      an oracle: the outcome of each call is given from outside.
    - [JSON.parse] applied to the text of the capability is a parameter of
      the development ([JsonParser]); text that parses is read at the
      response schema the call was made with.
    - State setters, [alert] and [console.error] are recorded as a trace of
      [Effect]s, which [applyEffects] folds into the component state. *)

From Stdlib Require Import ZArith QArith Qround Qpower String Ascii List.
From Stdlib Require Import Lia Lqa.
From Stdlib Require Floats.SpecFloat.
From stdpp Require Import base strings list gmap pretty.
Import ListNotations.

#[local] Set Warnings "-register-all".

Local Open Scope string_scope.
Local Open Scope list_scope.

(** ** Data model ([types.ts]) *)

Inductive QuestionType := OPEN_ENDED | MULTIPLE_CHOICE | RATING_SCALE.

Definition QuestionType_eqb (a b : QuestionType) : bool :=
  match a, b with
  | OPEN_ENDED, OPEN_ENDED => true
  | MULTIPLE_CHOICE, MULTIPLE_CHOICE => true
  | RATING_SCALE, RATING_SCALE => true
  | _, _ => false
  end.

Record Question := {
  q_id : string;
  q_text : string;
  q_type : QuestionType;
  q_options : option (list string)   (* options?: string[] *)
}.

Record Survey := {
  title : string;
  description : string;
  questions : list Question
}.

Record GeneratedPersona := {
  p_id : string;
  p_name : string;
  p_age : Z;
  p_occupation : string;
  p_traits : string;
  p_painPoints : string
}.

(** [answer: string | number] *)
Inductive AnswerValue :=
| AnswerText (s : string)
| AnswerNumber (n : Z).

Record Answer := {
  questionId : string;
  answer : AnswerValue
}.

Record SurveyResponse := {
  personaId : string;
  answers : list Answer
}.

Inductive Sentiment := Positive | Neutral | Negative.

Record AnalysisResult := {
  summary : string;
  keyInsights : list string;
  sentiment : Sentiment;
  featureSuggestions : list string
}.

Inductive Step := SETUP | PERSONAS | SIMULATION | RESULTS.

(** ** The global function [parseInt] (no radix argument) *)

Module JS.

(** White space that [parseInt] skips: TAB, LF, VT, FF, CR, SP, NBSP. *)
Definition isStrWhiteSpaceChar (c : ascii) : bool :=
  let n := nat_of_ascii c in
  (n =? 9)%nat || (n =? 10)%nat || (n =? 11)%nat || (n =? 12)%nat
  || (n =? 13)%nat || (n =? 32)%nat || (n =? 160)%nat.

Fixpoint trimStart (s : string) : string :=
  match s with
  | String c r => if isStrWhiteSpaceChar c then trimStart r else s
  | EmptyString => EmptyString
  end.

Fixpoint trimEnd (s : string) : string :=
  match s with
  | String c r =>
      match trimEnd r with
      | EmptyString =>
          if isStrWhiteSpaceChar c then EmptyString
          else String c EmptyString
      | r' => String c r'
      end
  | EmptyString => EmptyString
  end.

(** [s.trim()] *)
Definition trim (s : string) : string := trimEnd (trimStart s).

(** Value of a digit character: 0-9, then a-z / A-Z for 10-35. *)
Definition digitValue (c : ascii) : option Z :=
  let n := Z.of_nat (nat_of_ascii c) in
  if ((48 <=? n) && (n <=? 57))%Z then Some (n - 48)%Z
  else if ((97 <=? n) && (n <=? 122))%Z then Some (n - 87)%Z
  else if ((65 <=? n) && (n <=? 90))%Z then Some (n - 55)%Z
  else None.

(** The longest prefix of radix-[R] digits, read as a number; [acc] is
    [None] until a first digit has been read. *)
Fixpoint parseDigits (R : Z) (s : string) (acc : option Z) : option Z :=
  match s with
  | String c r =>
      match digitValue c with
      | Some d =>
          if (d <? R)%Z
          then parseDigits R r (Some (default 0%Z acc * R + d)%Z)
          else acc
      | None => acc
      end
  | EmptyString => acc
  end.

Definition stripSign (s : string) : Z * string :=
  match s with
  | String c r =>
      if Ascii.eqb c "-" then ((-1)%Z, r)
      else if Ascii.eqb c "+" then (1%Z, r)
      else (1%Z, s)
  | EmptyString => (1%Z, s)
  end.

Definition stripPrefix (s : string) : Z * string :=
  match s with
  | String c0 (String c1 r) =>
      if Ascii.eqb c0 "0" && (Ascii.eqb c1 "x" || Ascii.eqb c1 "X")
      then (16%Z, r) else (10%Z, s)
  | _ => (10%Z, s)
  end.

(** [parseInt(s)]; [None] is [NaN]. The result is the integer that the
    sign and the digits denote. The number the code gets is that integer
    when it is a safe integer; a larger one is rounded to the nearest
    double. *)
Definition parseInt (s : string) : option Z :=
  let '(sign, s1) := stripSign (trimStart s) in
  let '(R, s2) := stripPrefix s1 in
  match parseDigits R s2 None with
  | Some n => Some (sign * n)%Z
  | None => None
  end.

(** [Number.isSafeInteger(n)]: the magnitude is at most 2^53 - 1. Doubles
    hold these integers exactly, and print them as their decimal digits. *)
Definition isSafeInteger (n : Z) : bool :=
  (Z.abs n <=? 2 ^ 53 - 1)%Z.

(** [!text] for [text : string | undefined]. *)
Definition falsy (text : option string) : bool :=
  match text with
  | None => true
  | Some s => String.eqb s ""
  end.

End JS.

(** ** Arithmetic on numbers: IEEE 754 binary64

    A finite double is held as the rational it denotes. The result of an
    operation is the exact result rounded to the nearest double, ties to
    the one with an even significand: 53 significant bits, and a fixed
    unit of 2^-1074 below 2^-1022 (subnormals). Results of magnitude
    2^1024 and above, and division by zero, are infinities or NaN in the
    code and are outside this model; the statements about [Double] bound
    their operands so that none arises. *)

Module Double.

Definition pow2 (e : Z) : Q := (2 ^ e)%Q.

(** The integer [e] with [2^e <= q < 2^(e+1)], for [0 < q]. *)
Definition exponent (q : Q) : Z :=
  let e := (Z.log2 (Qnum q) - Z.log2 (Zpos (Qden q)))%Z in
  if Qle_bool (pow2 e) q then e else (e - 1)%Z.

(** The nearest integer, ties to even. *)
Definition nearestEven (q : Q) : Z :=
  let f := Qfloor q in
  match (q - inject_Z f ?= 1 # 2)%Q with
  | Lt => f
  | Gt => (f + 1)%Z
  | Eq => if Z.even f then f else (f + 1)%Z
  end.

(** The exponent of the unit in the last place of the doubles around
    [q]. *)
Definition ulpExponent (q : Q) : Z := Z.max (exponent q - 52) (-1074).

Definition roundPositive (q : Q) : Q :=
  let e := ulpExponent q in
  Qred (inject_Z (nearestEven (q / pow2 e)) * pow2 e).

(** The double nearest to [q]. *)
Definition round (q : Q) : Q :=
  match (q ?= 0)%Q with
  | Eq => 0%Q
  | Gt => roundPositive q
  | Lt => (- roundPositive (- q))%Q
  end.

(** The number of an integer, and [a + b], [a * b], [a / b]. *)
Definition ofZ (z : Z) : Q := round (inject_Z z).
Definition add (a b : Q) : Q := round (a + b).
Definition mul (a b : Q) : Q := round (a * b).
Definition div (a b : Q) : Q := round (a / b).

(** For comparison, the operations of the Standard Library's
    specification of IEEE 754 arithmetic ([SpecFloat]) at the format of
    doubles: precision 53 and maximal exponent 1024. *)
Definition ofSpecFloat (x : SpecFloat.spec_float) : option Q :=
  match x with
  | SpecFloat.S754_zero _ => Some 0%Q
  | SpecFloat.S754_finite s m e =>
      Some (Qred ((if s then -1 else 1) * inject_Z (Zpos m) * pow2 e))%Q
  | _ => None
  end.

Definition specOfZ (z : Z) : SpecFloat.spec_float :=
  SpecFloat.binary_normalize 53 1024 z 0 false.

End Double.

(** ** Exceptions, promises and the capability *)

Inductive Exn :=
| ServiceError (msg : string)   (* whatever [generateContent] threw *)
| Error (msg : string)          (* [new Error(msg)] *)
| SyntaxError                   (* thrown by [JSON.parse] *)
| TypeError.                    (* e.g. [.map] of something that is no array *)

(** How an [async] function settles. *)
Inductive Completion (A : Type) :=
| Resolved (a : A)
| Rejected (e : Exn).
Arguments Resolved {A} a.
Arguments Rejected {A} e.

Definition isRejected {A} (c : Completion A) : bool :=
  match c with Rejected _ => true | Resolved _ => false end.

(** One call of [ai.models.generateContent]: it throws, or it returns a
    response object whose [text] is a string or [undefined]. *)
Inductive ApiResult :=
| ApiThrows (e : Exn)
| ApiResponse (text : option string).

(** An element of [parsed.answers], as the response schema of the
    simulation call declares it. *)
Record RawAnswer := {
  raw_questionId : string;
  raw_answer : string
}.

(** The value [JSON.parse] gives for the simulation call: either
    [parsed.answers] is an array of answer objects, or the traversal
    [parsed.answers.map(...)] throws a [TypeError]. *)
Inductive SimulationBody :=
| NoAnswerArray
| AnswerArray (l : list RawAnswer).

(** [JSON.parse] at the three response schemas; [None] means that
    [JSON.parse] throws a [SyntaxError]. *)
Record JsonParser := {
  parsePersonas : string -> option (list GeneratedPersona);
  parseSimulation : string -> option SimulationBody;
  parseAnalysis : string -> option AnalysisResult
}.

(** ** Effects of the component *)

Inductive Effect :=
| ConsoleError (msg : string) (e : option Exn)
| Alert (msg : string)
| SetStep (s : Step)
| ResetResponses                         (* setResponses([]) *)
| AppendResponse (r : SurveyResponse)    (* setResponses(prev => [...prev, resp]) *)
| SetSimulationProgress (p : Q)
| SetIsLoading (b : bool)
| SetAnalysis (a : AnalysisResult).

(** ** [services/geminiService.ts] *)

Section Service.

Variable JSON : JsonParser.

(** [generatePersonas]: no [try]; an empty text yields the empty array. *)
Definition generatePersonas (description : string) (count : Z)
    (response : ApiResult) : Completion (list GeneratedPersona) :=
  match response with
  | ApiThrows e => Rejected e
  | ApiResponse text =>
      if JS.falsy text then Resolved []
      else match parsePersonas JSON (default "" text) with
           | Some l => Resolved l
           | None => Rejected SyntaxError
           end
  end.

(** The callback of [parsed.answers.map] in [simulateSurveyResponse]. *)
Definition sanitize (survey : Survey) (a : RawAnswer) : Answer :=
  let q := find (fun quest => String.eqb (q_id quest) (raw_questionId a))
                (questions survey) in
  match q with
  | Some quest =>
      match q_type quest with
      | RATING_SCALE =>
          let val := match JS.parseInt (raw_answer a) with
                     | Some v => v
                     | None => 3%Z
                     end in
          {| questionId := raw_questionId a; answer := AnswerNumber val |}
      | _ => {| questionId := raw_questionId a;
                answer := AnswerText (raw_answer a) |}
      end
  | None => {| questionId := raw_questionId a;
               answer := AnswerText (raw_answer a) |}
  end.

(** The body of the [try] block of [simulateSurveyResponse]. *)
Definition simulateTry (persona : GeneratedPersona) (survey : Survey)
    (response : ApiResult) : Exn + SurveyResponse :=
  match response with
  | ApiThrows e => inl e
  | ApiResponse text =>
      if JS.falsy text then inl (Error "No response text")
      else match parseSimulation JSON (default "" text) with
           | None => inl SyntaxError
           | Some NoAnswerArray => inl TypeError
           | Some (AnswerArray l) =>
               inr {| personaId := p_id persona;
                      answers := map (sanitize survey) l |}
           end
  end.

(** [simulateSurveyResponse]: the [catch] logs and returns the fallback. *)
Definition simulateSurveyResponse (persona : GeneratedPersona)
    (survey : Survey) (response : ApiResult)
    : Completion SurveyResponse * list Effect :=
  match simulateTry persona survey response with
  | inr r => (Resolved r, [])
  | inl e =>
      (Resolved {| personaId := p_id persona; answers := [] |},
       [ConsoleError ("Simulation failed for persona " ++ p_name persona)
                     (Some e)])
  end.

(** The response that [simulateSurveyResponse] resolves with. *)
Definition responseOf (persona : GeneratedPersona) (survey : Survey)
    (response : ApiResult) : SurveyResponse :=
  match simulateTry persona survey response with
  | inr r => r
  | inl _ => {| personaId := p_id persona; answers := [] |}
  end.

(** [analyzeResults]: no [try]; an empty text throws. *)
Definition analyzeResults (survey : Survey) (responses : list SurveyResponse)
    (personas : list GeneratedPersona) (response : ApiResult)
    : Completion AnalysisResult :=
  match response with
  | ApiThrows e => Rejected e
  | ApiResponse text =>
      if JS.falsy text then Rejected (Error "Analysis failed")
      else match parseAnalysis JSON (default "" text) with
           | Some a => Resolved a
           | None => Rejected SyntaxError
           end
  end.

End Service.

(** The three ways in which the simulation call gives no answer array
    before any answer is read. *)
Definition simulationCallFails (JSON : JsonParser) (response : ApiResult)
    : Prop :=
  (exists e, response = ApiThrows e)
  \/ (exists text, response = ApiResponse text /\ JS.falsy text = true)
  \/ (exists t, response = ApiResponse (Some t)
                /\ parseSimulation JSON t = None).

(** ** [App.tsx]: the simulation handler *)

Module App.

Record State := {
  step : Step;
  isLoading : bool;
  survey : Survey;
  activeParticipants : list GeneratedPersona;
  responses : list SurveyResponse;
  simulationProgress : Q;
  analysis : option AnalysisResult;
  dialogs : list string;                  (* texts shown by [alert], oldest first *)
  console : list (string * option Exn)    (* [console.error] lines, oldest first *)
}.

Definition applyEffect (st : State) (e : Effect) : State :=
  match e with
  | ConsoleError msg ex =>
      {| step := step st; isLoading := isLoading st; survey := survey st;
         activeParticipants := activeParticipants st;
         responses := responses st;
         simulationProgress := simulationProgress st;
         analysis := analysis st; dialogs := dialogs st;
         console := console st ++ [(msg, ex)] |}
  | Alert msg =>
      {| step := step st; isLoading := isLoading st; survey := survey st;
         activeParticipants := activeParticipants st;
         responses := responses st;
         simulationProgress := simulationProgress st;
         analysis := analysis st; dialogs := dialogs st ++ [msg];
         console := console st |}
  | SetStep s =>
      {| step := s; isLoading := isLoading st; survey := survey st;
         activeParticipants := activeParticipants st;
         responses := responses st;
         simulationProgress := simulationProgress st;
         analysis := analysis st; dialogs := dialogs st;
         console := console st |}
  | ResetResponses =>
      {| step := step st; isLoading := isLoading st; survey := survey st;
         activeParticipants := activeParticipants st;
         responses := [];
         simulationProgress := simulationProgress st;
         analysis := analysis st; dialogs := dialogs st;
         console := console st |}
  | AppendResponse r =>
      {| step := step st; isLoading := isLoading st; survey := survey st;
         activeParticipants := activeParticipants st;
         responses := responses st ++ [r];
         simulationProgress := simulationProgress st;
         analysis := analysis st; dialogs := dialogs st;
         console := console st |}
  | SetSimulationProgress p =>
      {| step := step st; isLoading := isLoading st; survey := survey st;
         activeParticipants := activeParticipants st;
         responses := responses st;
         simulationProgress := p;
         analysis := analysis st; dialogs := dialogs st;
         console := console st |}
  | SetIsLoading b =>
      {| step := step st; isLoading := b; survey := survey st;
         activeParticipants := activeParticipants st;
         responses := responses st;
         simulationProgress := simulationProgress st;
         analysis := analysis st; dialogs := dialogs st;
         console := console st |}
  | SetAnalysis a =>
      {| step := step st; isLoading := isLoading st; survey := survey st;
         activeParticipants := activeParticipants st;
         responses := responses st;
         simulationProgress := simulationProgress st;
         analysis := Some a; dialogs := dialogs st;
         console := console st |}
  end.

Definition applyEffects (st : State) (es : list Effect) : State :=
  fold_left applyEffect es st.

(** The values passed to [setSimulationProgress], in order. *)
Fixpoint progressUpdates (es : list Effect) : list Q :=
  match es with
  | [] => []
  | SetSimulationProgress p :: r => p :: progressUpdates r
  | _ :: r => progressUpdates r
  end.

(** The texts passed to [alert], in order. *)
Fixpoint alerts (es : list Effect) : list string :=
  match es with
  | [] => []
  | Alert msg :: r => msg :: alerts r
  | _ :: r => alerts r
  end.

(** The responses passed to [setResponses(prev => [...prev, resp])]. *)
Fixpoint appended (es : list Effect) : list SurveyResponse :=
  match es with
  | [] => []
  | AppendResponse r :: rest => r :: appended rest
  | _ :: rest => appended rest
  end.

(** The three kinds of effect the loop of [runSimulation] can have. *)
Definition loopEffect (e : Effect) : bool :=
  match e with
  | ConsoleError _ _ | AppendResponse _ | SetSimulationProgress _ => true
  | _ => false
  end.

(** [((i + 1) / activeParticipants.length) * 100], in doubles: the sum,
    the quotient and the product are each rounded. *)
Definition progressAfter (i total : nat) : Q :=
  Double.mul
    (Double.div (Double.add (Double.ofZ (Z.of_nat i)) 1)
                (Double.ofZ (Z.of_nat total)))
    100.

(** The same expression evaluated with the operations of [SpecFloat]. *)
Definition progressAfterSpec (i total : nat) : option Q :=
  Double.ofSpecFloat
    (SpecFloat.SFmul 53 1024
       (SpecFloat.SFdiv 53 1024
          (SpecFloat.SFadd 53 1024 (Double.specOfZ (Z.of_nat i))
             (Double.specOfZ 1))
          (Double.specOfZ (Z.of_nat total)))
       (Double.specOfZ 100)).

Section Run.

Variable JSON : JsonParser.
(** [api k] is the outcome of the [k]-th call of the capability made
    by the run (counting from 0). *)
Variable api : nat -> ApiResult.

(** The [for] loop of [runSimulation], from index [i] on: [rest] is
    [activeParticipants.slice(i)] and [newResponses] the local array.
    The result is the final [newResponses] and the effects in order. *)
Fixpoint simulationLoop (sv : Survey) (total i : nat)
    (rest : list GeneratedPersona) (newResponses : list SurveyResponse)
    : list SurveyResponse * list Effect :=
  match rest with
  | [] => (newResponses, [])
  | persona :: rest' =>
      let '(settled, logged) :=
        simulateSurveyResponse JSON persona sv (api i) in
      let '(newResponses', pushed) :=
        match settled with
        | Resolved resp => (newResponses ++ [resp], [AppendResponse resp])
        | Rejected _ =>
            (newResponses,
             [ConsoleError ("Error simulating " ++ p_name persona) None])
        end in
      let '(final, later) :=
        simulationLoop sv total (S i) rest' newResponses' in
      (final,
       logged ++ pushed
       ++ SetSimulationProgress (progressAfter i total) :: later)
  end.

(** The final value of the local array [newResponses]. *)
Definition collected (st : State) : list SurveyResponse :=
  fst (simulationLoop (survey st) (length (activeParticipants st)) 0
         (activeParticipants st) []).

(** The effects of the loop alone. *)
Definition loopEffects (st : State) : list Effect :=
  snd (simulationLoop (survey st) (length (activeParticipants st)) 0
         (activeParticipants st) []).

(** The "auto-analyze" part that follows the loop. *)
Definition analysisEffects (st : State) : list Effect :=
  let newResponses := collected st in
  if (0 <? length newResponses)%nat then
    SetIsLoading true
    :: match analyzeResults JSON (survey st) newResponses
               (activeParticipants st)
               (api (length (activeParticipants st))) with
       | Resolved analysisResult =>
           [SetAnalysis analysisResult; SetStep RESULTS]
       | Rejected e =>
           [ConsoleError "Analysis failed" (Some e);
            Alert "Simulation finished, but analysis failed."]
       end
    ++ [SetIsLoading false]
  else [SetStep PERSONAS; SetIsLoading false].

Definition runSimulationEffects (st : State) : list Effect :=
  if (length (activeParticipants st) =? 0)%nat then
    [Alert "Please add at least one persona to run the simulation."]
  else
    [SetStep SIMULATION; ResetResponses; SetSimulationProgress 0]
    ++ loopEffects st ++ analysisEffects st.

(** [runSimulation]: the state once the handler has finished. *)
Definition runSimulation (st : State) : State :=
  applyEffects st (runSimulationEffects st).

(** The number of personas for which the loop appended no response. *)
Definition failureCount (st : State) : nat :=
  length (activeParticipants st) - length (collected st).

(** The [k]-th call gave no usable answer array: the capability
    threw, gave no text, or the text did not parse to an answer
    array. *)
Definition callFailed (k : nat) : bool :=
  match api k with
  | ApiThrows _ => true
  | ApiResponse text =>
      JS.falsy text
      || match parseSimulation JSON (default "" text) with
         | Some (AnswerArray _) => false
         | _ => true
         end
  end.

End Run.

End App.

(** ** [App.tsx]: the tabulation inside [renderResults] *)

Module Tabulation.

(** The value of a bucket: a number of answers, or [NaN]. *)
Inductive Count := NaN | Num (n : nat).

(** The property names every object literal inherits from
    [Object.prototype]. *)
Definition objectPrototypeKeys : list string :=
  ["constructor"; "hasOwnProperty"; "isPrototypeOf";
   "propertyIsEnumerable"; "toLocaleString"; "toString"; "valueOf";
   "__proto__"; "__defineGetter__"; "__defineSetter__";
   "__lookupGetter__"; "__lookupSetter__"].

Definition inherited (k : string) : bool :=
  existsb (String.eqb k) objectPrototypeKeys.

(** [dataMap[k] = v] for a number [v]: the inherited setter [__proto__]
    ignores numbers, any other key becomes an own property. *)
Definition setProp (m : gmap string Count) (k : string) (v : Count)
    : gmap string Count :=
  if String.eqb k "__proto__" then m else <[k := v]> m.

(** [dataMap[k] !== undefined]: own properties first, then the
    prototype. *)
Definition isDefined (m : gmap string Count) (k : string) : bool :=
  match m !! k with
  | Some _ => true
  | None => inherited k
  end.

(** [dataMap[k]++]: an inherited function or object converts to [NaN]. *)
Definition increment (m : gmap string Count) (k : string)
    : gmap string Count :=
  let old := match m !! k with Some c => c | None => NaN end in
  setProp m k (match old with Num n => Num (S n) | NaN => NaN end).

(** [ans.answer.toString()]. For a number this is the decimal text of the
    integer, which is what the code prints for a safe integer
    ([JS.isSafeInteger]); the code prints a larger number with the fewest
    digits that identify the double, and in exponent notation from
    10^21. *)
Definition toString (a : AnswerValue) : string :=
  match a with
  | AnswerText s => s
  | AnswerNumber n => pretty n
  end.

(** The zero-seeding of [dataMap]. *)
Definition seed (q : Question) : gmap string Count :=
  match q_type q with
  | RATING_SCALE =>
      foldl (fun m n => setProp m (pretty n) (Num 0)) ∅ [1; 2; 3; 4; 5]%Z
  | MULTIPLE_CHOICE =>
      match q_options q with
      | Some opts => foldl (fun m o => setProp m o (Num 0)) ∅ opts
      | None => ∅
      end
  | OPEN_ENDED => ∅
  end.

(** The body of [responses.forEach]. *)
Definition countResponse (q : Question) (m : gmap string Count)
    (r : SurveyResponse) : gmap string Count :=
  match find (fun a => String.eqb (questionId a) (q_id q)) (answers r) with
  | Some ans =>
      let val := toString (answer ans) in
      if isDefined m val then increment m val
      else setProp m val (Num 1)
  | None => m
  end.

Definition dataMap (q : Question) (responses : list SurveyResponse)
    : gmap string Count :=
  foldl (countResponse q) (seed q) responses.

(** One table per question that is not open-ended. *)
Definition tables (sv : Survey) (responses : list SurveyResponse)
    : list (Question * gmap string Count) :=
  map (fun q => (q, dataMap q responses))
      (List.filter (fun q => negb (QuestionType_eqb (q_type q) OPEN_ENDED))
                   (questions sv)).

End Tabulation.

(** ** [App.tsx]: survey templates

    [saveTemplate] and [loadTemplate] copy the survey with
    [JSON.parse(JSON.stringify(...))]. What matters there is which objects
    are shared, so this part is modelled over a store of objects: a
    survey is a reference into the store. JSON text is represented by the
    tree it denotes. *)

Module Store.

Definition loc := nat.

Inductive value :=
| VUndefined
| VNull
| VBool (b : bool)
| VString (s : string)
| VNumber (n : Z)
| VRef (l : loc).

Inductive object :=
| Obj (props : list (string * value))   (* own properties, in order *)
| Arr (elems : list value).

(** The store: the object at location [l] is the [l]-th entry; a new
    object goes to the end. *)
Abbreviation heap := (list object).

Definition children (o : object) : list value :=
  match o with
  | Obj props => map snd props
  | Arr elems => elems
  end.


Inductive json :=
| JNull
| JBool (b : bool)
| JString (s : string)
| JNumber (n : Z)
| JArray (l : list json)
| JObject (l : list (string * json)).

(** A property whose value serialises to nothing ([undefined]) is left
    out of the object. *)
Definition keepDefined (kr : (string * value) * option json)
    : option (string * json) :=
  match kr.2 with
  | Some j => Some (kr.1.1, j)
  | None => None
  end.

(** [JSON.stringify(v)]. The outer [None] is an exception (a cycle or a
    nesting deeper than [depth]); [Some None] is [undefined]. *)
Fixpoint serialize (depth : nat) (h : heap) (v : value)
    : option (option json) :=
  match depth with
  | O => None
  | S n =>
      match v with
      | VUndefined => Some None
      | VNull => Some (Some JNull)
      | VBool b => Some (Some (JBool b))
      | VString s => Some (Some (JString s))
      | VNumber z => Some (Some (JNumber z))
      | VRef l =>
          match h !! l with
          | None => None
          | Some (Arr elems) =>
              match mapM (serialize n h) elems with
              | Some rs => Some (Some (JArray (map (default JNull) rs)))
              | None => None
              end
          | Some (Obj props) =>
              match mapM (fun kv => serialize n h kv.2) props with
              | Some rs =>
                  Some (Some (JObject (omap keepDefined (zip props rs))))
              | None => None
              end
          end
      end
  end.

(** Allocation of a sequence of values, left to right. *)
Definition allocAll {A} (f : A -> heap -> value * heap)
    : list A -> heap -> list value * heap :=
  fix go l h :=
    match l with
    | [] => ([], h)
    | x :: r =>
        let '(v, h1) := f x h in
        let '(vs, h2) := go r h1 in
        (v :: vs, h2)
    end.

(** [JSON.parse] of the text of tree [j]: every array and object of the
    tree is a new object of the store. *)
Fixpoint revive (j : json) (h : heap) : value * heap :=
  match j with
  | JNull => (VNull, h)
  | JBool b => (VBool b, h)
  | JString s => (VString s, h)
  | JNumber z => (VNumber z, h)
  | JArray l =>
      let '(vs, h') := allocAll revive l h in
      (VRef (length h'), h' ++ [Arr vs])
  | JObject l =>
      let '(vs, h') := allocAll (fun kj => revive kj.2) l h in
      (VRef (length h'), h' ++ [Obj (zip (map fst l) vs)])
  end.

(** [JSON.parse(JSON.stringify(v))]; [None] when it throws. *)
Definition deepCopy (depth : nat) (h : heap) (v : value)
    : option (value * heap) :=
  match serialize depth h v with
  | Some (Some j) => Some (revive j h)
  | _ => None
  end.

(** *** The typed view of a survey *)

Fixpoint field (k : string) (l : list (string * json)) : option json :=
  match l with
  | [] => None
  | (k', j) :: r => if String.eqb k k' then Some j else field k r
  end.

Definition asString (j : json) : option string :=
  match j with JString s => Some s | _ => None end.

Definition questionTypeOfString (s : string) : option QuestionType :=
  if String.eqb s "OPEN_ENDED" then Some OPEN_ENDED
  else if String.eqb s "MULTIPLE_CHOICE" then Some MULTIPLE_CHOICE
  else if String.eqb s "RATING_SCALE" then Some RATING_SCALE
  else None.

Definition stringField (k : string) (l : list (string * json))
    : option string :=
  match field k l with
  | Some j => asString j
  | None => None
  end.

Definition optionsOfJson (l : list (string * json))
    : option (option (list string)) :=
  match field "options" l with
  | None => Some None
  | Some (JArray os) =>
      match mapM asString os with
      | Some ss => Some (Some ss)
      | None => None
      end
  | Some _ => None
  end.

Definition questionOfJson (j : json) : option Question :=
  match j with
  | JObject l =>
      match stringField "id" l, stringField "text" l,
            stringField "type" l, optionsOfJson l with
      | Some i, Some t, Some ty, Some os =>
          match questionTypeOfString ty with
          | Some qt =>
              Some {| q_id := i; q_text := t; q_type := qt;
                      q_options := os |}
          | None => None
          end
      | _, _, _, _ => None
      end
  | _ => None
  end.

Definition surveyOfJson (j : json) : option Survey :=
  match j with
  | JObject l =>
      match stringField "title" l, stringField "description" l,
            field "questions" l with
      | Some t, Some d, Some (JArray qs) =>
          match mapM questionOfJson qs with
          | Some qs' =>
              Some {| title := t; description := d; questions := qs' |}
          | None => None
          end
      | _, _, _ => None
      end
  | _ => None
  end.

(** The [Survey] that the object at [v] is, field by field. *)
Definition readSurvey (depth : nat) (h : heap) (v : value)
    : option Survey :=
  match serialize depth h v with
  | Some (Some j) => surveyOfJson j
  | _ => None
  end.

(** The nesting depth of a tree. *)
Fixpoint jdepth (j : json) : nat :=
  match j with
  | JArray l => S (list_max (map jdepth l))
  | JObject l => S (list_max (map (fun kj : string * json => jdepth kj.2) l))
  | _ => 1
  end.

(** *** A survey as the component builds it *)

Definition stringOfQuestionType (t : QuestionType) : string :=
  match t with
  | OPEN_ENDED => "OPEN_ENDED"
  | MULTIPLE_CHOICE => "MULTIPLE_CHOICE"
  | RATING_SCALE => "RATING_SCALE"
  end.

(** The tree of [JSON.stringify(q)]: a question without options has no
    [options] property in the text. *)
Definition jsonOfQuestion (q : Question) : json :=
  JObject ([("id", JString (q_id q)); ("text", JString (q_text q));
            ("type", JString (stringOfQuestionType (q_type q)))]
           ++ match q_options q with
              | Some os => [("options", JArray (map JString os))]
              | None => []
              end).

Definition jsonOfSurvey (s : Survey) : json :=
  JObject [("title", JString (title s));
           ("description", JString (description s));
           ("questions", JArray (map jsonOfQuestion (questions s)))].

(** *** Vocabulary for the facts about copies *)

(** Every reference held by [v] points at or above [b]. *)
Definition rootAbove (b : nat) (v : value) : Prop :=
  forall l, v = VRef l -> (b <= l)%nat.

(** Every reference held by a property or element of [o] points at or
    above [b]. *)
Definition closedAbove (b : nat) (o : object) : Prop :=
  Forall (rootAbove b) (children o).

(** [h'] is [h] followed by new objects that only refer to new objects. *)
Definition extends (h h' : heap) : Prop :=
  exists ext, h' = h ++ ext /\ Forall (closedAbove (length h)) ext.

(** What a function [f] that allocates the value of [tgt x] has to
    satisfy at depth [n]. *)
Definition allocates {A} (n : nat) (f : A -> heap -> value * heap)
    (tgt : A -> json) (x : A) : Prop :=
  forall h v h', f x h = (v, h') ->
    extends h h' /\ rootAbove (length h) v
    /\ serialize n h' v = Some (Some (tgt x)).

End Store.

Module Templates.
Import Store.

Record SavedTemplate := {
  t_id : string;
  t_name : string;
  t_survey : value;
  t_createdAt : Z
}.

(** The part of the component state that the template handlers use,
    together with the store its references point into. *)
Record State := {
  store : heap;
  survey : value;
  savedTemplates : list SavedTemplate;
  templateNameInput : string;
  isSaveModalOpen : bool;
  isLoadModalOpen : bool;
  dialogs : list string
}.

Section Handlers.

(** The nesting depth up to which [JSON.stringify] succeeds. *)
Variable depth : nat.

(** [saveTemplate]; [newId] is what [generateId()] returns and [now]
    what [Date.now()] returns. [None]: the handler threw.
    [saveTemplatesToStorage] also writes the list to [localStorage],
    which no handler here reads back. *)
Definition saveTemplate (newId : string) (now : Z) (st : State)
    : option State :=
  if String.eqb (JS.trim (templateNameInput st)) "" then
    Some {| store := store st; survey := survey st;
            savedTemplates := savedTemplates st;
            templateNameInput := templateNameInput st;
            isSaveModalOpen := isSaveModalOpen st;
            isLoadModalOpen := isLoadModalOpen st;
            dialogs := dialogs st
                       ++ ["Please enter a name for the template."] |}
  else
    match deepCopy depth (store st) (survey st) with
    | None => None
    | Some (snapshot, h) =>
        let newTemplate :=
          {| t_id := newId; t_name := templateNameInput st;
             t_survey := snapshot; t_createdAt := now |} in
        Some {| store := h; survey := survey st;
                savedTemplates := savedTemplates st ++ [newTemplate];
                templateNameInput := templateNameInput st;
                isSaveModalOpen := false;
                isLoadModalOpen := isLoadModalOpen st;
                dialogs := dialogs st |}
    end.

(** [loadTemplate]; [confirmed] is the answer to [window.confirm]. *)
Definition loadTemplate (confirmed : bool) (template : SavedTemplate)
    (st : State) : option State :=
  if confirmed then
    match deepCopy depth (store st) (t_survey template) with
    | None => None
    | Some (surveyCopy, h) =>
        Some {| store := h; survey := surveyCopy;
                savedTemplates := savedTemplates st;
                templateNameInput := templateNameInput st;
                isSaveModalOpen := isSaveModalOpen st;
                isLoadModalOpen := false;
                dialogs := dialogs st |}
    end
  else Some st.

End Handlers.

End Templates.

(** ** Concrete inputs used by the examples below *)

Module Fixtures.

Definition ratingQuestion : Question :=
  {| q_id := "q1"; q_text := "How often do you struggle with tasks?";
     q_type := RATING_SCALE; q_options := None |}.

Definition openQuestion : Question :=
  {| q_id := "q2"; q_text := "What is your biggest pain point?";
     q_type := OPEN_ENDED; q_options := None |}.

Definition choiceQuestion : Question :=
  {| q_id := "q3"; q_text := "Which plan would you pick?";
     q_type := MULTIPLE_CHOICE; q_options := Some ["Free"; "Pro"] |}.

Definition ratingSurvey : Survey :=
  {| title := "New Product Concept Survey";
     description := "Validating the need for a productivity tool.";
     questions := [ratingQuestion] |}.

Definition mixedSurvey : Survey :=
  {| title := "New Product Concept Survey";
     description := "Validating the need for a productivity tool.";
     questions := [ratingQuestion; openQuestion; choiceQuestion] |}.

Definition personaA : GeneratedPersona :=
  {| p_id := "pa"; p_name := "Ada"; p_age := 34%Z;
     p_occupation := "Freelance developer";
     p_traits := "organised, impatient";
     p_painPoints := "too many tools" |}.

Definition personaB : GeneratedPersona :=
  {| p_id := "pb"; p_name := "Ben"; p_age := 41%Z;
     p_occupation := "Project manager";
     p_traits := "sociable";
     p_painPoints := "context switching" |}.

(** JSON text: [quoted s] is [s] between double quotes. *)
Definition quoted (s : string) : string :=
  String (ascii_of_nat 34) (s ++ String (ascii_of_nat 34) "").

(** The text [{"answers":[{"questionId":qid,"answer":ans}]}]. *)
Definition oneAnswerText (qid ans : string) : string :=
  "{" ++ quoted "answers" ++ ":[{" ++ quoted "questionId" ++ ":"
  ++ quoted qid ++ "," ++ quoted "answer" ++ ":" ++ quoted ans ++ "}]}".

(** The text [{"answers":"none"}]: valid JSON without an answer array. *)
Definition noArrayText : string :=
  "{" ++ quoted "answers" ++ ":" ++ quoted "none" ++ "}".

Definition report : AnalysisResult :=
  {| summary := "Respondents struggle daily.";
     keyInsights := ["Task overload is common"];
     sentiment := Neutral;
     featureSuggestions := ["Offer a weekly digest"] |}.

(** The text [{"summary":...}] of [report], abbreviated. *)
Definition reportText : string :=
  "{" ++ quoted "summary" ++ ":" ++ quoted (summary report) ++ "}".

(** [JSON.parse] restricted to the texts above: everything else is
    answered as a syntax error. *)
Definition demoJson : JsonParser :=
  {| parsePersonas := fun _ => None;
     parseSimulation := fun s =>
       if String.eqb s (oneAnswerText "q1" "5") then
         Some (AnswerArray [{| raw_questionId := "q1"; raw_answer := "5" |}])
       else if String.eqb s (oneAnswerText "q1" "7") then
         Some (AnswerArray [{| raw_questionId := "q1"; raw_answer := "7" |}])
       else if String.eqb s noArrayText then Some NoAnswerArray
       else None;
     parseAnalysis := fun s =>
       if String.eqb s reportText then Some report else None |}.

Definition initialState (panel : list GeneratedPersona) (sv : Survey)
    : App.State :=
  {| App.step := PERSONAS; App.isLoading := false; App.survey := sv;
     App.activeParticipants := panel; App.responses := [];
     App.simulationProgress := 0%Q; App.analysis := None;
     App.dialogs := []; App.console := [] |}.

(** A capability that is down: every call throws. *)
Definition apiDown : nat -> ApiResult :=
  fun _ => ApiThrows (ServiceError "503 Service Unavailable").

(** The first call answers with rating 5, every later call throws. *)
Definition apiFirstOnly : nat -> ApiResult :=
  fun k => match k with
           | O => ApiResponse (Some (oneAnswerText "q1" "5"))
           | _ => ApiThrows (ServiceError "503 Service Unavailable")
           end.

(** The persona calls answer with rating 5; the text of the analysis
    call (call number [n]) is empty. *)
Definition apiNoAnalysis (n : nat) : nat -> ApiResult :=
  fun k => if (k <? n)%nat
           then ApiResponse (Some (oneAnswerText "q1" "5"))
           else ApiResponse (Some "").

(** The first persona rates 5, the call for the second persona throws,
    the analysis call answers with the report. *)
Definition apiScenario : nat -> ApiResult :=
  fun k => match k with
           | 0%nat => ApiResponse (Some (oneAnswerText "q1" "5"))
           | 1%nat => ApiThrows (ServiceError "503 Service Unavailable")
           | _ => ApiResponse (Some reportText)
           end.

Definition templateSurvey : Survey :=
  {| title := "Pricing survey";
     description := "Which plan fits freelancers.";
     questions := [ratingQuestion; choiceQuestion] |}.

(** [templateSurvey] in the store: the rating question has an
    [options] property that is [undefined], as [addQuestion] makes it. *)
Definition surveyStore : list Store.object :=
  [Store.Obj [("id", Store.VString "q1");
              ("text", Store.VString "How often do you struggle with tasks?");
              ("type", Store.VString "RATING_SCALE");
              ("options", Store.VUndefined)];
   Store.Arr [Store.VString "Free"; Store.VString "Pro"];
   Store.Obj [("id", Store.VString "q3");
              ("text", Store.VString "Which plan would you pick?");
              ("type", Store.VString "MULTIPLE_CHOICE");
              ("options", Store.VRef 1)];
   Store.Arr [Store.VRef 0; Store.VRef 2];
   Store.Obj [("title", Store.VString "Pricing survey");
              ("description", Store.VString "Which plan fits freelancers.");
              ("questions", Store.VRef 3)]].

Definition templateState : Templates.State :=
  {| Templates.store := surveyStore;
     Templates.survey := Store.VRef 4;
     Templates.savedTemplates := [];
     Templates.templateNameInput := "Pricing survey";
     Templates.isSaveModalOpen := true;
     Templates.isLoadModalOpen := false;
     Templates.dialogs := [] |}.

End Fixtures.

(** ** [App.tsx]: the survey builder *)

Module Builder.

(** The value of the [survey] state when the component mounts. *)
Definition initialSurvey : Survey :=
  {| title := "New Product Concept Survey";
     description :=
       "Validating the need for a new AI-powered productivity tool.";
     questions :=
       [{| q_id := "q1";
           q_text :=
             "How often do you struggle with organizing your daily tasks?";
           q_type := RATING_SCALE; q_options := None |};
        {| q_id := "q2";
           q_text :=
             "What is your biggest pain point with current to-do list apps?";
           q_type := OPEN_ENDED; q_options := None |}] |}.

(** [addQuestion]; [generatedId] is what [generateId()] returns. *)
Definition addQuestion (generatedId : string) (type : QuestionType)
    (prev : Survey) : Survey :=
  let newQ :=
    {| q_id := "q" ++ generatedId; q_text := ""; q_type := type;
       q_options := match type with
                    | MULTIPLE_CHOICE => Some ["Option 1"; "Option 2"]
                    | _ => None
                    end |} in
  {| title := title prev; description := description prev;
     questions := questions prev ++ [newQ] |}.

(** A pair [field, value] of [updateQuestion], at the type of the field. *)
Inductive FieldUpdate :=
| SetId (v : string)
| SetText (v : string)
| SetType (v : QuestionType)
| SetOptions (v : option (list string)).

(** [{ ...q, [field]: value }] *)
Definition setField (q : Question) (u : FieldUpdate) : Question :=
  match u with
  | SetId v =>
      {| q_id := v; q_text := q_text q; q_type := q_type q;
         q_options := q_options q |}
  | SetText v =>
      {| q_id := q_id q; q_text := v; q_type := q_type q;
         q_options := q_options q |}
  | SetType v =>
      {| q_id := q_id q; q_text := q_text q; q_type := v;
         q_options := q_options q |}
  | SetOptions v =>
      {| q_id := q_id q; q_text := q_text q; q_type := q_type q;
         q_options := v |}
  end.

Definition updateQuestion (id : string) (u : FieldUpdate) (prev : Survey)
    : Survey :=
  {| title := title prev; description := description prev;
     questions := map (fun q => if String.eqb (q_id q) id
                                then setField q u else q)
                      (questions prev) |}.

Definition removeQuestion (id : string) (prev : Survey) : Survey :=
  {| title := title prev; description := description prev;
     questions := List.filter (fun q => negb (String.eqb (q_id q) id))
                              (questions prev) |}.

(** [newOpts[optIndex] = val] on a copy of the options, for an index
    that is a natural number. Writing at the length appends; writing
    past it would leave holes in the array, which is no list of strings:
    that case is [None]. *)
Definition arrayWrite (opts : list string) (optIndex : nat) (val : string)
    : option (list string) :=
  if (optIndex <? length opts)%nat then Some (<[optIndex := val]> opts)
  else if (optIndex =? length opts)%nat then Some (opts ++ [val])
  else None.

Definition updateOptionOf (qId : string) (optIndex : nat) (val : string)
    (q : Question) : option Question :=
  if negb (String.eqb (q_id q) qId) then Some q
  else match q_options q with
       | None => Some q
       | Some opts =>
           match arrayWrite opts optIndex val with
           | Some newOpts =>
               Some {| q_id := q_id q; q_text := q_text q;
                       q_type := q_type q; q_options := Some newOpts |}
           | None => None
           end
       end.

(** [updateOption]; [None] only in the case [arrayWrite] leaves out. *)
Definition updateOption (qId : string) (optIndex : nat) (val : string)
    (prev : Survey) : option Survey :=
  match mapM (updateOptionOf qId optIndex val) (questions prev) with
  | Some qs =>
      Some {| title := title prev; description := description prev;
              questions := qs |}
  | None => None
  end.

(** [resetSurveyForm]; [confirmed] is the answer to [window.confirm]. *)
Definition resetSurveyForm (confirmed : bool) (prev : Survey) : Survey :=
  if confirmed then
    {| title := "Untitled Survey"; description := ""; questions := [] |}
  else prev.

(** The [onChange] handlers of the title and description inputs. *)
Definition setTitle (v : string) (prev : Survey) : Survey :=
  {| title := v; description := description prev;
     questions := questions prev |}.

Definition setDescription (v : string) (prev : Survey) : Survey :=
  {| title := title prev; description := v; questions := questions prev |}.

(** The [onClick] handler of the Add Option button, in the card of the rendered
    question [q]. *)
Definition addOption (q : Question) (prev : Survey) : Survey :=
  let opts := default [] (q_options q) in
  let newOpts :=
    opts ++ [("Option " ++ pretty (length opts + 1)%nat)%string] in
  updateQuestion (q_id q) (SetOptions (Some newOpts)) prev.

(** What the survey form can do to the survey [s] it shows: the handler
    calls its buttons and inputs make. The id of a new question is
    assumed new ([generateId] draws on the clock and a random number). *)
Inductive event (s : Survey) : Survey -> Prop :=
| ev_addQuestion generatedId type :
    ~ In ("q" ++ generatedId)%string (map q_id (questions s)) ->
    event s (addQuestion generatedId type s)
| ev_text q v :
    In q (questions s) ->
    event s (updateQuestion (q_id q) (SetText v) s)
| ev_removeQuestion q :
    In q (questions s) ->
    event s (removeQuestion (q_id q) s)
| ev_option q opts oIdx v s' :
    In q (questions s) -> q_type q = MULTIPLE_CHOICE ->
    q_options q = Some opts -> (oIdx < length opts)%nat ->
    updateOption (q_id q) oIdx v s = Some s' ->
    event s s'
| ev_addOption q opts :
    In q (questions s) -> q_type q = MULTIPLE_CHOICE ->
    q_options q = Some opts ->
    event s (addOption q s)
| ev_title v : event s (setTitle v s)
| ev_description v : event s (setDescription v s)
| ev_reset confirmed : event s (resetSurveyForm confirmed s).

(** Any number of such events, one after the other. *)
Inductive events : Survey -> Survey -> Prop :=
| events_none s : events s s
| events_then s s' s'' : events s s' -> event s' s'' -> events s s''.

(** Every multiple-choice question has at least two options. *)
Definition choicesHaveOptions (s : Survey) : Prop :=
  forall q, In q (questions s) -> q_type q = MULTIPLE_CHOICE ->
    exists opts, q_options q = Some opts /\ (2 <= length opts)%nat.

End Builder.

(** ** [App.tsx]: the persona library and the active panel *)

Module Personas.

(** The part of the component state these handlers use. [storedLibrary]
    is the entry [personaPulse_library] of [localStorage]. *)
Record State := {
  savedPersonas : list GeneratedPersona;
  activeParticipants : list GeneratedPersona;
  editingPersonaId : option string;
  editForm : option GeneratedPersona;
  isLoading : bool;
  dialogs : list string;
  console : list Exn;
  storedLibrary : option string
}.

Definition hasId (id : string) (p : GeneratedPersona) : bool :=
  String.eqb (p_id p) id.

Definition withId (id : string) (p : GeneratedPersona) : GeneratedPersona :=
  {| p_id := id; p_name := p_name p; p_age := p_age p;
     p_occupation := p_occupation p; p_traits := p_traits p;
     p_painPoints := p_painPoints p |}.

Section Handlers.

(** [JSON.stringify] on a persona list. *)
Variable stringify : list GeneratedPersona -> string.

Definition savePersonaLibrary (newList : list GeneratedPersona)
    (st : State) : State :=
  {| savedPersonas := newList;
     activeParticipants := activeParticipants st;
     editingPersonaId := editingPersonaId st; editForm := editForm st;
     isLoading := isLoading st; dialogs := dialogs st;
     console := console st;
     storedLibrary := Some (stringify newList) |}.

Definition alert (msg : string) (st : State) : State :=
  {| savedPersonas := savedPersonas st;
     activeParticipants := activeParticipants st;
     editingPersonaId := editingPersonaId st; editForm := editForm st;
     isLoading := isLoading st; dialogs := dialogs st ++ [msg];
     console := console st; storedLibrary := storedLibrary st |}.

Definition setActiveParticipants (l : list GeneratedPersona) (st : State)
    : State :=
  {| savedPersonas := savedPersonas st; activeParticipants := l;
     editingPersonaId := editingPersonaId st; editForm := editForm st;
     isLoading := isLoading st; dialogs := dialogs st;
     console := console st; storedLibrary := storedLibrary st |}.

Definition setEditing (id : option string) (form : option GeneratedPersona)
    (st : State) : State :=
  {| savedPersonas := savedPersonas st;
     activeParticipants := activeParticipants st;
     editingPersonaId := id; editForm := form;
     isLoading := isLoading st; dialogs := dialogs st;
     console := console st; storedLibrary := storedLibrary st |}.

Definition setIsLoading (b : bool) (st : State) : State :=
  {| savedPersonas := savedPersonas st;
     activeParticipants := activeParticipants st;
     editingPersonaId := editingPersonaId st; editForm := editForm st;
     isLoading := b; dialogs := dialogs st;
     console := console st; storedLibrary := storedLibrary st |}.

Definition consoleError (e : Exn) (st : State) : State :=
  {| savedPersonas := savedPersonas st;
     activeParticipants := activeParticipants st;
     editingPersonaId := editingPersonaId st; editForm := editForm st;
     isLoading := isLoading st; dialogs := dialogs st;
     console := console st ++ [e]; storedLibrary := storedLibrary st |}.

Definition addToLibrary (persona : GeneratedPersona) (st : State) : State :=
  if existsb (hasId (p_id persona)) (savedPersonas st) then
    alert "This specific persona instance is already in your library." st
  else savePersonaLibrary (savedPersonas st ++ [persona]) st.

Definition removeFromLibrary (id : string) (st : State) : State :=
  savePersonaLibrary
    (List.filter (fun p => negb (hasId id p)) (savedPersonas st)) st.

Definition importFromLibrary (persona : GeneratedPersona) (st : State)
    : State :=
  if existsb (hasId (p_id persona)) (activeParticipants st) then st
  else setActiveParticipants (activeParticipants st ++ [persona]) st.

Definition startEditing (persona : GeneratedPersona) (st : State) : State :=
  setEditing (Some (p_id persona)) (Some persona) st.

Definition saveEdit (isLibrary : bool) (st : State) : State :=
  match editForm st with
  | None => st
  | Some form =>
      let replace := map (fun p => if hasId (p_id form) p then form else p) in
      let st' :=
        if isLibrary then savePersonaLibrary (replace (savedPersonas st)) st
        else setActiveParticipants (replace (activeParticipants st)) st in
      setEditing None None st'
  end.

Definition cancelEdit (st : State) : State := setEditing None None st.

Definition deleteActivePersona (id : string) (st : State) : State :=
  setActiveParticipants
    (List.filter (fun p => negb (hasId id p)) (activeParticipants st)) st.

(** [handleGeneratePersonas]. [response] is the outcome of the call of
    the capability; [generateId k] is what the [k]-th call of
    [generateId()] made by the handler returns. *)
Definition handleGeneratePersonas (JSON : JsonParser)
    (description : string) (count : Z) (response : ApiResult)
    (generateId : nat -> string) (st : State) : State :=
  if String.eqb (JS.trim description) "" then st
  else
    let st1 := setIsLoading true st in
    let st2 :=
      match generatePersonas JSON description count response with
      | Resolved personas =>
          let uniquePersonas :=
            imap (fun k p => withId (generateId k) p) personas in
          setActiveParticipants (activeParticipants st1 ++ uniquePersonas)
            st1
      | Rejected error =>
          alert "Failed to generate personas. Please check your API key or try again."
            (consoleError error st1)
      end in
    setIsLoading false st2.

(** Ids are distinct within the library and within the panel, and the
    stored library is the text of the library in the state. *)
Definition wellFormed (st : State) : Prop :=
  NoDup (map p_id (savedPersonas st))
  /\ NoDup (map p_id (activeParticipants st))
  /\ storedLibrary st = Some (stringify (savedPersonas st)).

End Handlers.

End Personas.

(** ** [App.tsx]: the CSV export *)

Module Csv.

Definition dquote : ascii := ascii_of_nat 34.

(** The [replace] of [escapeCsv]: every double quote is doubled. *)
Fixpoint doubleQuotes (s : string) : string :=
  match s with
  | EmptyString => EmptyString
  | String c r =>
      if Ascii.eqb c dquote
      then String dquote (String dquote (doubleQuotes r))
      else String c (doubleQuotes r)
  end.

(** [escapeCsv]; [None] is [null] or [undefined]. *)
Definition escapeCsv (text : option AnswerValue) : string :=
  match text with
  | None => ""
  | Some v =>
      String dquote (doubleQuotes (Tabulation.toString v)
                     ++ String dquote "")
  end.

Definition escapeText (s : string) : string :=
  escapeCsv (Some (AnswerText s)).

Definition headers (sv : Survey) : list string :=
  ["Persona ID"; "Name"; "Age"; "Occupation"; "Traits"]
  ++ map (fun q => escapeText (q_text q)) (questions sv).

(** The array [row] built for the response [r] of persona [p]. The age
    is not escaped: [join] prints the number. *)
Definition row (sv : Survey) (p : GeneratedPersona) (r : SurveyResponse)
    : list string :=
  [escapeText (p_id p); escapeText (p_name p); pretty (p_age p);
   escapeText (p_occupation p); escapeText (p_traits p)]
  ++ map (fun q =>
            escapeCsv
              (option_map answer
                 (find (fun a => String.eqb (questionId a) (q_id q))
                       (answers r))))
         (questions sv).

(** The rows as arrays of fields: the header, then one row per response
    whose persona is in the panel. *)
Definition rowFields (sv : Survey) (panel : list GeneratedPersona)
    (responses : list SurveyResponse) : list (list string) :=
  headers sv
  :: omap (fun r =>
             match find (fun gp => String.eqb (p_id gp) (personaId r))
                        panel with
             | Some p => Some (row sv p r)
             | None => None
             end)
          responses.

(** [a.join(sep)] *)
Fixpoint join (sep : string) (l : list string) : string :=
  match l with
  | [] => ""
  | [x] => x
  | x :: r => x ++ sep ++ join sep r
  end.

Definition newline : string := String (ascii_of_nat 10) "".

(** The content of the downloaded file. *)
Definition csvContent (sv : Survey) (panel : list GeneratedPersona)
    (responses : list SurveyResponse) : string :=
  join newline (map (join ",") (rowFields sv panel responses)).

(** [c] is kept by [replace(/[^a-z0-9]/gi, '_')]. *)
Definition isAlphaNum (c : ascii) : bool :=
  let n := nat_of_ascii c in
  ((48 <=? n) && (n <=? 57) || (65 <=? n) && (n <=? 90)
   || (97 <=? n) && (n <=? 122))%nat.

Definition toLowerChar (c : ascii) : ascii :=
  let n := nat_of_ascii c in
  if ((65 <=? n) && (n <=? 90))%nat then ascii_of_nat (n + 32) else c.

(** [title.replace(/[^a-z0-9]/gi, '_').toLowerCase()] *)
Fixpoint fileStem (s : string) : string :=
  match s with
  | EmptyString => EmptyString
  | String c r =>
      String (if isAlphaNum c then toLowerChar c else "_"%char) (fileStem r)
  end.

Definition csvFileName (sv : Survey) : string :=
  fileStem (title sv) ++ "_data.csv".

(** A lower-case letter, a digit or an underscore. *)
Definition isFileChar (c : ascii) : bool :=
  let n := nat_of_ascii c in
  ((48 <=? n) && (n <=? 57) || (97 <=? n) && (n <=? 122) || (n =? 95))%nat.

Fixpoint allChars (P : ascii -> bool) (s : string) : bool :=
  match s with
  | EmptyString => true
  | String c r => P c && allChars P r
  end.

End Csv.

(** ** Reading a CSV file

    What a reader of comma-separated values makes of a text: fields are
    separated by commas and rows by line feeds; a field that starts with
    a double quote runs to the next double quote that is not doubled, and
    a doubled double quote in it stands for one. This is not code of the
    application: it is the reading against which the export is judged. *)

Module CsvReader.

Inductive Mode := FieldStart | InUnquoted | InQuoted | AfterQuote | Broken.

Record Lexer := {
  mode : Mode;
  field : string;              (* the text of the field being read *)
  row : list string;           (* the fields of the row being read *)
  rows : list (list string)    (* the rows read *)
}.

Definition comma : ascii := ascii_of_nat 44.
Definition lineFeed : ascii := ascii_of_nat 10.

Definition endField (st : Lexer) : Lexer :=
  {| mode := FieldStart; field := ""; row := row st ++ [field st];
     rows := rows st |}.

Definition endRow (st : Lexer) : Lexer :=
  {| mode := FieldStart; field := ""; row := [];
     rows := rows st ++ [row st ++ [field st]] |}.

Definition addChar (c : ascii) (m : Mode) (st : Lexer) : Lexer :=
  {| mode := m; field := field st ++ String c ""; row := row st;
     rows := rows st |}.

Definition setMode (m : Mode) (st : Lexer) : Lexer :=
  {| mode := m; field := field st; row := row st; rows := rows st |}.

Definition step (st : Lexer) (c : ascii) : Lexer :=
  match mode st with
  | FieldStart =>
      if Ascii.eqb c Csv.dquote then setMode InQuoted st
      else if Ascii.eqb c comma then endField st
      else if Ascii.eqb c lineFeed then endRow st
      else addChar c InUnquoted st
  | InUnquoted =>
      if Ascii.eqb c comma then endField st
      else if Ascii.eqb c lineFeed then endRow st
      else addChar c InUnquoted st
  | InQuoted =>
      if Ascii.eqb c Csv.dquote then setMode AfterQuote st
      else addChar c InQuoted st
  | AfterQuote =>
      if Ascii.eqb c Csv.dquote then addChar c InQuoted st
      else if Ascii.eqb c comma then endField st
      else if Ascii.eqb c lineFeed then endRow st
      else setMode Broken st
  | Broken => st
  end.

Fixpoint run (st : Lexer) (s : string) : Lexer :=
  match s with
  | EmptyString => st
  | String c r => run (step st c) r
  end.

Definition start : Lexer :=
  {| mode := FieldStart; field := ""; row := []; rows := [] |}.

(** The table read, or [None] for a text that is no table: a quote left
    open, or text after a closing quote. *)
Definition finish (st : Lexer) : option (list (list string)) :=
  match mode st with
  | Broken | InQuoted => None
  | _ => Some (rows st ++ [row st ++ [field st]])
  end.

Definition readCsv (s : string) : option (list (list string)) :=
  finish (run start s).

(** The state at the start of a field, with [r] and [rs] read so far. *)
Definition atField (r : list string) (rs : list (list string)) : Lexer :=
  {| mode := FieldStart; field := ""; row := r; rows := rs |}.

(** The reader has read a whole field with text [text]. *)
Definition complete (st : Lexer) (text : string) : Prop :=
  field st = text
  /\ (mode st = AfterQuote \/ mode st = InUnquoted
      \/ (mode st = FieldStart /\ text = "")).

(** The string [f] is read as one field, with text [text]. *)
Definition encodes (f text : string) : Prop :=
  forall r rs,
    complete (run (atField r rs) f) text
    /\ row (run (atField r rs) f) = r
    /\ rows (run (atField r rs) f) = rs.

(** Neither a double quote, nor a comma, nor a line feed. *)
Definition plainChar (c : ascii) : bool :=
  negb (Ascii.eqb c Csv.dquote) && negb (Ascii.eqb c comma)
  && negb (Ascii.eqb c lineFeed).

(** The texts the export is made from: the header row. *)
Definition headerTexts (sv : Survey) : list string :=
  ["Persona ID"; "Name"; "Age"; "Occupation"; "Traits"]
  ++ map q_text (questions sv).

(** The texts of the row of persona [p] and response [r]: an unanswered
    question has the empty text. *)
Definition rowTexts (sv : Survey) (p : GeneratedPersona)
    (r : SurveyResponse) : list string :=
  [p_id p; p_name p; pretty (p_age p); p_occupation p; p_traits p]
  ++ map (fun q =>
            match find (fun a => String.eqb (questionId a) (q_id q))
                       (answers r) with
            | Some a => Tabulation.toString (answer a)
            | None => ""
            end)
         (questions sv).

Definition tableTexts (sv : Survey) (panel : list GeneratedPersona)
    (responses : list SurveyResponse) : list (list string) :=
  headerTexts sv
  :: omap (fun r =>
             match find (fun gp => String.eqb (p_id gp) (personaId r))
                        panel with
             | Some p => Some (rowTexts sv p r)
             | None => None
             end)
          responses.

End CsvReader.

(** ** [components/StepIndicator.tsx] *)

Module Indicator.

Definition steps : list (Step * string) :=
  [(SETUP, "Design Survey"); (PERSONAS, "Target Audience");
   (SIMULATION, "Simulate"); (RESULTS, "Analysis")].

Definition Step_eqb (a b : Step) : bool :=
  match a, b with
  | SETUP, SETUP | PERSONAS, PERSONAS
  | SIMULATION, SIMULATION | RESULTS, RESULTS => true
  | _, _ => false
  end.

(** [a.findIndex(pred)]: the first index, or -1. *)
Fixpoint findIndexFrom {A} (pred : A -> bool) (l : list A) (i : Z) : Z :=
  match l with
  | [] => (-1)%Z
  | x :: r => if pred x then i else findIndexFrom pred r (i + 1)%Z
  end.

Definition currentIndex (currentStep : Step) : Z :=
  findIndexFrom (fun s => Step_eqb (fst s) currentStep) steps 0.

Definition isCompleted (currentStep : Step) (index : nat) : bool :=
  (Z.of_nat index <? currentIndex currentStep)%Z.

Definition isCurrent (currentStep : Step) (index : nat) : bool :=
  (Z.of_nat index =? currentIndex currentStep)%Z.

(** What the circle of the step at [index] shows. *)
Inductive Mark := Tick | Number (n : nat).

Definition mark (currentStep : Step) (index : nat) : Mark :=
  if isCompleted currentStep index then Tick else Number (index + 1).

(** The connector after the step at [index]: absent after the last step,
    otherwise highlighted or not. *)
Definition connector (currentStep : Step) (index : nat) : option bool :=
  if (Z.of_nat index <? Z.of_nat (length steps) - 1)%Z
  then Some (Z.of_nat index <? currentIndex currentStep)%Z
  else None.

(** The position of a step in the flow of the application. *)
Definition position (s : Step) : nat :=
  match s with
  | SETUP => 0 | PERSONAS => 1 | SIMULATION => 2 | RESULTS => 3
  end.

End Indicator.

(** ** Vocabulary for the tabulation *)

Module Counting.

(** The text under which response [r] is counted for question [q], if it
    answers the question. *)
Definition observed (q : Question) (r : SurveyResponse) : option string :=
  option_map (fun a => Tabulation.toString (answer a))
    (find (fun a => String.eqb (questionId a) (q_id q)) (answers r)).

(** The number of responses counted under the text [k]. *)
Definition occurrences (q : Question) (responses : list SurveyResponse)
    (k : string) : nat :=
  length (List.filter
            (fun r => match observed q r with
                      | Some v => String.eqb v k
                      | None => false
                      end) responses).

End Counting.

(** ** [App.tsx]: deleting a template *)

Module TemplateList.

(** [deleteTemplate]; [confirmed] is the answer to [window.confirm]. *)
Definition deleteTemplate (confirmed : bool) (id : string)
    (st : Templates.State) : Templates.State :=
  if confirmed then
    {| Templates.store := Templates.store st;
       Templates.survey := Templates.survey st;
       Templates.savedTemplates :=
         List.filter (fun t => negb (String.eqb (Templates.t_id t) id))
                     (Templates.savedTemplates st);
       Templates.templateNameInput := Templates.templateNameInput st;
       Templates.isSaveModalOpen := Templates.isSaveModalOpen st;
       Templates.isLoadModalOpen := Templates.isLoadModalOpen st;
       Templates.dialogs := Templates.dialogs st |}
  else st.

End TemplateList.

(** ** More concrete inputs for the examples *)

Module Samples.

(** A stand-in for [JSON.stringify] on persona lists: the ids, separated
    by commas. *)
Definition idsText (l : list GeneratedPersona) : string :=
  Csv.join "," (map p_id l).

(** Ada is in the library, Ada and Ben are in the panel. *)
Definition libraryState : Personas.State :=
  {| Personas.savedPersonas := [Fixtures.personaA];
     Personas.activeParticipants := [Fixtures.personaA; Fixtures.personaB];
     Personas.editingPersonaId := None; Personas.editForm := None;
     Personas.isLoading := false; Personas.dialogs := [];
     Personas.console := []; Personas.storedLibrary := Some "pa" |}.

(** Ben, edited in the form. *)
Definition editedBen : GeneratedPersona :=
  {| p_id := "pb"; p_name := "Benedict"; p_age := 42%Z;
     p_occupation := "Project manager"; p_traits := "sociable";
     p_painPoints := "context switching" |}.

(** The panel entry of Ben is being edited. *)
Definition editingState : Personas.State :=
  {| Personas.savedPersonas := [Fixtures.personaA];
     Personas.activeParticipants := [Fixtures.personaA; Fixtures.personaB];
     Personas.editingPersonaId := Some "pb";
     Personas.editForm := Some editedBen;
     Personas.isLoading := false; Personas.dialogs := [];
     Personas.console := []; Personas.storedLibrary := Some "pa" |}.

End Samples.

(** * Properties *)

(** ** The service functions *)

Lemma simulateSurveyResponse_resolves JSON persona survey response :
  exists r,
    fst (simulateSurveyResponse JSON persona survey response) = Resolved r
    /\ personaId r = p_id persona.
Proof.
  unfold simulateSurveyResponse.
  destruct (simulateTry JSON persona survey response) as [e|r] eqn:Htry.
  - eexists; split; reflexivity.
  - exists r; split; [reflexivity|].
    unfold simulateTry in Htry.
    destruct response as [e|text]; [discriminate|].
    destruct (JS.falsy text); [discriminate|].
    destruct (parseSimulation JSON (default "" text)) as [[|l]|];
      try discriminate.
    by inversion Htry.
Qed.

Lemma simulateTry_fails JSON persona survey response :
  simulationCallFails JSON response ->
  exists e, simulateTry JSON persona survey response = inl e.
Proof.
  intros [[e ->]|[[text [-> Hf]]|[t [-> Hp]]]]; simpl.
  - eauto.
  - rewrite Hf. eauto.
  - destruct (String.eqb t ""); [eauto|]. rewrite Hp. eauto.
Qed.

(** C10. [simulateSurveyResponse] never rejects. When the call of the
    capability throws, returns a missing or empty text, or returns text
    that [JSON.parse] refuses, it resolves with the response made of the
    persona's id and an empty answer sequence; and whatever the call
    does, it resolves with a response whose [personaId] is the id of the
    persona it was given. *)
Theorem simulateSurveyResponse_total JSON persona survey response
    (Hfail : simulationCallFails JSON response) :
  fst (simulateSurveyResponse JSON persona survey response)
  = Resolved {| personaId := p_id persona; answers := [] |}
  /\ forall response', exists r,
       fst (simulateSurveyResponse JSON persona survey response')
       = Resolved r
       /\ personaId r = p_id persona.
Proof.
  split; [|intros; apply simulateSurveyResponse_resolves].
  unfold simulateSurveyResponse.
  destruct (simulateTry_fails JSON persona survey response Hfail) as [e ->].
  reflexivity.
Qed.

Lemma simulateSurveyResponse_total_witness :
  simulationCallFails Fixtures.demoJson (ApiResponse (Some "<html>"))
  /\ fst (simulateSurveyResponse Fixtures.demoJson Fixtures.personaA
            Fixtures.ratingSurvey (ApiResponse (Some "<html>")))
     = Resolved {| personaId := "pa"; answers := [] |}.
Proof.
  assert (H : simulationCallFails Fixtures.demoJson
                (ApiResponse (Some "<html>"))).
  { right; right. exists "<html>". split; reflexivity. }
  split; [exact H|].
  exact (proj1 (simulateSurveyResponse_total Fixtures.demoJson
                  Fixtures.personaA Fixtures.ratingSurvey _ H)).
Defined.

(** C3. Response coercion. For the answer to a question of type
    RATING_SCALE the raw text is read with [parseInt], and the neutral 3
    stands in when that gives no number; for the other two types the
    raw text passes through unchanged. The question id is kept, and every
    entry of the answer array yields an entry of the response, so a
    malformed rating does not discard the rest. On a rating question the
    text not-a-number gives 3 and the text 4 gives the integer 4. *)
Theorem response_coercion JSON (persona : GeneratedPersona)
    (survey : Survey) (a : RawAnswer) (q : Question) (text : string)
    (l : list RawAnswer)
    (Hq : find (fun quest => String.eqb (q_id quest) (raw_questionId a))
               (questions survey) = Some q)
    (Htext : text <> "")
    (Hparse : parseSimulation JSON text = Some (AnswerArray l)) :
  sanitize survey a
  = {| questionId := raw_questionId a;
       answer := match q_type q with
                 | RATING_SCALE =>
                     AnswerNumber (match JS.parseInt (raw_answer a) with
                                   | Some n => n
                                   | None => 3%Z
                                   end)
                 | _ => AnswerText (raw_answer a)
                 end |}
  /\ fst (simulateSurveyResponse JSON persona survey
            (ApiResponse (Some text)))
     = Resolved {| personaId := p_id persona;
                   answers := map (sanitize survey) l |}
  /\ answer (sanitize Fixtures.ratingSurvey
               {| raw_questionId := "q1"; raw_answer := "not-a-number" |})
     = AnswerNumber 3
  /\ answer (sanitize Fixtures.ratingSurvey
               {| raw_questionId := "q1"; raw_answer := "4" |})
     = AnswerNumber 4.
Proof.
  repeat split.
  - unfold sanitize. rewrite Hq. by destruct (q_type q).
  - unfold simulateSurveyResponse, simulateTry. simpl.
    apply String.eqb_neq in Htext. rewrite Htext, Hparse. reflexivity.
Qed.

Lemma response_coercion_witness :
  answer (sanitize Fixtures.mixedSurvey
            {| raw_questionId := "q3"; raw_answer := "Enterprise" |})
  = AnswerText "Enterprise"
  /\ fst (simulateSurveyResponse Fixtures.demoJson Fixtures.personaA
            Fixtures.mixedSurvey
            (ApiResponse (Some (Fixtures.oneAnswerText "q1" "7"))))
     = Resolved {| personaId := "pa";
                   answers := [{| questionId := "q1";
                                  answer := AnswerNumber 7 |}] |}.
Proof.
  pose proof (response_coercion Fixtures.demoJson Fixtures.personaA
                Fixtures.mixedSurvey
                {| raw_questionId := "q3"; raw_answer := "Enterprise" |}
                Fixtures.choiceQuestion
                (Fixtures.oneAnswerText "q1" "7")
                [{| raw_questionId := "q1"; raw_answer := "7" |}]
                eq_refl ltac:(discriminate) eq_refl) as (H1 & H2 & _).
  split.
  - rewrite H1. reflexivity.
  - rewrite H2. reflexivity.
Defined.

(** C4, as the code has it. A missing or empty [text] and a thrown error
    have the same outcome in two of the three calls:
    [simulateSurveyResponse] resolves with the same fallback response for
    both, and [analyzeResults] rejects for both. [generatePersonas] does
    not: a thrown error rejects, a missing or empty [text] resolves with
    the empty persona list. *)
Theorem empty_text_versus_thrown JSON (persona : GeneratedPersona)
    (survey : Survey) (responses : list SurveyResponse)
    (personas : list GeneratedPersona) (description : string) (count : Z)
    (text : option string) (e : Exn)
    (Hempty : JS.falsy text = true) :
  (fst (simulateSurveyResponse JSON persona survey (ApiResponse text))
   = fst (simulateSurveyResponse JSON persona survey (ApiThrows e))
   /\ fst (simulateSurveyResponse JSON persona survey (ApiThrows e))
      = Resolved {| personaId := p_id persona; answers := [] |})
  /\ (analyzeResults JSON survey responses personas (ApiResponse text)
      = Rejected (Error "Analysis failed")
      /\ analyzeResults JSON survey responses personas (ApiThrows e)
         = Rejected e)
  /\ (generatePersonas JSON description count (ApiResponse text)
      = Resolved []
      /\ generatePersonas JSON description count (ApiThrows e)
         = Rejected e).
Proof.
  unfold simulateSurveyResponse, simulateTry, analyzeResults,
    generatePersonas.
  rewrite Hempty. repeat split.
Qed.

Lemma empty_text_versus_thrown_witness :
  generatePersonas Fixtures.demoJson "Remote workers in tech" 3
    (ApiResponse None) = Resolved []
  /\ analyzeResults Fixtures.demoJson Fixtures.ratingSurvey [] []
       (ApiResponse None) = Rejected (Error "Analysis failed").
Proof.
  pose proof (empty_text_versus_thrown Fixtures.demoJson Fixtures.personaA
                Fixtures.ratingSurvey [] [] "Remote workers in tech" 3
                None (ServiceError "503 Service Unavailable") eq_refl)
    as (_ & (H2 & _) & (H3 & _)).
  split; assumption.
Defined.

(** C4 as stated fails for persona generation: with an empty [text] the
    call resolves (with no persona), while a thrown error rejects. *)
Lemma generatePersonas_empty_text_is_no_failure :
  JS.falsy (Some "") = true
  /\ isRejected (generatePersonas Fixtures.demoJson
                   "Remote workers in tech" 3 (ApiResponse (Some "")))
     = false
  /\ isRejected (generatePersonas Fixtures.demoJson
                   "Remote workers in tech" 3
                   (ApiThrows (ServiceError "503 Service Unavailable")))
     = true.
Proof. repeat split. Qed.

(** C5 at a failing input. The capability answers the rating question
    [q1] with the text 7: the response that [simulateSurveyResponse]
    produces carries the number 7, which is outside 1..5; the texts 0 and
    -2 give 0 and -2. Nothing clamps the parsed number. *)
Theorem rating_answer_not_clamped :
  fst (simulateSurveyResponse Fixtures.demoJson Fixtures.personaA
         Fixtures.ratingSurvey
         (ApiResponse (Some (Fixtures.oneAnswerText "q1" "7"))))
  = Resolved {| personaId := "pa";
                answers := [{| questionId := "q1";
                               answer := AnswerNumber 7 |}] |}
  /\ ~ (1 <= 7 <= 5)%Z
  /\ answer (sanitize Fixtures.ratingSurvey
               {| raw_questionId := "q1"; raw_answer := "0" |})
     = AnswerNumber 0
  /\ answer (sanitize Fixtures.ratingSurvey
               {| raw_questionId := "q1"; raw_answer := "-2" |})
     = AnswerNumber (-2).
Proof. repeat split. lia. Qed.

(** ** The loop of [runSimulation] *)

Section LoopFacts.

Variable JSON : JsonParser.
Variable api : nat -> ApiResult.

Lemma simulateSurveyResponse_fst persona survey response :
  fst (simulateSurveyResponse JSON persona survey response)
  = Resolved (responseOf JSON persona survey response).
Proof.
  unfold simulateSurveyResponse, responseOf.
  by destruct (simulateTry JSON persona survey response).
Qed.

Lemma simulateSurveyResponse_snd persona survey response :
  Forall (fun e => App.loopEffect e = true)
         (snd (simulateSurveyResponse JSON persona survey response))
  /\ App.appended (snd (simulateSurveyResponse JSON persona survey response))
     = []
  /\ App.progressUpdates
       (snd (simulateSurveyResponse JSON persona survey response)) = []
  /\ App.alerts (snd (simulateSurveyResponse JSON persona survey response))
     = [].
Proof.
  unfold simulateSurveyResponse.
  destruct (simulateTry JSON persona survey response); simpl; auto.
Qed.

Lemma progressUpdates_app es1 es2 :
  App.progressUpdates (es1 ++ es2)
  = App.progressUpdates es1 ++ App.progressUpdates es2.
Proof.
  induction es1 as [|[] es1 IH]; simpl; auto. by rewrite IH.
Qed.

Lemma appended_app es1 es2 :
  App.appended (es1 ++ es2) = App.appended es1 ++ App.appended es2.
Proof.
  induction es1 as [|[] es1 IH]; simpl; auto. by rewrite IH.
Qed.

Lemma alerts_app es1 es2 :
  App.alerts (es1 ++ es2) = App.alerts es1 ++ App.alerts es2.
Proof.
  induction es1 as [|[] es1 IH]; simpl; auto. by rewrite IH.
Qed.

(** One step of the loop, with the outcome of the service call made
    explicit. *)
Lemma simulationLoop_cons sv total i persona rest acc :
  App.simulationLoop JSON api sv total i (persona :: rest) acc
  = (fst (App.simulationLoop JSON api sv total (S i) rest
            (acc ++ [responseOf JSON persona sv (api i)])),
     snd (simulateSurveyResponse JSON persona sv (api i))
     ++ [AppendResponse (responseOf JSON persona sv (api i))]
     ++ SetSimulationProgress (App.progressAfter i total)
        :: snd (App.simulationLoop JSON api sv total (S i) rest
                  (acc ++ [responseOf JSON persona sv (api i)]))).
Proof.
  simpl.
  pose proof (simulateSurveyResponse_fst persona sv (api i)) as Hfst.
  destruct (simulateSurveyResponse JSON persona sv (api i)) as [c lg].
  simpl in *. subst c.
  by destruct (App.simulationLoop JSON api sv total (S i) rest
                 (acc ++ [responseOf JSON persona sv (api i)])).
Qed.

(** The local array after the loop: one response per persona, in panel
    order, after what it held before. *)
Lemma simulationLoop_collected sv total rest :
  forall i acc,
    fst (App.simulationLoop JSON api sv total i rest acc)
    = acc ++ imap (fun k p => responseOf JSON p sv (api (i + k))) rest.
Proof.
  induction rest as [|p rest IH]; intros i acc.
  - simpl. by rewrite app_nil_r.
  - rewrite simulationLoop_cons. simpl fst. rewrite IH.
    rewrite <- app_assoc. simpl. f_equal.
    rewrite Nat.add_0_r. f_equal.
    apply imap_ext. intros k x _. simpl. f_equal. f_equal. lia.
Qed.

Lemma simulationLoop_effects sv total rest :
  forall i acc,
    let es := snd (App.simulationLoop JSON api sv total i rest acc) in
    Forall (fun e => App.loopEffect e = true) es
    /\ App.appended es
       = imap (fun k p => responseOf JSON p sv (api (i + k))) rest
    /\ App.progressUpdates es
       = map (fun k => App.progressAfter k total) (seq i (length rest))
    /\ App.alerts es = [].
Proof.
  induction rest as [|p rest IH]; intros i acc.
  - simpl. auto.
  - cbv zeta. rewrite simulationLoop_cons. cbn [snd].
    destruct (simulateSurveyResponse_snd p sv (api i))
      as (Hshape & Happ & Hprog & Halert).
    destruct (IH (S i) (acc ++ [responseOf JSON p sv (api i)]))
      as (IHshape & IHapp & IHprog & IHalert).
    repeat split.
    + apply Forall_app; split; [exact Hshape|].
      repeat constructor. exact IHshape.
    + rewrite appended_app, Happ. simpl. rewrite IHapp.
      rewrite Nat.add_0_r. f_equal.
      apply imap_ext. intros k x _. simpl. f_equal. f_equal. lia.
    + rewrite progressUpdates_app, Hprog. simpl. by rewrite IHprog.
    + rewrite alerts_app, Halert. simpl. exact IHalert.
Qed.

(** What effects of the loop's three kinds do to the state. *)
(** The trace of the loop, persona by persona: what the service call
    logged, the append of its response, then the progress update. *)
Lemma simulationLoop_trace sv total rest :
  forall i acc,
    snd (App.simulationLoop JSON api sv total i rest acc)
    = concat
        (imap (fun k p =>
                 snd (simulateSurveyResponse JSON p sv (api (i + k)))
                 ++ [AppendResponse (responseOf JSON p sv (api (i + k)));
                     SetSimulationProgress
                       (App.progressAfter (i + k) total)])
              rest).
Proof.
  induction rest as [|p rest IH]; intros i acc; [reflexivity|].
  rewrite simulationLoop_cons. cbn [snd]. rewrite IH.
  rewrite imap_cons. cbn [concat]. rewrite Nat.add_0_r, <- app_assoc.
  f_equal. simpl. do 3 f_equal.
  apply imap_ext. intros k x _. simpl.
  by replace (i + S k)%nat with (S (i + k)) by lia.
Qed.

Lemma applyEffects_loop es :
  Forall (fun e => App.loopEffect e = true) es ->
  forall st,
    App.step (App.applyEffects st es) = App.step st
    /\ App.isLoading (App.applyEffects st es) = App.isLoading st
    /\ App.analysis (App.applyEffects st es) = App.analysis st
    /\ App.dialogs (App.applyEffects st es) = App.dialogs st
    /\ App.survey (App.applyEffects st es) = App.survey st
    /\ App.activeParticipants (App.applyEffects st es)
       = App.activeParticipants st
    /\ App.responses (App.applyEffects st es)
       = App.responses st ++ App.appended es.
Proof.
  induction 1 as [|e es He _ IH]; intros st.
  - simpl. by rewrite app_nil_r.
  - unfold App.applyEffects in *. simpl.
    destruct (IH (App.applyEffect st e)) as (H1 & H2 & H3 & H4 & H5 & H6 & H7).
    rewrite H1, H2, H3, H4, H5, H6, H7.
    destruct e; try discriminate; simpl; repeat split; try done.
    by rewrite <- app_assoc.
Qed.

Lemma applyEffects_app st es1 es2 :
  App.applyEffects st (es1 ++ es2)
  = App.applyEffects (App.applyEffects st es1) es2.
Proof. unfold App.applyEffects. apply fold_left_app. Qed.

Lemma collected_eq st :
  App.collected JSON api st
  = imap (fun k p => responseOf JSON p (App.survey st) (api k))
         (App.activeParticipants st).
Proof. unfold App.collected. by rewrite simulationLoop_collected. Qed.

Lemma collected_length st :
  length (App.collected JSON api st) = length (App.activeParticipants st).
Proof. rewrite collected_eq. apply length_imap. Qed.

Lemma loopEffects_facts st :
  Forall (fun e => App.loopEffect e = true) (App.loopEffects JSON api st)
  /\ App.appended (App.loopEffects JSON api st) = App.collected JSON api st
  /\ App.progressUpdates (App.loopEffects JSON api st)
     = map (fun k =>
              App.progressAfter k (length (App.activeParticipants st)))
           (seq 0 (length (App.activeParticipants st)))
  /\ App.alerts (App.loopEffects JSON api st) = [].
Proof.
  rewrite collected_eq. unfold App.loopEffects.
  apply (simulationLoop_effects (App.survey st)
           (length (App.activeParticipants st))
           (App.activeParticipants st) 0 []).
Qed.

End LoopFacts.

(** ** Rounding of doubles *)

Section DoubleFacts.

Import Double.

Local Open Scope Q_scope.

Lemma pow2_pos (e : Z) : 0 < pow2 e.
Proof. apply Qpower_0_lt. reflexivity. Qed.

Lemma pow2_plus (a b : Z) : pow2 (a + b) == pow2 a * pow2 b.
Proof. apply Qpower_plus. discriminate. Qed.

Lemma pow2_Z (n : Z) : (0 <= n)%Z -> pow2 n == inject_Z (2 ^ n).
Proof. intros Hn. unfold pow2. by rewrite (Zpower_Qpower 2 n Hn). Qed.

Lemma pow2_lt (a b : Z) : (a < b)%Z -> pow2 a < pow2 b.
Proof. intros H. apply Qpower_lt_compat_l; [exact H | reflexivity]. Qed.

Lemma pow2_le (a b : Z) : (a <= b)%Z -> pow2 a <= pow2 b.
Proof. intros H. apply Qpower_le_compat_l; [exact H | discriminate]. Qed.

Lemma pow2_lt_inv (a b : Z) : pow2 a < pow2 b -> (a < b)%Z.
Proof. intros H. eapply Qpower_lt_compat_l_inv; [exact H | reflexivity]. Qed.

Lemma exponent_spec (q : Q) :
  0 < q -> pow2 (exponent q) <= q /\ q < pow2 (exponent q + 1).
Proof.
  intros Hq. unfold exponent.
  destruct q as [n d]. cbn [Qnum Qden].
  assert (Hn : (0 < n)%Z) by (unfold Qlt in Hq; simpl in Hq; lia).
  set (a := Z.log2 n). set (b := Z.log2 (Z.pos d)).
  destruct (Z.log2_spec n Hn) as [Ha1 Ha2]. fold a in Ha1, Ha2.
  destruct (Z.log2_spec (Z.pos d) ltac:(lia)) as [Hb1 Hb2].
  fold b in Hb1, Hb2.
  assert (Ha0 : (0 <= a)%Z) by apply Z.log2_nonneg.
  assert (Hb0 : (0 <= b)%Z) by apply Z.log2_nonneg.
  assert (Hlow : pow2 (a - b - 1) <= n # d).
  { replace (a - b - 1)%Z with (a + - (b + 1))%Z by lia.
    rewrite pow2_plus. unfold pow2 at 2. rewrite Qpower_opp.
    fold (pow2 (b + 1)). rewrite !pow2_Z by lia.
    apply Qle_shift_div_r.
    - rewrite <- (Zlt_Qlt 0). lia.
    - unfold Qle. simpl. nia. }
  assert (Hup : n # d < pow2 (a - b + 1)).
  { replace (a - b + 1)%Z with ((a + 1) + - b)%Z by lia.
    rewrite pow2_plus. unfold pow2 at 2. rewrite Qpower_opp.
    fold (pow2 b). rewrite !pow2_Z by lia.
    apply Qlt_shift_div_l.
    - rewrite <- (Zlt_Qlt 0). lia.
    - unfold Qlt. simpl. nia. }
  destruct (Qle_bool (pow2 (a - b)) (n # d)) eqn:Hc.
  - apply Qle_bool_iff in Hc. split; [exact Hc | exact Hup].
  - split; [exact Hlow|].
    replace (a - b - 1 + 1)%Z with (a - b)%Z by lia.
    apply Qnot_le_lt. intros H. apply Qle_bool_iff in H. congruence.
Qed.

Lemma nearestEven_error (q : Q) :
  q - (1 # 2) <= inject_Z (nearestEven q)
  /\ inject_Z (nearestEven q) <= q + (1 # 2).
Proof.
  unfold nearestEven.
  pose proof (Qfloor_le q) as Hlo.
  pose proof (Qlt_floor q) as Hhi.
  rewrite inject_Z_plus in Hhi. change (inject_Z 1) with 1 in Hhi.
  destruct (q - inject_Z (Qfloor q) ?= 1 # 2) eqn:Hc.
  - apply Qeq_alt in Hc.
    destruct (Z.even (Qfloor q)); rewrite ?inject_Z_plus;
      change (inject_Z 1) with 1; split; lra.
  - apply Qlt_alt in Hc. split; lra.
  - apply Qgt_alt in Hc. rewrite inject_Z_plus.
    change (inject_Z 1) with 1. split; lra.
Qed.

Lemma nearestEven_integer (q : Q) (z : Z) :
  q == inject_Z z -> nearestEven q = z.
Proof.
  intros Hq. unfold nearestEven.
  assert (Hf : Qfloor q = z) by (rewrite Hq; apply Qfloor_Z).
  rewrite Hf.
  assert (Hc : (q - inject_Z z ?= 1 # 2) = Lt).
  { apply (proj1 (Qlt_alt _ _)). lra. }
  by rewrite Hc.
Qed.

(** The rounding error of a value in the normal range is at most half a
    unit in the last place, which is at most [2^-53] times the value. *)
Lemma roundPositive_error (q : Q) :
  pow2 (-1022) <= q ->
  q * (1 - pow2 (-53)) <= roundPositive q
  /\ roundPositive q <= q * (1 + pow2 (-53)).
Proof.
  intros Hnormal.
  assert (Hq : 0 < q).
  { eapply Qlt_le_trans; [apply (pow2_pos (-1022)) | exact Hnormal]. }
  destruct (exponent_spec q Hq) as [Hlo Hhi].
  assert (HE : (-1022 <= exponent q)%Z).
  { assert (pow2 (-1022) < pow2 (exponent q + 1)) as H
      by (eapply Qle_lt_trans; [exact Hnormal | exact Hhi]).
    apply pow2_lt_inv in H. lia. }
  unfold roundPositive, ulpExponent.
  rewrite Z.max_l by lia. rewrite Qred_correct.
  set (e := (exponent q - 52)%Z).
  pose proof (pow2_pos e) as Hs.
  destruct (nearestEven_error (q / pow2 e)) as [H1 H2].
  set (m := inject_Z (nearestEven (q / pow2 e))) in *.
  assert (Hhalf : pow2 e * (1 # 2) <= q * pow2 (-53)).
  { assert (pow2 e * (1 # 2) == pow2 (exponent q) * pow2 (-53)) as ->.
    { unfold e. replace (exponent q - 52)%Z with (exponent q + -52)%Z by lia.
      rewrite pow2_plus.
      assert (pow2 (-52) * (1 # 2) == pow2 (-53)) as <- by reflexivity.
      ring. }
    apply Qmult_le_compat_r; [exact Hlo|].
    apply Qlt_le_weak, pow2_pos. }
  assert (Hq' : q == q / pow2 e * pow2 e).
  { field. intros H0. rewrite H0 in Hs. by apply Qlt_irrefl in Hs. }
  assert (Hm1 : (q / pow2 e - (1 # 2)) * pow2 e <= m * pow2 e).
  { apply Qmult_le_compat_r; [exact H1 | by apply Qlt_le_weak]. }
  assert (Hm2 : m * pow2 e <= (q / pow2 e + (1 # 2)) * pow2 e).
  { apply Qmult_le_compat_r; [exact H2 | by apply Qlt_le_weak]. }
  set (s := pow2 e) in *. set (t := q / s) in *.
  split.
  - apply Qle_trans with ((t - (1 # 2)) * s); [|exact Hm1].
    rewrite Hq' at 1.
    assert ((t - (1 # 2)) * s == t * s - s * (1 # 2)) as -> by ring.
    assert (t * s * (1 - pow2 (-53)) == t * s - t * s * pow2 (-53)) as ->
      by ring.
    rewrite <- Hq'. lra.
  - apply Qle_trans with ((t + (1 # 2)) * s); [exact Hm2|].
    rewrite Hq' at 1.
    assert ((t + (1 # 2)) * s == t * s + s * (1 # 2)) as -> by ring.
    assert (t * s * (1 + pow2 (-53)) == t * s + t * s * pow2 (-53)) as ->
      by ring.
    rewrite <- Hq'. lra.
Qed.

Lemma round_error (q : Q) :
  pow2 (-1022) <= q ->
  q * (1 - pow2 (-53)) <= round q /\ round q <= q * (1 + pow2 (-53)).
Proof.
  intros Hnormal.
  assert (Hq : 0 < q).
  { eapply Qlt_le_trans; [apply (pow2_pos (-1022)) | exact Hnormal]. }
  unfold round. rewrite (proj1 (Qgt_alt _ _) Hq).
  by apply roundPositive_error.
Qed.

(** Integers below [2^53] are doubles: rounding leaves them as they are. *)
Lemma round_integer (q : Q) (z : Z) :
  q == inject_Z z -> (0 <= z < 2 ^ 53)%Z -> round q == inject_Z z.
Proof.
  intros Hq Hz. unfold round.
  destruct (Z.eq_dec z 0%Z) as [->|Hz0].
  { change (inject_Z 0) with 0 in Hq. by rewrite (proj1 (Qeq_alt _ _) Hq). }
  assert (Hpos : 0 < q) by (rewrite Hq, <- (Zlt_Qlt 0); lia).
  rewrite (proj1 (Qgt_alt _ _) Hpos).
  destruct (exponent_spec q Hpos) as [Hlo Hhi].
  assert (HE : (0 <= exponent q <= 52)%Z).
  { split.
    - assert (pow2 0 < pow2 (exponent q + 1)) as H.
      { eapply Qle_lt_trans; [|exact Hhi].
        rewrite Hq. change (pow2 0) with (inject_Z 1).
        rewrite <- Zle_Qle. lia. }
      apply pow2_lt_inv in H. lia.
    - assert (pow2 (exponent q) < pow2 53) as H.
      { eapply Qle_lt_trans; [exact Hlo|].
        rewrite Hq, (pow2_Z 53) by lia. rewrite <- Zlt_Qlt. lia. }
      apply pow2_lt_inv in H. lia. }
  unfold roundPositive, ulpExponent.
  rewrite Z.max_l by lia. rewrite Qred_correct.
  set (k := (52 - exponent q)%Z).
  replace (exponent q - 52)%Z with (- k)%Z by (unfold k; lia).
  assert (Hk : (0 <= k)%Z) by (unfold k; lia).
  assert (Hs : pow2 (- k) == / inject_Z (2 ^ k)).
  { unfold pow2. rewrite Qpower_opp. fold (pow2 k). by rewrite pow2_Z. }
  assert (Hk0 : ~ inject_Z (2 ^ k) == 0).
  { intros H. assert (0 < inject_Z (2 ^ k)) as H'
      by (rewrite <- (Zlt_Qlt 0); lia).
    rewrite H in H'. by apply Qlt_irrefl in H'. }
  assert (Hscaled : q / pow2 (- k) == inject_Z (z * 2 ^ k)).
  { rewrite Hs, Hq, inject_Z_mult. by field. }
  rewrite (nearestEven_integer _ _ Hscaled), Hs, inject_Z_mult.
  by field.
Qed.

End DoubleFacts.

(** ** Progress *)

Section ProgressFacts.

Import Double.
Local Open Scope Q_scope.

Lemma pow2_53_small : pow2 (-53) == 1 # 9007199254740992.
Proof. reflexivity. Qed.

(** The operands of the division are exact. *)
Lemma progress_operands (i total : nat) :
  (i < total)%nat -> (Z.of_nat total < 2 ^ 32)%Z ->
  Double.add (Double.ofZ (Z.of_nat i)) 1 == inject_Z (Z.of_nat i + 1)
  /\ Double.ofZ (Z.of_nat total) == inject_Z (Z.of_nat total).
Proof.
  intros Hi Ht.
  assert (H53 : (2 ^ 32 < 2 ^ 53)%Z) by (vm_compute; reflexivity).
  unfold Double.add, Double.ofZ. split.
  - apply round_integer; [|lia].
    rewrite (round_integer (inject_Z (Z.of_nat i)) (Z.of_nat i));
      [| reflexivity | lia].
    rewrite inject_Z_plus. reflexivity.
  - apply round_integer; [reflexivity | lia].
Qed.

Lemma progressAfter_bounds (i total : nat) :
  (i < total)%nat -> (Z.of_nat total < 2 ^ 32)%Z ->
  let exact := inject_Z (Z.of_nat i + 1) / inject_Z (Z.of_nat total) * 100 in
  exact * ((1 - pow2 (-53)) * (1 - pow2 (-53))) <= App.progressAfter i total
  /\ App.progressAfter i total <= exact * ((1 + pow2 (-53)) * (1 + pow2 (-53))).
Proof.
  intros Hi Ht exact.
  destruct (progress_operands i total Hi Ht) as [Hnum Hden].
  unfold App.progressAfter, Double.mul, Double.div.
  set (num := Double.add (Double.ofZ (Z.of_nat i)) 1) in *.
  set (den := Double.ofZ (Z.of_nat total)) in *.
  set (A := (Z.of_nat i + 1)%Z) in *. set (N := Z.of_nat total) in *.
  assert (HA : (0 < A <= N)%Z) by (unfold A, N; lia).
  assert (HN : 0 < inject_Z N) by (rewrite <- (Zlt_Qlt 0); lia).
  assert (Hq1 : num / den == inject_Z A / inject_Z N)
    by (by rewrite Hnum, Hden).
  assert (Hu := pow2_53_small).
  assert (H32 : pow2 (-32) == 1 # 4294967296) by reflexivity.
  assert (Hlow : pow2 (-1022) <= pow2 (-32)) by (apply pow2_le; lia).
  (* the quotient *)
  assert (Hq1low : pow2 (-32) <= num / den).
  { rewrite Hq1, H32. apply Qle_shift_div_l; [exact HN|].
    assert (inject_Z N <= 4294967296) as H
      by (change 4294967296 with (inject_Z (2 ^ 32));
          rewrite <- Zle_Qle; lia).
    assert (1 <= inject_Z A) as H'
      by (change 1 with (inject_Z 1); rewrite <- Zle_Qle; lia).
    lra. }
  destruct (round_error (num / den)) as [Hx1 Hx2]; [lra|].
  set (x := round (num / den)) in *.
  (* the product *)
  assert (Hq2low : pow2 (-1022) <= x * 100) by (rewrite Hu in Hx1; lra).
  destruct (round_error (x * 100) Hq2low) as [Hp1 Hp2].
  set (p := round (x * 100)) in *.
  assert (Hexact : exact == num / den * 100) by (unfold exact; by rewrite Hq1).
  rewrite Hexact. rewrite Hu in *.
  set (q1 := num / den) in *.
  split; nra.
Qed.

Lemma progressAfter_lt (i j total : nat) :
  (i < j)%nat -> (j < total)%nat -> (Z.of_nat total < 2 ^ 32)%Z ->
  App.progressAfter i total < App.progressAfter j total.
Proof.
  intros Hij Hj Ht.
  destruct (progressAfter_bounds i total ltac:(lia) Ht) as [_ Hi2].
  destruct (progressAfter_bounds j total Hj Ht) as [Hj1 _].
  eapply Qle_lt_trans; [exact Hi2|].
  eapply Qlt_le_trans; [|exact Hj1].
  rewrite pow2_53_small.
  set (A := (Z.of_nat i + 1)%Z). set (B := (Z.of_nat j + 1)%Z).
  set (N := Z.of_nat total).
  assert (HN : 0 < inject_Z N) by (rewrite <- (Zlt_Qlt 0); unfold N; lia).
  assert (HA : 1 <= inject_Z A)
    by (change 1 with (inject_Z 1); rewrite <- Zle_Qle; unfold A; lia).
  assert (HB : inject_Z A + 1 <= inject_Z B).
  { change 1 with (inject_Z 1). rewrite <- inject_Z_plus, <- Zle_Qle.
    unfold A, B. lia. }
  assert (HA32 : inject_Z A <= 4294967296).
  { change 4294967296 with (inject_Z (2 ^ 32)). rewrite <- Zle_Qle.
    unfold A. lia. }
  assert (Hmain :
    inject_Z A * ((1 + (1 # 9007199254740992)) * (1 + (1 # 9007199254740992)))
    < inject_Z B
      * ((1 - (1 # 9007199254740992)) * (1 - (1 # 9007199254740992))))
    by lra.
  assert (Hinv : 0 < / inject_Z N) by (by apply Qinv_lt_0_compat).
  unfold Qdiv.
  set (c1 := (1 + (1 # 9007199254740992)) * (1 + (1 # 9007199254740992)))
    in *.
  set (c2 := (1 - (1 # 9007199254740992)) * (1 - (1 # 9007199254740992)))
    in *.
  assert (inject_Z A * / inject_Z N * 100 * c1
          == inject_Z A * c1 * (/ inject_Z N * 100)) as -> by ring.
  assert (inject_Z B * / inject_Z N * 100 * c2
          == inject_Z B * c2 * (/ inject_Z N * 100)) as -> by ring.
  apply Qmult_lt_compat_r; [lra | exact Hmain].
Qed.

Lemma progressAfter_last (total : nat) :
  (0 < total)%nat -> (Z.of_nat total < 2 ^ 32)%Z ->
  App.progressAfter (pred total) total == 100.
Proof.
  intros Hpos Ht.
  destruct (progress_operands (pred total) total ltac:(lia) Ht)
    as [Hnum Hden].
  unfold App.progressAfter, Double.mul, Double.div.
  set (num := Double.add (Double.ofZ (Z.of_nat (pred total))) 1) in *.
  set (den := Double.ofZ (Z.of_nat total)) in *.
  assert (Hone : round (num / den) == inject_Z 1).
  { apply round_integer; [|by vm_compute].
    rewrite Hnum, Hden.
    replace (Z.of_nat (pred total) + 1)%Z with (Z.of_nat total) by lia.
    field. intros H.
    assert (0 < inject_Z (Z.of_nat total)) as H'
      by (rewrite <- (Zlt_Qlt 0); lia).
    rewrite H in H'. by apply Qlt_irrefl in H'. }
  apply (round_integer _ 100); [|by vm_compute].
  rewrite Hone. reflexivity.
Qed.

End ProgressFacts.

(** The updates for a panel of three are the doubles 33.33333333333333
    and 66.66666666666666 and 100, not the thirds of 100. *)
Example progress_of_three :
  map (fun i => App.progressAfter i 3) [0; 1; 2]%nat
  = [2345624805922133 # 70368744177664;
     2345624805922133 # 35184372088832; 100]%Q.
Proof. reflexivity. Qed.

(** On every panel of up to 40 personas the model of doubles gives, for
    every update, the value that the IEEE 754 operations of the Standard
    Library give. *)
Example progress_agrees_with_SpecFloat :
  forallb
    (fun total =>
       forallb
         (fun i =>
            match App.progressAfterSpec i total with
            | Some q => Qeq_bool q (App.progressAfter i total)
            | None => false
            end)
         (seq 0 total))
    (seq 1 40)
  = true.
Proof. vm_compute. reflexivity. Qed.

(** C2. For a panel of [N >= 1] personas, the loop of [runSimulation]
    calls [setSimulationProgress] exactly [N] times, whatever the calls of
    the capability do: the [i]-th update (from 0) is the double that
    ((i+1)/N)*100 evaluates to, the updates increase strictly in spite of
    the rounding, and the last one is exactly 100. The panel is an array,
    so it has fewer than 2^32 elements. In the whole
    handler these updates follow the one reset to 0 made before the loop.
    Each update comes right after its persona has been attempted: the
    trace of the loop is, persona by persona, what the service call
    logged, the append of the response, and the update. *)
Theorem progress_sequence JSON api (st : App.State)
    (HN : (1 <= length (App.activeParticipants st))%nat)
    (Harray : (Z.of_nat (length (App.activeParticipants st)) < 2 ^ 32)%Z) :
  let N := length (App.activeParticipants st) in
  let ps := App.progressUpdates (App.loopEffects JSON api st) in
  length ps = N
  /\ (forall i, (i < N)%nat -> ps !! i = Some (App.progressAfter i N))
  /\ (forall i j p q, (i < j)%nat -> ps !! i = Some p -> ps !! j = Some q ->
        (p < q)%Q)
  /\ (exists p, last ps = Some p /\ (p == 100)%Q)
  /\ App.progressUpdates (App.runSimulationEffects JSON api st)
     = 0%Q :: ps
  /\ App.loopEffects JSON api st
     = concat
         (imap (fun i p =>
                  snd (simulateSurveyResponse JSON p (App.survey st) (api i))
                  ++ [AppendResponse
                        (responseOf JSON p (App.survey st) (api i));
                      SetSimulationProgress (App.progressAfter i N)])
               (App.activeParticipants st)).
Proof.
  intros N ps.
  destruct (loopEffects_facts JSON api st) as (_ & _ & Hps & _).
  fold N in Hps. fold ps in Hps.
  assert (Hlookup : forall i, (i < N)%nat ->
            ps !! i = Some (App.progressAfter i N)).
  { intros i Hi. rewrite Hps.
    change (map ?f ?l) with (f <$> l).
    rewrite list_lookup_fmap, lookup_seq_lt by exact Hi. reflexivity. }
  assert (Hlen : length ps = N).
  { rewrite Hps. by rewrite length_map, length_seq. }
  repeat split.
  - exact Hlen.
  - exact Hlookup.
  - intros i j p q Hij Hi Hj.
    assert (j < N)%nat as HjN
      by (rewrite <- Hlen; eapply lookup_lt_Some; exact Hj).
    rewrite Hlookup in Hi by lia. rewrite Hlookup in Hj by lia.
    inversion Hi; inversion Hj; subst.
    apply progressAfter_lt; [exact Hij | exact HjN | exact Harray].
  - exists (App.progressAfter (pred N) N). split.
    + rewrite last_lookup, Hlen. apply Hlookup. lia.
    + apply progressAfter_last; [unfold N; lia | exact Harray].
  - unfold App.runSimulationEffects.
    destruct (Nat.eqb_spec (length (App.activeParticipants st)) 0)
      as [H0|_]; [lia|].
    simpl. rewrite progressUpdates_app. fold ps.
    replace (App.progressUpdates (App.analysisEffects JSON api st))
      with (@nil Q); [by rewrite app_nil_r|].
    unfold App.analysisEffects.
    destruct (0 <? length (App.collected JSON api st))%nat; [|reflexivity].
    by destruct (analyzeResults JSON (App.survey st)
                   (App.collected JSON api st) (App.activeParticipants st)
                   (api (length (App.activeParticipants st)))).
  - unfold App.loopEffects. apply simulationLoop_trace.
Qed.

Lemma progress_sequence_witness :
  App.progressUpdates
    (App.runSimulationEffects Fixtures.demoJson Fixtures.apiFirstOnly
       (Fixtures.initialState [Fixtures.personaA; Fixtures.personaB]
          Fixtures.ratingSurvey))
  = 0%Q
    :: App.progressUpdates
         (App.loopEffects Fixtures.demoJson Fixtures.apiFirstOnly
            (Fixtures.initialState [Fixtures.personaA; Fixtures.personaB]
               Fixtures.ratingSurvey)).
Proof.
  refine (proj1 (proj2 (proj2 (proj2 (proj2
    (progress_sequence Fixtures.demoJson Fixtures.apiFirstOnly
       (Fixtures.initialState [Fixtures.personaA; Fixtures.personaB]
          Fixtures.ratingSurvey) _ _)))))).
  - simpl. lia.
  - reflexivity.
Defined.

(** ** Failures of single personas *)

Lemma responseOf_failed JSON api persona survey k :
  App.callFailed JSON api k = true ->
  responseOf JSON persona survey (api k)
  = {| personaId := p_id persona; answers := [] |}.
Proof.
  unfold App.callFailed, responseOf, simulateTry.
  destruct (api k) as [e|text]; [reflexivity|].
  destruct (JS.falsy text); [reflexivity|]. simpl.
  by destruct (parseSimulation JSON (default "" text)) as [[|l]|].
Qed.

Lemma responseOf_personaId JSON persona survey response :
  personaId (responseOf JSON persona survey response) = p_id persona.
Proof.
  unfold responseOf, simulateTry.
  destruct response as [e|text]; [reflexivity|].
  destruct (JS.falsy text); [reflexivity|].
  by destruct (parseSimulation JSON (default "" text)) as [[|l]|].
Qed.

Lemma simulateSurveyResponse_logs_failure JSON api persona survey k :
  App.callFailed JSON api k = true ->
  exists e,
    snd (simulateSurveyResponse JSON persona survey (api k))
    = [ConsoleError ("Simulation failed for persona " ++ p_name persona)
                    (Some e)].
Proof.
  unfold App.callFailed, simulateSurveyResponse, simulateTry.
  destruct (api k) as [e|text]; [by eexists|].
  destruct (JS.falsy text); [by eexists|]. simpl.
  by destruct (parseSimulation JSON (default "" text)) as [[|l]|];
    try discriminate; eexists.
Qed.

(** C1, as the code has it. [runSimulation] appends one response for
    every persona, in panel order, whatever the calls of the capability
    do: the response that [simulateSurveyResponse] resolved with, which
    for a successful call carries the persona's coerced answers. If every
    persona's call fails, the collected sequence therefore has [N]
    responses, each with its persona's id and no answers, and no persona
    is skipped (failure count 0); each failure is logged by
    [simulateSurveyResponse]. The loop always runs to its end. *)
Theorem failed_personas_keep_a_response JSON api (st : App.State)
    (Hfail : forall k, (k < length (App.activeParticipants st))%nat ->
               App.callFailed JSON api k = true) :
  App.collected JSON api st
  = map (fun p => {| personaId := p_id p; answers := [] |})
        (App.activeParticipants st)
  /\ App.failureCount JSON api st = 0%nat
  /\ (forall k p, App.activeParticipants st !! k = Some p ->
       exists e,
         snd (simulateSurveyResponse JSON p (App.survey st) (api k))
         = [ConsoleError ("Simulation failed for persona " ++ p_name p)
                         (Some e)])
  /\ forall api',
       length (App.collected JSON api' st)
       = length (App.activeParticipants st)
       /\ forall i p, App.activeParticipants st !! i = Some p ->
            App.collected JSON api' st !! i
            = Some (responseOf JSON p (App.survey st) (api' i)).
Proof.
  split; [|split; [|split; [|split]]].
  - rewrite collected_eq.
    apply list_eq. intros i.
    change (map ?f ?l) with (f <$> l).
    rewrite list_lookup_imap, list_lookup_fmap.
    destruct (App.activeParticipants st !! i) as [p|] eqn:Hp; [|reflexivity].
    simpl. f_equal. apply responseOf_failed, Hfail.
    eapply lookup_lt_Some. exact Hp.
  - unfold App.failureCount. rewrite collected_length. lia.
  - intros k p Hp. apply simulateSurveyResponse_logs_failure, Hfail.
    eapply lookup_lt_Some. exact Hp.
  - apply collected_length.
  - intros i p Hp. rewrite collected_eq, list_lookup_imap, Hp. reflexivity.
Qed.

Lemma failed_personas_keep_a_response_witness :
  App.collected Fixtures.demoJson Fixtures.apiDown
    (Fixtures.initialState [Fixtures.personaA; Fixtures.personaB]
       Fixtures.ratingSurvey)
  = [{| personaId := "pa"; answers := [] |};
     {| personaId := "pb"; answers := [] |}].
Proof.
  exact (proj1 (failed_personas_keep_a_response Fixtures.demoJson
                  Fixtures.apiDown
                  (Fixtures.initialState
                     [Fixtures.personaA; Fixtures.personaB]
                     Fixtures.ratingSurvey)
                  (fun k _ => eq_refl))).
Defined.

(** C1 as stated fails: with two personas and a capability whose every
    call throws, the collected sequence is not empty and the failure
    count is not 2. *)
Lemma all_calls_fail_responses_not_empty :
  App.callFailed Fixtures.demoJson Fixtures.apiDown 0 = true
  /\ App.callFailed Fixtures.demoJson Fixtures.apiDown 1 = true
  /\ ~ (App.collected Fixtures.demoJson Fixtures.apiDown
          (Fixtures.initialState [Fixtures.personaA; Fixtures.personaB]
             Fixtures.ratingSurvey) = []
        /\ App.failureCount Fixtures.demoJson Fixtures.apiDown
             (Fixtures.initialState [Fixtures.personaA; Fixtures.personaB]
                Fixtures.ratingSurvey) = 2%nat).
Proof.
  split; [reflexivity|]. split; [reflexivity|].
  intros [H _]. vm_compute in H. discriminate.
Qed.

(** ** Failure of the analysis *)

Lemma runSimulation_after_loop JSON api (st : App.State) :
  App.activeParticipants st <> [] ->
  exists mid,
    App.runSimulation JSON api st
    = App.applyEffects mid (App.analysisEffects JSON api st)
    /\ App.step mid = SIMULATION
    /\ App.isLoading mid = App.isLoading st
    /\ App.analysis mid = App.analysis st
    /\ App.dialogs mid = App.dialogs st
    /\ App.responses mid = App.collected JSON api st.
Proof.
  intros Hne.
  unfold App.runSimulation, App.runSimulationEffects.
  destruct (Nat.eqb_spec (length (App.activeParticipants st)) 0) as [H0|_].
  { destruct (App.activeParticipants st); [done | discriminate]. }
  rewrite applyEffects_app, applyEffects_app.
  destruct (loopEffects_facts JSON api st) as (Hshape & Happ & _ & _).
  eexists; split; [reflexivity|].
  destruct (applyEffects_loop _ Hshape
              (App.applyEffects st
                 [SetStep SIMULATION; ResetResponses;
                  SetSimulationProgress 0]))
    as (H1 & H2 & H3 & H4 & _ & _ & H7).
  rewrite H1, H2, H3, H4, H7, Happ. repeat split.
Qed.

(** C8, as the code has it. When the call of [analyzeResults] fails at
    the end of a run, the step stays SIMULATION, the analysis shown is
    not replaced, the operator gets one dialog saying that the analysis
    failed, the loading flag is cleared, and the responses are exactly
    the ones the loop collected. Failures of single personas are
    different, in every run, whether its analysis fails or not: the only
    dialog a run can open is the one about the analysis, the loop opens
    none, and the run ends with one response per persona, in panel
    order; the response of a persona whose call failed carries the
    persona's id and no answers, and the failure is written to the
    console by [simulateSurveyResponse]. *)
Theorem analysis_failure_halts JSON api (st : App.State)
    (Hpanel : App.activeParticipants st <> []) :
  let st' := App.runSimulation JSON api st in
  let outcome :=
    analyzeResults JSON (App.survey st) (App.collected JSON api st)
      (App.activeParticipants st)
      (api (length (App.activeParticipants st))) in
  (isRejected outcome = true ->
   App.step st' = SIMULATION
   /\ App.analysis st' = App.analysis st
   /\ App.dialogs st'
      = App.dialogs st ++ ["Simulation finished, but analysis failed."]
   /\ App.isLoading st' = false
   /\ App.responses st' = App.collected JSON api st)
  /\ App.dialogs st'
     = App.dialogs st
       ++ (if isRejected outcome
           then ["Simulation finished, but analysis failed."] else [])
  /\ App.alerts (App.loopEffects JSON api st) = []
  /\ length (App.responses st') = length (App.activeParticipants st)
  /\ forall k p,
       App.activeParticipants st !! k = Some p ->
       exists r,
         App.responses st' !! k = Some r
         /\ personaId r = p_id p
         /\ (App.callFailed JSON api k = true ->
             answers r = []
             /\ exists e,
                  snd (simulateSurveyResponse JSON p (App.survey st) (api k))
                  = [ConsoleError
                       ("Simulation failed for persona " ++ p_name p)
                       (Some e)]).
Proof.
  intros st' outcome. subst st'.
  destruct (runSimulation_after_loop JSON api st Hpanel)
    as (mid & Hrun & Hstep & _ & Han & Hdlg & Hresp).
  pose proof (collected_length JSON api st) as Hlen.
  destruct (loopEffects_facts JSON api st) as (_ & _ & _ & Halerts).
  assert (Hend :
    App.responses (App.runSimulation JSON api st)
    = App.collected JSON api st
    /\ App.dialogs (App.runSimulation JSON api st)
       = App.dialogs st
         ++ (if isRejected outcome
             then ["Simulation finished, but analysis failed."] else [])
    /\ (isRejected outcome = true ->
        App.step (App.runSimulation JSON api st) = SIMULATION
        /\ App.analysis (App.runSimulation JSON api st) = App.analysis st
        /\ App.isLoading (App.runSimulation JSON api st) = false)).
  { rewrite Hrun. unfold App.analysisEffects.
    destruct (Nat.ltb_spec 0 (length (App.collected JSON api st)))
      as [_|H0].
    2:{ destruct (App.activeParticipants st); [done | simpl in *; lia]. }
    fold outcome. destruct outcome as [result|e]; simpl.
    - rewrite Hresp, Hdlg, app_nil_r.
      split; [reflexivity|]. split; [reflexivity | discriminate].
    - rewrite Hresp, Hdlg, Hstep, Han. repeat split. }
  destruct Hend as (Hresponses & Hdialogs & Hhalt).
  split; [|split; [|split; [|split]]].
  - intros Hfail. destruct (Hhalt Hfail) as (H1 & H2 & H3).
    rewrite Hdialogs, Hfail. repeat split; assumption.
  - exact Hdialogs.
  - exact Halerts.
  - by rewrite Hresponses.
  - intros k p Hp. rewrite Hresponses, collected_eq, list_lookup_imap, Hp.
    eexists. split; [reflexivity|].
    split; [apply responseOf_personaId|].
    intros Hk. split.
    + by rewrite (responseOf_failed JSON api p (App.survey st) k Hk).
    + by apply simulateSurveyResponse_logs_failure.
Qed.

Lemma analysis_failure_halts_witness :
  App.step
    (App.runSimulation Fixtures.demoJson (Fixtures.apiNoAnalysis 2)
       (Fixtures.initialState [Fixtures.personaA; Fixtures.personaB]
          Fixtures.ratingSurvey))
  = SIMULATION
  /\ App.dialogs
       (App.runSimulation Fixtures.demoJson (Fixtures.apiNoAnalysis 2)
          (Fixtures.initialState [Fixtures.personaA; Fixtures.personaB]
             Fixtures.ratingSurvey))
     = ["Simulation finished, but analysis failed."].
Proof.
  destruct (proj1 (analysis_failure_halts Fixtures.demoJson
                     (Fixtures.apiNoAnalysis 2)
                     (Fixtures.initialState
                        [Fixtures.personaA; Fixtures.personaB]
                        Fixtures.ratingSurvey)
                     ltac:(discriminate)) eq_refl) as (H1 & _ & H3 & _).
  split; [exact H1 | exact H3].
Defined.

(** C8 as stated fails in its last part: in a panel of two where the
    second persona's call throws, no dialog comes from that failure, but
    the run still ends with two responses, not fewer than personas. *)
Lemma failed_persona_does_not_reduce_count :
  App.callFailed Fixtures.demoJson Fixtures.apiFirstOnly 1 = true
  /\ App.responses
       (App.runSimulation Fixtures.demoJson Fixtures.apiFirstOnly
          (Fixtures.initialState [Fixtures.personaA; Fixtures.personaB]
             Fixtures.ratingSurvey))
     = [{| personaId := "pa";
           answers := [{| questionId := "q1"; answer := AnswerNumber 5 |}] |};
        {| personaId := "pb"; answers := [] |}]
  /\ ~ (length
          (App.responses
             (App.runSimulation Fixtures.demoJson Fixtures.apiFirstOnly
                (Fixtures.initialState [Fixtures.personaA; Fixtures.personaB]
                   Fixtures.ratingSurvey)))
        < length [Fixtures.personaA; Fixtures.personaB])%nat.
Proof.
  split; [reflexivity|]. split; [reflexivity|].
  vm_compute. lia.
Qed.

(** A whole run: one rating question, two personas, the first rates 5
    and the call for the second fails. The run ends on the results step
    with the report, progress 100 and two responses, the second one
    without answers; the table of the question counts one 5. *)
Example run_with_one_failed_persona :
  let st' := App.runSimulation Fixtures.demoJson Fixtures.apiScenario
               (Fixtures.initialState [Fixtures.personaA; Fixtures.personaB]
                  Fixtures.ratingSurvey) in
  App.step st' = RESULTS
  /\ App.analysis st' = Some Fixtures.report
  /\ App.dialogs st' = []
  /\ (App.simulationProgress st' == 100)%Q
  /\ App.responses st'
     = [{| personaId := "pa";
           answers := [{| questionId := "q1"; answer := AnswerNumber 5 |}] |};
        {| personaId := "pb"; answers := [] |}]
  /\ Tabulation.dataMap Fixtures.ratingQuestion (App.responses st')
     = list_to_map [("1", Tabulation.Num 0); ("2", Tabulation.Num 0);
                    ("3", Tabulation.Num 0); ("4", Tabulation.Num 0);
                    ("5", Tabulation.Num 1)].
Proof. repeat split; by vm_compute. Qed.

(** ** Tabulation *)

Lemma foldl_countResponse_no_answer (q : Question)
    (responses : list SurveyResponse) :
  Forall (fun r => find (fun a => String.eqb (questionId a) (q_id q))
                        (answers r) = None) responses ->
  forall m, foldl (Tabulation.countResponse q) m responses = m.
Proof.
  induction 1 as [|r rs Hr _ IH]; intros m; simpl; [reflexivity|].
  unfold Tabulation.countResponse at 2. rewrite Hr. apply IH.
Qed.

(** C6. For a question of type RATING_SCALE that no response answers,
    the table has exactly the five buckets 1, 2, 3, 4, 5, each with
    count 0. *)
Theorem rating_table_zero_seeded (q : Question)
    (responses : list SurveyResponse)
    (Htype : q_type q = RATING_SCALE)
    (Hnone : Forall (fun r => find (fun a => String.eqb (questionId a) (q_id q))
                                   (answers r) = None) responses) :
  Tabulation.dataMap q responses
  = list_to_map [("1", Tabulation.Num 0); ("2", Tabulation.Num 0);
                 ("3", Tabulation.Num 0); ("4", Tabulation.Num 0);
                 ("5", Tabulation.Num 0)]
  /\ size (Tabulation.dataMap q responses) = 5%nat
  /\ Forall (fun k => Tabulation.dataMap q responses !! k
                      = Some (Tabulation.Num 0))
            ["1"; "2"; "3"; "4"; "5"].
Proof.
  assert (H : Tabulation.dataMap q responses
              = list_to_map [("1", Tabulation.Num 0); ("2", Tabulation.Num 0);
                             ("3", Tabulation.Num 0); ("4", Tabulation.Num 0);
                             ("5", Tabulation.Num 0)]).
  { unfold Tabulation.dataMap.
    rewrite foldl_countResponse_no_answer by exact Hnone.
    unfold Tabulation.seed. rewrite Htype. by vm_compute. }
  rewrite H. split; [reflexivity|]. split; [by vm_compute|].
  repeat constructor.
Qed.

Lemma rating_table_zero_seeded_witness :
  Tabulation.dataMap Fixtures.ratingQuestion
    [{| personaId := "pa";
        answers := [{| questionId := "q2";
                       answer := AnswerText "Too many tools" |}] |}]
  !! "3" = Some (Tabulation.Num 0).
Proof.
  pose proof (rating_table_zero_seeded Fixtures.ratingQuestion
                [{| personaId := "pa";
                    answers := [{| questionId := "q2";
                                   answer := AnswerText "Too many tools" |}] |}]
                eq_refl ltac:(repeat constructor)) as (_ & _ & H).
  exact (Forall_lookup_1 _ _ 2%nat "3" H eq_refl).
Defined.

(** The part of the tolerance property that the code has: an answer that
    is an ordinary word opens a bucket with count 1 when there was none,
    and counting an answer leaves every other bucket as it was. *)
Lemma countResponse_new_bucket (q : Question) (m : gmap string Tabulation.Count)
    (r : SurveyResponse) (ans : Answer) :
  find (fun a => String.eqb (questionId a) (q_id q)) (answers r) = Some ans ->
  m !! Tabulation.toString (answer ans) = None ->
  Tabulation.inherited (Tabulation.toString (answer ans)) = false ->
  Tabulation.countResponse q m r !! Tabulation.toString (answer ans)
  = Some (Tabulation.Num 1).
Proof.
  intros Hans Hm Hin. unfold Tabulation.countResponse. rewrite Hans. simpl.
  unfold Tabulation.isDefined. rewrite Hm, Hin.
  unfold Tabulation.setProp.
  destruct (String.eqb_spec (Tabulation.toString (answer ans)) "__proto__")
    as [Heq|_].
  - rewrite Heq in Hin. discriminate.
  - apply lookup_insert_eq.
Qed.

Lemma countResponse_other_buckets (q : Question)
    (m : gmap string Tabulation.Count) (r : SurveyResponse) (ans : Answer)
    (k : string) :
  find (fun a => String.eqb (questionId a) (q_id q)) (answers r) = Some ans ->
  k <> Tabulation.toString (answer ans) ->
  Tabulation.countResponse q m r !! k = m !! k.
Proof.
  intros Hans Hk. unfold Tabulation.countResponse. rewrite Hans. simpl.
  destruct (Tabulation.isDefined m (Tabulation.toString (answer ans)));
    unfold Tabulation.increment, Tabulation.setProp;
    destruct (String.eqb (Tabulation.toString (answer ans)) "__proto__");
    try reflexivity; by rewrite lookup_insert_ne.
Qed.

(** C7 at two failing inputs. The question offers Free and Pro. One
    response answers constructor: the table gets a bucket of that name
    whose value is [NaN], not a count. Another response answers
    __proto__: the table has no bucket for it at all. In both cases the
    buckets of the declared options stay at 0. *)
Theorem unrecognized_answer_miscounted :
  Tabulation.dataMap Fixtures.choiceQuestion
    [{| personaId := "pa";
        answers := [{| questionId := "q3";
                       answer := AnswerText "constructor" |}] |}]
  = list_to_map [("Free", Tabulation.Num 0); ("Pro", Tabulation.Num 0);
                 ("constructor", Tabulation.NaN)]
  /\ Tabulation.dataMap Fixtures.choiceQuestion
       [{| personaId := "pa";
           answers := [{| questionId := "q3";
                          answer := AnswerText "__proto__" |}] |}]
     = list_to_map [("Free", Tabulation.Num 0); ("Pro", Tabulation.Num 0)]
  /\ Tabulation.dataMap Fixtures.choiceQuestion
       [{| personaId := "pa";
           answers := [{| questionId := "q3";
                          answer := AnswerText "Team" |}] |}]
     = list_to_map [("Free", Tabulation.Num 0); ("Pro", Tabulation.Num 0);
                    ("Team", Tabulation.Num 1)].
Proof. repeat split; by vm_compute. Qed.

(** ** Templates: copies through JSON *)

Section StoreFacts.
Import Store.

Lemma serialize_depth n h v r : serialize n h v = Some r -> n <> 0%nat.
Proof. by destruct n. Qed.

Lemma serialize_ref n h l :
  serialize (S n) h (VRef l)
  = match h !! l with
    | None => None
    | Some (Arr elems) =>
        match mapM (serialize n h) elems with
        | Some rs => Some (Some (JArray (map (default JNull) rs)))
        | None => None
        end
    | Some (Obj props) =>
        match mapM (fun kv => serialize n h kv.2) props with
        | Some rs => Some (Some (JObject (omap keepDefined (zip props rs))))
        | None => None
        end
    end.
Proof. reflexivity. Qed.

Lemma serialize_ext n : forall h ext v r,
  serialize n h v = Some r -> serialize n (h ++ ext) v = Some r.
Proof.
  induction n as [|n IH]; intros h ext v r H; [discriminate|].
  simpl in *. destruct v as [| | | | |l]; try exact H.
  destruct (h !! l) as [o|] eqn:Hl; [|discriminate].
  rewrite (lookup_app_l_Some _ _ _ _ Hl).
  destruct o as [props|elems].
  - destruct (mapM (fun kv => serialize n h kv.2) props) as [rs|] eqn:Hrs;
      [|discriminate].
    apply mapM_Some in Hrs.
    erewrite (proj2 (mapM_Some _ props rs)); [exact H|].
    eapply Forall2_impl; [exact Hrs|]. intros kv y Hy. by apply IH.
  - destruct (mapM (serialize n h) elems) as [rs|] eqn:Hrs; [|discriminate].
    apply mapM_Some in Hrs.
    erewrite (proj2 (mapM_Some _ elems rs)); [exact H|].
    eapply Forall2_impl; [exact Hrs|]. intros kv y Hy. by apply IH.
Qed.

Lemma rootAbove_mono b b' v : (b <= b')%nat -> rootAbove b' v -> rootAbove b v.
Proof. intros Hb H l Hl. specialize (H l Hl). lia. Qed.

Lemma closedAbove_mono b b' o :
  (b <= b')%nat -> closedAbove b' o -> closedAbove b o.
Proof.
  intros Hb H. unfold closedAbove in *.
  eapply Forall_impl; [exact H|]. intros v. by apply rootAbove_mono.
Qed.

Lemma extends_refl h : extends h h.
Proof. exists []. by rewrite app_nil_r. Qed.

Lemma extends_length h h' : extends h h' -> (length h <= length h')%nat.
Proof. intros (ext & -> & _). rewrite length_app. lia. Qed.

Lemma extends_trans h1 h2 h3 : extends h1 h2 -> extends h2 h3 -> extends h1 h3.
Proof.
  intros (e1 & -> & H1) (e2 & -> & H2). exists (e1 ++ e2).
  split; [by rewrite app_assoc|].
  apply Forall_app; split; [exact H1|].
  eapply Forall_impl; [exact H2|]. intros o. apply closedAbove_mono.
  rewrite length_app. lia.
Qed.

Lemma extends_snoc h h' o :
  extends h h' -> closedAbove (length h) o -> extends h (h' ++ [o]).
Proof.
  intros (e1 & -> & H1) Ho. exists (e1 ++ [o]).
  split; [by rewrite app_assoc|].
  apply Forall_app; split; [exact H1|]. by constructor.
Qed.

Lemma serialize_extends n h h' v r :
  extends h h' -> serialize n h v = Some r -> serialize n h' v = Some r.
Proof. intros (ext & -> & _). apply serialize_ext. Qed.

Lemma allocAll_allocates {A} n (f : A -> heap -> value * heap) tgt l :
  Forall (allocates n f tgt) l ->
  forall h vs h', allocAll f l h = (vs, h') ->
    extends h h' /\ Forall (rootAbove (length h)) vs
    /\ Forall2 (fun v x => serialize n h' v = Some (Some (tgt x))) vs l.
Proof.
  induction 1 as [|x l Hx _ IH]; intros h vs h' Hall; simpl in Hall.
  - inversion Hall; subst. split; [apply extends_refl|]. split; constructor.
  - destruct (f x h) as [v h1] eqn:Hf.
    destruct (allocAll f l h1) as [vs' h2] eqn:Hrest.
    inversion Hall; subst. clear Hall.
    destruct (Hx _ _ _ Hf) as (He1 & Hr1 & Hs1).
    destruct (IH _ _ _ Hrest) as (He2 & Hr2 & Hs2).
    split; [by eapply extends_trans|]. split.
    + constructor; [exact Hr1|].
      eapply Forall_impl; [exact Hr2|]. intros w.
      apply rootAbove_mono. by apply extends_length.
    + constructor; [|exact Hs2]. by eapply serialize_extends.
Qed.

Lemma allocates_null n : n <> 0%nat -> allocates n revive id JNull.
Proof.
  intros Hn h v h' Hrev. simpl in Hrev. inversion Hrev; subst.
  split; [apply extends_refl|]. split; [intros l; discriminate|].
  by destruct n.
Qed.

Lemma reserialize_props n h vs kjs :
  Forall2 (fun v (kj : string * json) =>
             serialize n h v = Some (Some kj.2)) vs kjs ->
  mapM (fun kv : string * value => serialize n h kv.2)
       (zip (map fst kjs) vs)
  = Some (map (fun kj : string * json => Some kj.2) kjs)
  /\ omap keepDefined
       (zip (zip (map fst kjs) vs)
            (map (fun kj : string * json => Some kj.2) kjs))
     = kjs.
Proof.
  induction 1 as [|v [k j] vs kjs Hv _ [IH1 IH2]]; [done|].
  simpl in *. rewrite Hv. simpl. rewrite IH1. simpl.
  split; [reflexivity|].
  f_equal. exact IH2.
Qed.

Lemma kept_props_allocate n h0 props rs :
  (forall v j, serialize n h0 v = Some (Some j) -> allocates n revive id j) ->
  Forall2 (fun (kv : string * value) r => serialize n h0 kv.2 = Some r)
          props rs ->
  Forall (allocates n (fun kj : string * json => revive kj.2) snd)
         (omap keepDefined (zip props rs)).
Proof.
  intros IH. induction 1 as [|[k v] [j|] props rs Hv _ IHl]; simpl.
  - constructor.
  - unfold keepDefined at 1. simpl. constructor; [|exact IHl].
    intros h w h' Hrev. simpl in *. by eapply (IH v j).
  - exact IHl.
Qed.

Lemma elems_allocate n h0 elems rs :
  (forall v j, serialize n h0 v = Some (Some j) -> allocates n revive id j) ->
  Forall2 (fun v r => serialize n h0 v = Some r) elems rs ->
  Forall (allocates n revive id) (map (default JNull) rs).
Proof.
  intros IH. induction 1 as [|v [j|] elems rs Hv _ IHl]; simpl.
  - constructor.
  - constructor; [|exact IHl]. by eapply IH.
  - constructor; [|exact IHl].
    apply allocates_null. by eapply serialize_depth.
Qed.

Lemma allocates_leaf n j :
  n <> 0%nat ->
  match j with JArray _ | JObject _ => False | _ => True end ->
  allocates n revive id j.
Proof.
  intros Hn Hj h v h' Hrev. destruct n as [|n]; [done|].
  destruct j; try done; simpl in Hrev; inversion Hrev; subst;
    (split; [apply extends_refl|]; split; [intros l; discriminate|]);
    reflexivity.
Qed.

Lemma allocates_array n js :
  Forall (allocates n revive id) js ->
  allocates (S n) revive id (JArray js).
Proof.
  intros Hall h v h' Hrev. simpl in Hrev.
  destruct (allocAll revive js h) as [vs h1] eqn:Halloc.
  inversion Hrev; subst. clear Hrev.
  destruct (allocAll_allocates _ _ _ _ Hall _ _ _ Halloc)
    as (Hext & Hroots & Hser).
  split; [|split].
  - apply extends_snoc; [exact Hext | exact Hroots].
  - intros l' [= <-]. by apply extends_length.
  - rewrite serialize_ref, list_lookup_middle by reflexivity.
    erewrite (mapM_Some_2 _ vs (map Some js)).
    + rewrite map_map. simpl. by rewrite map_id.
    + apply Forall2_fmap_r.
      eapply Forall2_impl; [exact Hser|]. intros w kj Hw.
      by apply serialize_ext.
Qed.

Lemma allocates_object n kjs :
  Forall (allocates n (fun kj : string * json => revive kj.2) snd) kjs ->
  allocates (S n) revive id (JObject kjs).
Proof.
  intros Hall h v h' Hrev. simpl in Hrev.
  destruct (allocAll (fun kj : string * json => revive kj.2) kjs h)
    as [vs h1] eqn:Halloc.
  inversion Hrev; subst. clear Hrev.
  destruct (allocAll_allocates _ _ _ _ Hall _ _ _ Halloc)
    as (Hext & Hroots & Hser).
  split; [|split].
  - apply extends_snoc; [exact Hext|].
    unfold closedAbove. simpl.
    rewrite snd_zip; [exact Hroots|].
    rewrite length_map. apply Forall2_length in Hser. lia.
  - intros l' [= <-]. by apply extends_length.
  - rewrite serialize_ref, list_lookup_middle by reflexivity.
    assert (Hser' : Forall2
              (fun v (kj : string * json) =>
                 serialize n (h1 ++ [Obj (zip (map fst kjs) vs)]) v
                 = Some (Some kj.2)) vs kjs).
    { eapply Forall2_impl; [exact Hser|]. intros w kj Hw.
      by apply serialize_ext. }
    destruct (reserialize_props _ _ _ _ Hser') as [-> ->]. reflexivity.
Qed.

(** Parsing the text of a serialised value yields new objects that
    serialise to the same text. *)
Lemma revive_serialize n : forall h0 v0 j,
  serialize n h0 v0 = Some (Some j) -> allocates n revive id j.
Proof.
  induction n as [|n IH]; intros h0 v0 j Hser; [discriminate|].
  simpl in Hser.
  destruct v0 as [| |b|s|z|l]; try discriminate;
    try (inversion Hser; subst; by apply allocates_leaf).
  destruct (h0 !! l) as [[props|elems]|] eqn:Hl; [| |discriminate].
  - destruct (mapM (fun kv => serialize n h0 kv.2) props) as [rs|] eqn:Hrs;
      [|discriminate].
    inversion Hser; subst. clear Hser.
    apply mapM_Some in Hrs.
    apply allocates_object. by eapply kept_props_allocate; [apply IH|].
  - destruct (mapM (serialize n h0) elems) as [rs|] eqn:Hrs; [|discriminate].
    inversion Hser; subst. clear Hser.
    apply mapM_Some in Hrs.
    apply allocates_array. by eapply elems_allocate; [apply IH|].
Qed.

(** Induction on trees. *)
Lemma json_induction (P : json -> Prop) :
  P JNull -> (forall b, P (JBool b)) -> (forall s, P (JString s)) ->
  (forall z, P (JNumber z)) ->
  (forall l, Forall P l -> P (JArray l)) ->
  (forall l, Forall (fun kj : string * json => P kj.2) l -> P (JObject l)) ->
  forall j, P j.
Proof.
  intros Hnull Hbool Hstr Hnum Harr Hobj.
  fix IH 1.
  intros [|b|s|z|l|l];
    [exact Hnull | apply Hbool | apply Hstr | apply Hnum | | ].
  - apply Harr. induction l as [|j l IHl]; constructor; [apply IH | exact IHl].
  - apply Hobj.
    induction l as [|[k j] l IHl]; constructor; [apply IH | exact IHl].
Qed.

Lemma list_max_bound (l : list nat) (n : nat) :
  (list_max l <= n)%nat -> Forall (fun k => (k <= n)%nat) l.
Proof.
  induction l as [|k l IH]; simpl; intros H; constructor; [lia|].
  apply IH. lia.
Qed.

(** Parsing the text of any tree yields objects that serialise to that
    tree, at any depth that covers the tree. *)
Lemma revive_allocates j :
  forall n, (jdepth j <= n)%nat -> allocates n revive id j.
Proof.
  induction j as [|b|s|z|l IH|l IH] using json_induction; intros n Hn;
    try (apply allocates_leaf; [simpl in Hn; lia | exact I]).
  - destruct n as [|n]; [simpl in Hn; lia|].
    apply allocates_array.
    simpl in Hn. apply le_S_n, list_max_bound in Hn.
    rewrite Forall_fmap in Hn.
    rewrite Forall_forall in IH, Hn. apply Forall_forall.
    intros j Hj. apply IH; [exact Hj|]. by apply Hn.
  - destruct n as [|n]; [simpl in Hn; lia|].
    apply allocates_object.
    simpl in Hn. apply le_S_n, list_max_bound in Hn.
    rewrite Forall_fmap in Hn.
    rewrite Forall_forall in IH, Hn. apply Forall_forall.
    intros kj Hkj h v h' Hrev. apply (IH kj Hkj n); [by apply Hn | exact Hrev].
Qed.

(** The typed view reads back the tree of a survey. *)
Lemma questionOfJson_jsonOfQuestion (q : Question) :
  questionOfJson (jsonOfQuestion q) = Some q.
Proof.
  destruct q as [i t ty [os|]]; destruct ty; unfold questionOfJson; simpl;
    try reflexivity;
    unfold optionsOfJson; simpl;
    change (map JString os) with (JString <$> os);
    by rewrite (mapM_fmap_Some asString JString os).
Qed.

Lemma surveyOfJson_jsonOfSurvey (s : Survey) :
  surveyOfJson (jsonOfSurvey s) = Some s.
Proof.
  destruct s as [t d qs]. unfold surveyOfJson. simpl.
  change (map jsonOfQuestion qs) with (jsonOfQuestion <$> qs).
  by rewrite (mapM_fmap_Some questionOfJson jsonOfQuestion qs
                questionOfJson_jsonOfQuestion).
Qed.

Lemma list_max_map_bound {A} (f : A -> nat) (l : list A) (n : nat) :
  (forall x, (f x <= n)%nat) -> (list_max (map f l) <= n)%nat.
Proof.
  intros Hf. induction l as [|x l IH]; simpl; [lia|].
  specialize (Hf x). lia.
Qed.

Lemma jdepth_jsonOfQuestion (q : Question) : (jdepth (jsonOfQuestion q) <= 3)%nat.
Proof.
  destruct q as [i t ty [os|]]; simpl; [|lia].
  rewrite map_map. simpl.
  pose proof (list_max_map_bound (fun _ : string => 1%nat) os 1
                (fun _ => le_n 1)).
  lia.
Qed.

Lemma jdepth_jsonOfSurvey (s : Survey) : (jdepth (jsonOfSurvey s) <= 5)%nat.
Proof.
  destruct s as [t d qs]. simpl. rewrite map_map.
  pose proof (list_max_map_bound (fun q => jdepth (jsonOfQuestion q)) qs 3
                jdepth_jsonOfQuestion).
  lia.
Qed.

(** Every survey has a form in the store that reads back as itself, at
    any depth from 5 on: the hypothesis of the round trip below can be
    met for every survey. *)
Lemma survey_in_store (s : Survey) (h : heap) (depth : nat) :
  (5 <= depth)%nat ->
  readSurvey depth (revive (jsonOfSurvey s) h).2 (revive (jsonOfSurvey s) h).1
  = Some s.
Proof.
  intros Hdepth.
  destruct (revive (jsonOfSurvey s) h) as [v h'] eqn:Hrev.
  destruct (revive_allocates (jsonOfSurvey s) depth
              ltac:(pose proof (jdepth_jsonOfSurvey s); lia) h v h' Hrev)
    as (_ & _ & Hser).
  unfold readSurvey. simpl. rewrite Hser. apply surveyOfJson_jsonOfSurvey.
Qed.





End StoreFacts.



(** * Further properties of the application *)

(** ** The survey builder *)

Lemma map_id_update (f : Question -> Question) (qs : list Question) :
  (forall q, q_id (f q) = q_id q) -> map q_id (map f qs) = map q_id qs.
Proof.
  intros Hf. rewrite map_map. apply map_ext. exact Hf.
Qed.

Lemma filter_keeps_ids_unique {A} (key : A -> string) (P : A -> bool)
    (l : list A) :
  NoDup (map key l) -> NoDup (map key (List.filter P l)).
Proof.
  induction l as [|x l IH]; simpl; [done|].
  intros [Hx Hnd]%NoDup_cons.
  destruct (P x); simpl; [|by apply IH].
  apply NoDup_cons. split; [|by apply IH].
  intros Hin. apply Hx.
  apply list_elem_of_In, in_map_iff in Hin as (y & Hy & Hin).
  apply filter_In in Hin as [Hin _].
  apply list_elem_of_In, in_map_iff. eauto.
Qed.

Lemma arrayWrite_length opts i v newOpts :
  Builder.arrayWrite opts i v = Some newOpts ->
  (length opts <= length newOpts)%nat.
Proof.
  unfold Builder.arrayWrite.
  destruct (i <? length opts)%nat.
  - intros [= <-]. by rewrite length_insert.
  - destruct (i =? length opts)%nat; [|discriminate].
    intros [= <-]. rewrite length_app. simpl. lia.
Qed.

Lemma updateOptionOf_keeps qId i v q q' :
  Builder.updateOptionOf qId i v q = Some q' ->
  q_id q' = q_id q /\ q_text q' = q_text q /\ q_type q' = q_type q
  /\ match q_options q with
     | None => q_options q' = None
     | Some opts =>
         exists opts', q_options q' = Some opts'
                       /\ (length opts <= length opts')%nat
     end.
Proof.
  unfold Builder.updateOptionOf.
  destruct (negb (String.eqb (q_id q) qId)).
  { intros [= <-]. repeat split. destruct (q_options q); eauto. }
  destruct (q_options q) as [opts|] eqn:Hopts.
  - destruct (Builder.arrayWrite opts i v) as [newOpts|] eqn:Hw;
      [|discriminate].
    intros [= <-]. simpl. repeat split.
    exists newOpts. split; [reflexivity|]. by eapply arrayWrite_length.
  - intros [= <-]. rewrite Hopts. repeat split.
Qed.

Lemma updateOption_questions qId i v s s' :
  Builder.updateOption qId i v s = Some s' ->
  title s' = title s /\ description s' = description s
  /\ Forall2 (fun q q' => Builder.updateOptionOf qId i v q = Some q')
             (questions s) (questions s').
Proof.
  unfold Builder.updateOption.
  destruct (mapM (Builder.updateOptionOf qId i v) (questions s))
    as [qs|] eqn:Hqs; [|discriminate].
  intros [= <-]. simpl. repeat split. by apply mapM_Some.
Qed.

Lemma event_keeps_ids_unique s s' :
  Builder.event s s' ->
  NoDup (map q_id (questions s)) -> NoDup (map q_id (questions s')).
Proof.
  intros Hev Hnd. destruct Hev as [g ty Hfresh|q v Hq|q Hq
    |q opts oIdx v s' Hq Hty Hopts Hlt Hupd|q opts Hq Hty Hopts|v|v|c].
  - simpl. rewrite map_app. simpl. apply NoDup_app. split; [exact Hnd|].
    split; [|apply NoDup_singleton].
    intros x Hx Hin. apply list_elem_of_singleton in Hin. subst x.
    by apply Hfresh, list_elem_of_In.
  - simpl. rewrite map_id_update; [exact Hnd|].
    intros q0. by destruct (String.eqb (q_id q0) (q_id q)).
  - simpl. by apply filter_keeps_ids_unique.
  - apply updateOption_questions in Hupd as (_ & _ & Hqs).
    replace (map q_id (questions s')) with (map q_id (questions s));
      [exact Hnd|].
    clear -Hqs. induction Hqs as [|q0 q0' qs qs' H0 _ IH]; [reflexivity|].
    simpl. f_equal; [|exact IH].
    by destruct (updateOptionOf_keeps _ _ _ _ _ H0) as [-> _].
  - unfold Builder.addOption. simpl. rewrite map_id_update; [exact Hnd|].
    intros q0. by destruct (String.eqb (q_id q0) (q_id q)).
  - exact Hnd.
  - exact Hnd.
  - destruct c; [constructor | exact Hnd].
Qed.

Lemma event_keeps_options s s' :
  Builder.event s s' ->
  Builder.choicesHaveOptions s -> Builder.choicesHaveOptions s'.
Proof.
  intros Hev Hinv. destruct Hev as [g ty Hfresh|q v Hq|q Hq
    |q opts oIdx v s' Hq Hty Hopts Hlt Hupd|q opts Hq Hty Hopts|v|v|c];
    intros q1 Hq1 Hty1; simpl in Hq1.
  - apply in_app_iff in Hq1 as [Hq1|[<-|[]]]; [by apply Hinv|].
    simpl in *. subst ty. exists ["Option 1"; "Option 2"]. split; [done|].
    simpl. lia.
  - apply in_map_iff in Hq1 as (q0 & <- & Hq0).
    destruct (String.eqb (q_id q0) (q_id q)); [|by apply Hinv].
    simpl in *. by apply Hinv.
  - apply filter_In in Hq1 as [Hq1 _]. by apply Hinv.
  - apply updateOption_questions in Hupd as (_ & _ & Hqs).
    apply list_elem_of_In, list_elem_of_lookup in Hq1 as [k Hk].
    destruct (Forall2_lookup_r _ _ _ _ _ Hqs Hk) as (q0 & Hk0 & Hupd).
    destruct (updateOptionOf_keeps _ _ _ _ _ Hupd) as (_ & _ & Hty0 & Hopt0).
    destruct (Hinv q0) as (opts0 & Ho0 & Hlen0).
    { apply list_elem_of_In, list_elem_of_lookup. eauto. }
    { congruence. }
    rewrite Ho0 in Hopt0. destruct Hopt0 as (opts' & -> & Hlen').
    exists opts'. split; [reflexivity | lia].
  - unfold Builder.addOption in Hq1. simpl in Hq1.
    apply in_map_iff in Hq1 as (q0 & <- & Hq0).
    destruct (String.eqb (q_id q0) (q_id q)); [|by apply Hinv].
    destruct (Hinv q Hq Hty) as (o & Ho & Hlen).
    simpl. eexists. split; [reflexivity|].
    rewrite Ho, length_app. simpl. lia.
  - by apply Hinv.
  - by apply Hinv.
  - destruct c; [destruct Hq1 | by apply Hinv].
Qed.

(** X1. From a survey whose question ids are distinct and whose
    multiple-choice questions have at least two options, whatever the
    survey form does (adding a question under a new id, editing a text
    or an option, adding an option, removing a question, changing title
    or description, resetting the form) leads to a survey with the same
    two properties. *)
Theorem builder_keeps_surveys_well_formed (s0 s : Survey)
    (Hids : NoDup (map q_id (questions s0)))
    (Hopts : Builder.choicesHaveOptions s0)
    (Hevents : Builder.events s0 s) :
  NoDup (map q_id (questions s)) /\ Builder.choicesHaveOptions s.
Proof.
  induction Hevents as [s|s s' s'' _ IH Hev]; [by split|].
  destruct (IH Hids Hopts) as [Hids' Hopts'].
  split; [by eapply event_keeps_ids_unique | by eapply event_keeps_options].
Qed.

Lemma builder_keeps_surveys_well_formed_witness :
  NoDup (map q_id
           (questions
              (Builder.removeQuestion "q2"
                 (Builder.addOption
                    {| q_id := "qk3f9"; q_text := "";
                       q_type := MULTIPLE_CHOICE;
                       q_options := Some ["Option 1"; "Option 2"] |}
                    (Builder.addQuestion "k3f9" MULTIPLE_CHOICE
                       Builder.initialSurvey))))).
Proof.
  refine (proj1 (builder_keeps_surveys_well_formed Builder.initialSurvey _
                   _ _ _)).
  - simpl.
    repeat (apply NoDup_cons_2;
            [rewrite list_elem_of_In; simpl; intuition discriminate|]).
    apply NoDup_nil_2.
  - intros q [<-|[<-|[]]]; discriminate.
  - eapply Builder.events_then; [eapply Builder.events_then;
      [eapply Builder.events_then; [apply Builder.events_none|]|]|].
    + apply (Builder.ev_addQuestion _ "k3f9" MULTIPLE_CHOICE).
      simpl. intros [H|[H|[]]]; discriminate.
    + eapply (Builder.ev_addOption _
                {| q_id := "qk3f9"; q_text := "";
                   q_type := MULTIPLE_CHOICE;
                   q_options := Some ["Option 1"; "Option 2"] |});
        [simpl; auto | reflexivity | reflexivity].
    + apply (Builder.ev_removeQuestion _
               {| q_id := "q2";
                  q_text :=
                    "What is your biggest pain point with current to-do list apps?";
                  q_type := OPEN_ENDED; q_options := None |}).
      simpl. auto.
Defined.

Lemma filter_all {A} (P : A -> bool) (l : list A) :
  (forall x, In x l -> P x = true) -> List.filter P l = l.
Proof.
  induction l as [|x l IH]; simpl; intros H; [done|].
  rewrite (H x) by auto. f_equal. apply IH. auto.
Qed.

(** X2. Removing the question that was just added gives back the survey
    as it was, when the id drawn for it was not in use; removing an id
    that no question has changes nothing. *)
Theorem removeQuestion_undoes_addQuestion (generatedId : string)
    (type : QuestionType) (s : Survey)
    (Hfresh : ~ In ("q" ++ generatedId)%string (map q_id (questions s))) :
  Builder.removeQuestion ("q" ++ generatedId)
    (Builder.addQuestion generatedId type s) = s
  /\ Builder.removeQuestion ("q" ++ generatedId) s = s.
Proof.
  assert (Hkeep : List.filter
            (fun q => negb (String.eqb (q_id q) ("q" ++ generatedId)))
            (questions s) = questions s).
  { apply filter_all. intros q Hq.
    destruct (String.eqb_spec (q_id q) ("q" ++ generatedId)) as [Heq|];
      [|done].
    exfalso. apply Hfresh. rewrite <- Heq. by apply in_map. }
  destruct s as [t d qs]. unfold Builder.removeQuestion, Builder.addQuestion.
  simpl in *. split; [|by rewrite Hkeep].
  rewrite List.filter_app, Hkeep. simpl.
  rewrite String.eqb_refl. simpl. by rewrite app_nil_r.
Qed.

Lemma removeQuestion_undoes_addQuestion_witness :
  Builder.removeQuestion "qk3f9"
    (Builder.addQuestion "k3f9" RATING_SCALE Builder.initialSurvey)
  = Builder.initialSurvey.
Proof.
  refine (proj1 (removeQuestion_undoes_addQuestion "k3f9" RATING_SCALE
                   Builder.initialSurvey _)).
  simpl. intros [H|[H|[]]]; discriminate.
Defined.

(** The question that [updateOption] makes of [q] when the index is in
    range. *)
Lemma updateOptionOf_in_range qId i v q :
  (forall opts, q_id q = qId -> q_options q = Some opts ->
     (i < length opts)%nat) ->
  Builder.updateOptionOf qId i v q
  = Some (if String.eqb (q_id q) qId then
            match q_options q with
            | Some opts =>
                {| q_id := q_id q; q_text := q_text q; q_type := q_type q;
                   q_options := Some (<[i := v]> opts) |}
            | None => q
            end
          else q).
Proof.
  intros Hrange. unfold Builder.updateOptionOf.
  destruct (String.eqb_spec (q_id q) qId) as [Heq|]; simpl; [|done].
  destruct (q_options q) as [opts|]; [|done].
  unfold Builder.arrayWrite.
  specialize (Hrange opts Heq eq_refl).
  apply Nat.ltb_lt in Hrange. by rewrite Hrange.
Qed.

(** X3. Editing option number [optIndex] of the questions with id [qId],
    with the index in range, always succeeds and is a replacement in
    place: title, description and the number and order of questions stay;
    a question with another id, or without options, is untouched; a
    question with that id keeps id, text, type and its number of options,
    and only the option at [optIndex] changes, to the new value. *)
Theorem updateOption_replaces_in_place (qId : string) (optIndex : nat)
    (val : string) (s : Survey)
    (Hrange : forall q opts, In q (questions s) -> q_id q = qId ->
                q_options q = Some opts -> (optIndex < length opts)%nat) :
  exists s',
    Builder.updateOption qId optIndex val s = Some s'
    /\ title s' = title s /\ description s' = description s
    /\ length (questions s') = length (questions s)
    /\ forall k q, questions s !! k = Some q ->
         exists q',
           questions s' !! k = Some q'
           /\ q_id q' = q_id q /\ q_text q' = q_text q
           /\ q_type q' = q_type q
           /\ (q_id q <> qId -> q' = q)
           /\ (q_options q = None -> q' = q)
           /\ forall opts, q_id q = qId -> q_options q = Some opts ->
                exists opts',
                  q_options q' = Some opts'
                  /\ length opts' = length opts
                  /\ opts' !! optIndex = Some val
                  /\ forall j, j <> optIndex -> opts' !! j = opts !! j.
Proof.
  set (f := fun q : Question =>
              if String.eqb (q_id q) qId then
                match q_options q with
                | Some opts =>
                    {| q_id := q_id q; q_text := q_text q;
                       q_type := q_type q;
                       q_options := Some (<[optIndex := val]> opts) |}
                | None => q
                end
              else q).
  assert (Hmap : mapM (Builder.updateOptionOf qId optIndex val) (questions s)
                 = Some (map f (questions s))).
  { apply mapM_Some_2.
    change (map f (questions s)) with (f <$> questions s).
    apply Forall2_fmap_r, Forall_Forall2_diag, Forall_forall.
    intros q Hq. apply updateOptionOf_in_range.
    intros opts. apply Hrange. by apply list_elem_of_In. }
  eexists. unfold Builder.updateOption. rewrite Hmap.
  split; [reflexivity|]. simpl.
  split; [reflexivity|]. split; [reflexivity|].
  split; [apply length_map|].
  intros k q Hk. exists (f q). split.
  { change (map f (questions s)) with (f <$> questions s).
    by rewrite list_lookup_fmap, Hk. }
  assert (Hq : In q (questions s)).
  { apply list_elem_of_In, list_elem_of_lookup. eauto. }
  unfold f.
  destruct (String.eqb_spec (q_id q) qId) as [Heq|Hne].
  - destruct (q_options q) as [opts|] eqn:Hopts; simpl.
    + repeat split; try done.
      intros opts0 _ [= <-]. eexists. split; [reflexivity|].
      pose proof (Hrange q opts Hq Heq Hopts) as Hlt.
      split; [apply length_insert|]. split.
      * by apply list_lookup_insert_eq.
      * intros j Hj. by apply list_lookup_insert_ne.
    + repeat split; try done.
  - repeat split; try done.
Qed.

Lemma updateOption_replaces_in_place_witness :
  exists s',
    Builder.updateOption "q3" 1 "Team"
      {| title := "Pricing"; description := "";
         questions := [Fixtures.ratingQuestion; Fixtures.choiceQuestion] |}
    = Some s'
    /\ length (questions s') = 2%nat.
Proof.
  destruct (updateOption_replaces_in_place "q3" 1 "Team"
              {| title := "Pricing"; description := "";
                 questions := [Fixtures.ratingQuestion;
                               Fixtures.choiceQuestion] |})
    as (s' & H1 & _ & _ & H4 & _).
  { intros q opts [<-|[<-|[]]]; simpl; intros Hid Ho;
      [discriminate | inversion Ho; simpl; lia]. }
  exists s'. split; assumption.
Defined.

(** ** The persona library and the active panel *)

Lemma existsb_hasId id (l : list GeneratedPersona) :
  existsb (Personas.hasId id) l = true <-> In id (map p_id l).
Proof.
  rewrite existsb_exists, in_map_iff. unfold Personas.hasId.
  split; intros (p & H1 & H2).
  - exists p. apply String.eqb_eq in H2. by split.
  - exists p. split; [done|]. by apply String.eqb_eq.
Qed.

Lemma replace_keeps_ids (form : GeneratedPersona)
    (l : list GeneratedPersona) :
  map p_id (map (fun p => if Personas.hasId (p_id form) p then form else p) l)
  = map p_id l.
Proof.
  rewrite map_map. apply map_ext. intros p. unfold Personas.hasId.
  destruct (String.eqb_spec (p_id p) (p_id form)); congruence.
Qed.

Lemma snoc_keeps_ids_unique (l : list GeneratedPersona)
    (p : GeneratedPersona) :
  NoDup (map p_id l) -> ~ In (p_id p) (map p_id l) ->
  NoDup (map p_id (l ++ [p])).
Proof.
  intros Hnd Hfresh. rewrite map_app. apply NoDup_app.
  split; [exact Hnd|]. split; [|apply NoDup_singleton].
  intros x Hx Hin. apply list_elem_of_singleton in Hin. subst x.
  by apply Hfresh, list_elem_of_In.
Qed.

(** X4. The handlers of the library and of the panel keep both
    collections well formed: ids stay distinct within the library and
    within the panel (a persona whose id is already there is not added a
    second time), and [localStorage] always holds the text of the library
    that is in the state. *)
Theorem persona_handlers_keep_collections_well_formed
    (stringify : list GeneratedPersona -> string) (st : Personas.State)
    (Hwf : Personas.wellFormed stringify st) :
  forall (persona : GeneratedPersona) (id : string) (isLibrary : bool),
    Personas.wellFormed stringify (Personas.addToLibrary stringify persona st)
    /\ Personas.wellFormed stringify
         (Personas.removeFromLibrary stringify id st)
    /\ Personas.wellFormed stringify (Personas.importFromLibrary persona st)
    /\ Personas.wellFormed stringify (Personas.deleteActivePersona id st)
    /\ Personas.wellFormed stringify (Personas.startEditing persona st)
    /\ Personas.wellFormed stringify
         (Personas.saveEdit stringify isLibrary st)
    /\ Personas.wellFormed stringify (Personas.cancelEdit st).
Proof.
  destruct Hwf as (Hlib & Hpanel & Hsync).
  intros persona id isLibrary. repeat split; simpl; try done.
  - unfold Personas.addToLibrary.
    destruct (existsb (Personas.hasId (p_id persona))
                (Personas.savedPersonas st)) eqn:Hex; simpl; [done|].
    apply snoc_keeps_ids_unique; [done|].
    intros Hin. apply existsb_hasId in Hin. congruence.
  - unfold Personas.addToLibrary.
    by destruct (existsb (Personas.hasId (p_id persona))
                   (Personas.savedPersonas st)).
  - unfold Personas.addToLibrary.
    by destruct (existsb (Personas.hasId (p_id persona))
                   (Personas.savedPersonas st)).
  - by apply filter_keeps_ids_unique.
  - unfold Personas.importFromLibrary.
    by destruct (existsb (Personas.hasId (p_id persona))
                   (Personas.activeParticipants st)).
  - unfold Personas.importFromLibrary.
    destruct (existsb (Personas.hasId (p_id persona))
                (Personas.activeParticipants st)) eqn:Hex; simpl; [done|].
    apply snoc_keeps_ids_unique; [done|].
    intros Hin. apply existsb_hasId in Hin. congruence.
  - unfold Personas.importFromLibrary.
    by destruct (existsb (Personas.hasId (p_id persona))
                   (Personas.activeParticipants st)).
  - by apply filter_keeps_ids_unique.
  - unfold Personas.saveEdit.
    destruct (Personas.editForm st) as [form|]; [|done].
    destruct isLibrary; simpl; [|done]. by rewrite replace_keeps_ids.
  - unfold Personas.saveEdit.
    destruct (Personas.editForm st) as [form|]; [|done].
    destruct isLibrary; simpl; [done|]. by rewrite replace_keeps_ids.
  - unfold Personas.saveEdit.
    destruct (Personas.editForm st) as [form|]; [|done].
    by destruct isLibrary.
Qed.

Lemma persona_handlers_keep_collections_well_formed_witness :
  Personas.wellFormed Samples.idsText
    (Personas.addToLibrary Samples.idsText Fixtures.personaB
       Samples.libraryState).
Proof.
  refine (proj1 (persona_handlers_keep_collections_well_formed
                   Samples.idsText Samples.libraryState _
                   Fixtures.personaB "" false)).
  repeat split; simpl;
    repeat (apply NoDup_cons_2;
            [rewrite list_elem_of_In; simpl; intuition discriminate|]);
    apply NoDup_nil_2.
Defined.

(** X5. Adding a persona to the library and removing it again gives
    back the library as it was, when no persona of the library had that
    id. When one has, adding changes nothing in the library and its
    stored text, and tells the operator so. *)
Theorem removeFromLibrary_undoes_addToLibrary
    (stringify : list GeneratedPersona -> string)
    (persona : GeneratedPersona) (st : Personas.State) :
  (~ In (p_id persona) (map p_id (Personas.savedPersonas st)) ->
   Personas.savedPersonas
     (Personas.removeFromLibrary stringify (p_id persona)
        (Personas.addToLibrary stringify persona st))
   = Personas.savedPersonas st)
  /\ (In (p_id persona) (map p_id (Personas.savedPersonas st)) ->
      Personas.savedPersonas (Personas.addToLibrary stringify persona st)
      = Personas.savedPersonas st
      /\ Personas.storedLibrary (Personas.addToLibrary stringify persona st)
         = Personas.storedLibrary st
      /\ Personas.dialogs (Personas.addToLibrary stringify persona st)
         = Personas.dialogs st
           ++ ["This specific persona instance is already in your library."]).
Proof.
  unfold Personas.addToLibrary. split; intros Hin.
  - destruct (existsb (Personas.hasId (p_id persona))
                (Personas.savedPersonas st)) eqn:Hex.
    { apply existsb_hasId in Hex. contradiction. }
    simpl. rewrite List.filter_app. simpl.
    unfold Personas.hasId at 2. rewrite String.eqb_refl. simpl.
    rewrite app_nil_r. apply filter_all. intros p Hp.
    unfold Personas.hasId.
    destruct (String.eqb_spec (p_id p) (p_id persona)) as [Heq|]; [|done].
    exfalso. apply Hin. rewrite <- Heq. by apply in_map.
  - apply existsb_hasId in Hin. rewrite Hin. by simpl.
Qed.

Lemma removeFromLibrary_undoes_addToLibrary_witness :
  Personas.savedPersonas
    (Personas.removeFromLibrary Samples.idsText "pb"
       (Personas.addToLibrary Samples.idsText Fixtures.personaB
          Samples.libraryState))
  = [Fixtures.personaA].
Proof.
  refine (proj1 (removeFromLibrary_undoes_addToLibrary Samples.idsText
                   Fixtures.personaB Samples.libraryState) _).
  simpl. intros [H|[]]. discriminate.
Defined.

(** X6. Saving an edit replaces, in the collection being edited, every
    persona that has the id of the form by the form, and nothing else:
    the ids and their order stay the same in both collections, the other
    collection is untouched, personas with another id are untouched, and
    the editing state is cleared. Without a form, nothing happens at
    all. *)
Theorem saveEdit_replaces_by_id
    (stringify : list GeneratedPersona -> string) (isLibrary : bool)
    (st : Personas.State) (form : GeneratedPersona)
    (Hform : Personas.editForm st = Some form) :
  let st' := Personas.saveEdit stringify isLibrary st in
  let edited (s : Personas.State) :=
    if isLibrary then Personas.savedPersonas s
    else Personas.activeParticipants s in
  let other (s : Personas.State) :=
    if isLibrary then Personas.activeParticipants s
    else Personas.savedPersonas s in
  map p_id (edited st') = map p_id (edited st)
  /\ other st' = other st
  /\ (forall k p, edited st !! k = Some p ->
        edited st' !! k
        = Some (if String.eqb (p_id p) (p_id form) then form else p))
  /\ Personas.editForm st' = None
  /\ Personas.editingPersonaId st' = None
  /\ forall st0, Personas.editForm st0 = None ->
       Personas.saveEdit stringify isLibrary st0 = st0.
Proof.
  intros st' edited other. subst st' edited other.
  unfold Personas.saveEdit. rewrite Hform.
  destruct isLibrary; simpl; (split; [apply replace_keeps_ids|]);
    (split; [reflexivity|]);
    (split; [intros k p Hk;
             change (map ?f ?l) with (f <$> l);
             by rewrite list_lookup_fmap, Hk|]);
    (split; [reflexivity|]); (split; [reflexivity|]);
    by intros st0 ->.
Qed.

Lemma saveEdit_replaces_by_id_witness :
  Personas.activeParticipants
    (Personas.saveEdit Samples.idsText false Samples.editingState) !! 1%nat
  = Some Samples.editedBen
  /\ Personas.savedPersonas
       (Personas.saveEdit Samples.idsText false Samples.editingState)
     = [Fixtures.personaA].
Proof.
  pose proof (saveEdit_replaces_by_id Samples.idsText false
                Samples.editingState Samples.editedBen eq_refl)
    as (_ & H2 & H3 & _).
  split; [exact (H3 1%nat Fixtures.personaB eq_refl) | exact H2].
Defined.

(** X7. Importing a persona from the library into the panel a second
    time changes nothing: after the first import the panel holds a
    persona with that id, the personas already in the panel keep their
    places, and the panel grows by at most one. *)
Theorem importFromLibrary_once (persona : GeneratedPersona)
    (st : Personas.State) :
  let st' := Personas.importFromLibrary persona st in
  Personas.importFromLibrary persona st' = st'
  /\ In (p_id persona) (map p_id (Personas.activeParticipants st'))
  /\ (exists added,
        Personas.activeParticipants st'
        = Personas.activeParticipants st ++ added
        /\ (length added <= 1)%nat)
  /\ Personas.savedPersonas st' = Personas.savedPersonas st.
Proof.
  simpl. unfold Personas.importFromLibrary.
  destruct (existsb (Personas.hasId (p_id persona))
              (Personas.activeParticipants st)) eqn:Hex.
  - rewrite Hex. split; [done|]. split; [by apply existsb_hasId|].
    split; [|done]. exists []. rewrite app_nil_r. split; [done | simpl; lia].
  - simpl.
    assert (Hnow : existsb (Personas.hasId (p_id persona))
                     (Personas.activeParticipants st ++ [persona]) = true).
    { rewrite existsb_app. simpl. unfold Personas.hasId at 2.
      rewrite String.eqb_refl. by rewrite orb_true_r. }
    rewrite Hnow. split; [done|]. split; [by apply existsb_hasId|].
    split; [|done]. exists [persona]. split; [done | simpl; lia].
Qed.

Lemma generated_ids (generateId : nat -> string)
    (personas : list GeneratedPersona) :
  map p_id (imap (fun k p => Personas.withId (generateId k) p) personas)
  = map generateId (seq 0 (length personas)).
Proof.
  apply list_eq. intros k.
  change (map ?f ?l) with (f <$> l).
  rewrite !list_lookup_fmap, list_lookup_imap.
  destruct (personas !! k) as [p|] eqn:Hk; simpl.
  - rewrite lookup_seq_lt by (by eapply lookup_lt_Some). reflexivity.
  - rewrite lookup_seq_ge; [done|]. by apply lookup_ge_None.
Qed.

(** X8. Generating personas for a description that is not blank always
    ends with the loading flag cleared, never touches the library and
    never drops or reorders a participant already in the panel. When the
    service call rejects, the panel is unchanged, the error is logged and
    one dialog tells the operator; when it resolves, the personas are
    appended in order, each under the id drawn for it in place of the id
    in the answer, with no dialog. So an empty answer text passes
    silently: no persona, no dialog. If the ids drawn are new and
    distinct, the ids of the panel stay distinct. A blank description
    does nothing at all. *)
Theorem handleGeneratePersonas_outcomes (JSON : JsonParser)
    (description : string) (count : Z) (response : ApiResult)
    (generateId : nat -> string) (st : Personas.State)
    (Hdescription : JS.trim description <> "") :
  let st' := Personas.handleGeneratePersonas JSON description count
               response generateId st in
  Personas.isLoading st' = false
  /\ Personas.savedPersonas st' = Personas.savedPersonas st
  /\ Personas.storedLibrary st' = Personas.storedLibrary st
  /\ match generatePersonas JSON description count response with
     | Resolved personas =>
         Personas.activeParticipants st'
         = Personas.activeParticipants st
           ++ imap (fun k p => Personas.withId (generateId k) p) personas
         /\ Personas.dialogs st' = Personas.dialogs st
         /\ Personas.console st' = Personas.console st
         /\ (NoDup (map p_id (Personas.activeParticipants st)
                    ++ map generateId (seq 0 (length personas))) ->
             NoDup (map p_id (Personas.activeParticipants st')))
     | Rejected e =>
         Personas.activeParticipants st' = Personas.activeParticipants st
         /\ Personas.dialogs st'
            = Personas.dialogs st
              ++ ["Failed to generate personas. Please check your API key or try again."]
         /\ Personas.console st' = Personas.console st ++ [e]
     end
  /\ (forall text, response = ApiResponse text -> JS.falsy text = true ->
        Personas.activeParticipants st' = Personas.activeParticipants st
        /\ Personas.dialogs st' = Personas.dialogs st)
  /\ forall blank, JS.trim blank = "" ->
       Personas.handleGeneratePersonas JSON blank count response
         generateId st = st.
Proof.
  intros st'. subst st'. unfold Personas.handleGeneratePersonas.
  apply String.eqb_neq in Hdescription. rewrite Hdescription.
  split; [reflexivity|].
  split; [by destruct (generatePersonas JSON description count response)|].
  split; [by destruct (generatePersonas JSON description count response)|].
  split; [|split].
  - destruct (generatePersonas JSON description count response)
      as [personas|e]; simpl; [|done].
    repeat split. by rewrite map_app, generated_ids.
  - intros text -> Hfalsy. simpl. rewrite Hfalsy. simpl.
    by rewrite app_nil_r.
  - intros blank ->. reflexivity.
Qed.

Lemma handleGeneratePersonas_outcomes_witness :
  Personas.dialogs
    (Personas.handleGeneratePersonas Fixtures.demoJson
       "Remote workers in tech" 3 (Fixtures.apiDown 0%nat)
       (fun k => pretty k) Samples.libraryState)
  = ["Failed to generate personas. Please check your API key or try again."].
Proof.
  pose proof (handleGeneratePersonas_outcomes Fixtures.demoJson
                "Remote workers in tech" 3 (Fixtures.apiDown 0%nat)
                (fun k => pretty k) Samples.libraryState
                ltac:(discriminate)) as (_ & _ & _ & H & _).
  simpl in H. exact (proj1 (proj2 H)).
Defined.

(** ** More on [runSimulation] *)

Lemma collected_personaIds JSON api (st : App.State) :
  map personaId (App.collected JSON api st)
  = map p_id (App.activeParticipants st).
Proof.
  rewrite collected_eq. apply list_eq. intros k.
  change (map ?f ?l) with (f <$> l).
  rewrite !list_lookup_fmap, list_lookup_imap.
  destruct (App.activeParticipants st !! k) as [p|]; [|reflexivity].
  simpl. by rewrite responseOf_personaId.
Qed.

Lemma applyEffects_frame (es : list Effect) :
  forall st,
    App.survey (App.applyEffects st es) = App.survey st
    /\ App.activeParticipants (App.applyEffects st es)
       = App.activeParticipants st.
Proof.
  induction es as [|e es IH]; intros st; [done|].
  unfold App.applyEffects in *. simpl.
  destruct (IH (App.applyEffect st e)) as [-> ->]. by destruct e.
Qed.

Lemma runSimulation_ends JSON api (s : App.State) :
  App.activeParticipants s <> [] ->
  App.isLoading (App.runSimulation JSON api s) = false
  /\ (App.step (App.runSimulation JSON api s) = RESULTS
      \/ App.step (App.runSimulation JSON api s) = SIMULATION)
  /\ App.responses (App.runSimulation JSON api s)
     = App.collected JSON api s.
Proof.
  intros Hs.
  destruct (runSimulation_after_loop JSON api s Hs)
    as (mid & -> & Hstep & _ & _ & _ & Hresp).
  pose proof (collected_length JSON api s) as Hlen.
  unfold App.analysisEffects.
  destruct (Nat.ltb_spec 0 (length (App.collected JSON api s))) as [_|H0].
  2:{ destruct (App.activeParticipants s); [done | simpl in *; lia]. }
  destruct (analyzeResults JSON (App.survey s) (App.collected JSON api s)
              (App.activeParticipants s)
              (api (length (App.activeParticipants s))));
    simpl; rewrite ?Hstep, Hresp; auto.
Qed.

Lemma runSimulation_personaIds JSON api (s : App.State) :
  App.activeParticipants s <> [] ->
  map personaId (App.responses (App.runSimulation JSON api s))
  = map p_id (App.activeParticipants s).
Proof.
  intros Hs. destruct (runSimulation_ends JSON api s Hs) as (_ & _ & ->).
  apply collected_personaIds.
Qed.

(** X9. A run over a panel that is not empty never changes the survey or
    the panel, ends with the loading flag cleared, and ends on the
    results step or on the simulation step, never back on the persona
    step. Its responses are those of this run only, whatever responses an
    earlier run had left: one per persona, and their persona ids are the
    ids of the panel, in panel order. *)
Theorem run_gives_one_response_per_persona JSON api (st : App.State)
    (Hpanel : App.activeParticipants st <> []) :
  let st' := App.runSimulation JSON api st in
  App.survey st' = App.survey st
  /\ App.activeParticipants st' = App.activeParticipants st
  /\ App.isLoading st' = false
  /\ (App.step st' = RESULTS \/ App.step st' = SIMULATION)
  /\ map personaId (App.responses st') = map p_id (App.activeParticipants st)
  /\ forall st0,
       App.survey st0 = App.survey st ->
       App.activeParticipants st0 = App.activeParticipants st ->
       App.responses (App.runSimulation JSON api st0) = App.responses st'.
Proof.
  intros st'. subst st'.
  pose proof (runSimulation_ends JSON api) as Hrun.
  destruct (applyEffects_frame (App.runSimulationEffects JSON api st) st)
    as [Hsv Hap].
  destruct (Hrun st Hpanel) as (Hload & Hstep & Hresp).
  split; [exact Hsv|]. split; [exact Hap|]. split; [exact Hload|].
  split; [exact Hstep|]. split.
  - rewrite Hresp. apply collected_personaIds.
  - intros st0 Hsv0 Hap0.
    destruct (Hrun st0) as (_ & _ & Hresp0); [by rewrite Hap0|].
    rewrite Hresp0, Hresp. unfold App.collected. by rewrite Hsv0, Hap0.
Qed.

Lemma run_gives_one_response_per_persona_witness :
  map personaId
    (App.responses
       (App.runSimulation Fixtures.demoJson Fixtures.apiScenario
          (Fixtures.initialState [Fixtures.personaA; Fixtures.personaB]
             Fixtures.ratingSurvey)))
  = ["pa"; "pb"].
Proof.
  exact (proj1 (proj2 (proj2 (proj2 (proj2
    (run_gives_one_response_per_persona Fixtures.demoJson
       Fixtures.apiScenario
       (Fixtures.initialState [Fixtures.personaA; Fixtures.personaB]
          Fixtures.ratingSurvey)
       ltac:(discriminate))))))).
Defined.

(** X10. When the analysis call resolves at the end of a run over a
    panel that is not empty, the run ends on the results step with that
    analysis, without any dialog, with the loading flag cleared and with
    the responses of the run. *)
Theorem analysis_success_shows_results JSON api (st : App.State)
    (result : AnalysisResult)
    (Hpanel : App.activeParticipants st <> [])
    (Hok : analyzeResults JSON (App.survey st) (App.collected JSON api st)
             (App.activeParticipants st)
             (api (length (App.activeParticipants st))) = Resolved result) :
  let st' := App.runSimulation JSON api st in
  App.step st' = RESULTS
  /\ App.analysis st' = Some result
  /\ App.dialogs st' = App.dialogs st
  /\ App.isLoading st' = false
  /\ App.responses st' = App.collected JSON api st.
Proof.
  intros st'. subst st'.
  destruct (runSimulation_after_loop JSON api st Hpanel)
    as (mid & -> & Hstep & _ & Han & Hdlg & Hresp).
  pose proof (collected_length JSON api st) as Hlen.
  unfold App.analysisEffects.
  destruct (Nat.ltb_spec 0 (length (App.collected JSON api st))) as [_|H0].
  2:{ destruct (App.activeParticipants st); [done | simpl in *; lia]. }
  rewrite Hok. simpl. rewrite Hdlg, Hresp. repeat split.
Qed.

Lemma analysis_success_shows_results_witness :
  App.step
    (App.runSimulation Fixtures.demoJson Fixtures.apiScenario
       (Fixtures.initialState [Fixtures.personaA; Fixtures.personaB]
          Fixtures.ratingSurvey))
  = RESULTS.
Proof.
  exact (proj1 (analysis_success_shows_results Fixtures.demoJson
                  Fixtures.apiScenario
                  (Fixtures.initialState
                     [Fixtures.personaA; Fixtures.personaB]
                     Fixtures.ratingSurvey)
                  Fixtures.report ltac:(discriminate) eq_refl)).
Defined.

(** ** The CSV export *)

Lemma string_app_cons (x : ascii) (a b : string) :
  (String x a ++ b = String x (a ++ b))%string.
Proof. reflexivity. Qed.

Lemma string_app_assoc (a b c : string) :
  ((a ++ b) ++ c = a ++ (b ++ c))%string.
Proof.
  induction a as [|x a IH]; [reflexivity|].
  by rewrite !string_app_cons, IH.
Qed.

Lemma omap_all_some {A B} (f : A -> option B) (l : list A) :
  Forall (fun x => is_Some (f x)) l -> length (omap f l) = length l.
Proof.
  induction 1 as [|x l [y Hy] _ IH]; [reflexivity|].
  simpl. rewrite Hy. simpl. f_equal. exact IH.
Qed.

Lemma omap_length_le {A B} (f : A -> option B) (l : list A) :
  (length (omap f l) <= length l)%nat.
Proof.
  induction l as [|x l IH]; [simpl; lia|].
  change (omap f (x :: l))
    with (match f x with Some y => y :: omap f l | None => omap f l end).
  destruct (f x); simpl; lia.
Qed.

Lemma find_persona_of_panel (panel : list GeneratedPersona) (id : string) :
  In id (map p_id panel) ->
  is_Some (find (fun gp => String.eqb (p_id gp) id) panel).
Proof.
  induction panel as [|p panel IH]; simpl; [done|].
  intros [Hid|Hin].
  - apply String.eqb_eq in Hid. rewrite Hid. by eexists.
  - destruct (String.eqb (p_id p) id); [by eexists | by apply IH].
Qed.

(** X11. In the exported table every row has as many fields as the
    header row: five for the persona and one per question of the survey,
    also for a question the response does not answer. There is the
    header row and at most one row per response; after a run over a panel
    that is not empty there is exactly one row per persona. *)
Theorem csv_rows_are_aligned (sv : Survey) (panel : list GeneratedPersona)
    (responses : list SurveyResponse) :
  Forall (fun fields => length fields = (5 + length (questions sv))%nat)
         (Csv.rowFields sv panel responses)
  /\ (1 <= length (Csv.rowFields sv panel responses)
      <= 1 + length responses)%nat
  /\ forall JSON api (st : App.State),
       App.activeParticipants st <> [] ->
       length (Csv.rowFields (App.survey st) (App.activeParticipants st)
                 (App.responses (App.runSimulation JSON api st)))
       = (1 + length (App.activeParticipants st))%nat.
Proof.
  split; [|split].
  - unfold Csv.rowFields. constructor.
    + unfold Csv.headers. rewrite length_app, length_map. reflexivity.
    + induction responses as [|r rs IH]; [constructor|].
      simpl.
      destruct (find (fun gp => String.eqb (p_id gp) (personaId r)) panel);
        [|exact IH].
      constructor; [|exact IH].
      unfold Csv.row. rewrite length_app, length_map. reflexivity.
  - unfold Csv.rowFields. simpl.
    pose proof (omap_length_le
                  (fun r =>
                     match find (fun gp => String.eqb (p_id gp) (personaId r))
                                panel with
                     | Some p => Some (Csv.row sv p r)
                     | None => None
                     end) responses).
    lia.
  - intros JSON api st Hpanel.
    pose proof (runSimulation_personaIds JSON api st Hpanel) as Hids.
    unfold Csv.rowFields. simpl. f_equal.
    rewrite omap_all_some.
    + rewrite <- (length_map personaId), Hids. apply length_map.
    + apply Forall_forall. intros r Hr.
      destruct (find_persona_of_panel (App.activeParticipants st)
                  (personaId r)) as [p Hp].
      { rewrite <- Hids. apply in_map. by apply list_elem_of_In. }
      rewrite Hp. by eexists.
Qed.

Lemma csv_rows_are_aligned_witness :
  length
    (Csv.rowFields Fixtures.ratingSurvey
       [Fixtures.personaA; Fixtures.personaB]
       (App.responses
          (App.runSimulation Fixtures.demoJson Fixtures.apiScenario
             (Fixtures.initialState [Fixtures.personaA; Fixtures.personaB]
                Fixtures.ratingSurvey))))
  = 3%nat.
Proof.
  exact (proj2 (proj2 (csv_rows_are_aligned Fixtures.ratingSurvey [] []))
           Fixtures.demoJson Fixtures.apiScenario
           (Fixtures.initialState [Fixtures.personaA; Fixtures.personaB]
              Fixtures.ratingSurvey)
           ltac:(discriminate)).
Defined.


Lemma fileStem_char (c : ascii) :
  Csv.isFileChar (if Csv.isAlphaNum c then Csv.toLowerChar c else "_"%char)
  = true
  /\ (Csv.isFileChar c = true ->
      (if Csv.isAlphaNum c then Csv.toLowerChar c else "_"%char) = c).
Proof.
  destruct c as [[] [] [] [] [] [] [] []]; split; vm_compute;
    first [reflexivity | discriminate].
Qed.

(** X12. The stem of the name of an exported file has one character per
    character of the survey title and consists of lower-case letters,
    digits and underscores only; a title that already consists of such
    characters is its own stem, so taking the stem twice changes nothing
    more. *)
Theorem fileStem_is_a_safe_name (title : string) :
  String.length (Csv.fileStem title) = String.length title
  /\ Csv.allChars Csv.isFileChar (Csv.fileStem title) = true
  /\ (Csv.allChars Csv.isFileChar title = true -> Csv.fileStem title = title)
  /\ Csv.fileStem (Csv.fileStem title) = Csv.fileStem title.
Proof.
  assert (Hsafe : forall s, Csv.allChars Csv.isFileChar (Csv.fileStem s)
                            = true).
  { induction s as [|c s IH]; [reflexivity|].
    simpl. rewrite IH. by rewrite (proj1 (fileStem_char c)). }
  assert (Hfix : forall s, Csv.allChars Csv.isFileChar s = true ->
                           Csv.fileStem s = s).
  { induction s as [|c s IH]; [reflexivity|].
    simpl. intros [Hc Hs]%andb_true_iff.
    by rewrite (proj2 (fileStem_char c) Hc), IH. }
  split; [|split; [apply Hsafe|split; [apply Hfix|apply Hfix, Hsafe]]].
  induction title as [|c s IH]; [reflexivity|]. simpl. by rewrite IH.
Qed.

Lemma fileStem_is_a_safe_name_witness :
  Csv.fileStem "q3_2025" = "q3_2025".
Proof.
  exact (proj1 (proj2 (proj2 (fileStem_is_a_safe_name "q3_2025"))) eq_refl).
Defined.

Example fileStem_example :
  Csv.csvFileName Fixtures.ratingSurvey
  = "new_product_concept_survey_data.csv".
Proof. reflexivity. Qed.

(** ** More on the tabulation *)

Lemma foldl_zero_seed (keys : list string) :
  forall (m : gmap string Tabulation.Count) (k : string),
    foldl (fun m o => Tabulation.setProp m o (Tabulation.Num 0)) m keys !! k
    = if existsb (String.eqb k) keys && negb (String.eqb k "__proto__")
      then Some (Tabulation.Num 0) else m !! k.
Proof.
  induction keys as [|o keys IH]; intros m k; [reflexivity|].
  simpl. rewrite IH. unfold Tabulation.setProp.
  destruct (existsb (String.eqb k) keys) eqn:Hex; simpl.
  { rewrite orb_true_r. simpl.
    destruct (String.eqb_spec k "__proto__") as [->|Hk]; simpl; [|done].
    destruct (String.eqb_spec o "__proto__") as [->|Ho]; [done|].
    by rewrite lookup_insert_ne. }
  rewrite orb_false_r.
  destruct (String.eqb_spec k o) as [->|Hko]; simpl.
  - destruct (String.eqb_spec o "__proto__") as [Ho|Ho]; simpl; [done|].
    by rewrite lookup_insert_eq.
  - destruct (String.eqb o "__proto__"); [done|].
    by rewrite lookup_insert_ne.
Qed.

Lemma seed_values (q : Question) (k : string) (c : Tabulation.Count) :
  Tabulation.seed q !! k = Some c -> c = Tabulation.Num 0.
Proof.
  unfold Tabulation.seed.
  destruct (q_type q); [done| |].
  - destruct (q_options q) as [opts|]; [|done].
    rewrite foldl_zero_seed, lookup_empty.
    by destruct (_ && _); intros [= <-].
  - change (foldl _ ∅ [1; 2; 3; 4; 5]%Z)
      with (foldl (fun m o => Tabulation.setProp m o (Tabulation.Num 0))
                  (∅ : gmap string Tabulation.Count)
                  ["1"; "2"; "3"; "4"; "5"]).
    rewrite foldl_zero_seed, lookup_empty.
    by destruct (_ && _); intros [= <-].
Qed.

(** X13. A multiple-choice question that no response answers has, in its
    table, exactly its declared options as buckets, each with count 0,
    except that an option spelled __proto__ gets no bucket; without an
    option list the table is empty. *)
Theorem choice_table_zero_seeded (q : Question)
    (responses : list SurveyResponse)
    (Htype : q_type q = MULTIPLE_CHOICE)
    (Hnone : Forall (fun r => find (fun a => String.eqb (questionId a) (q_id q))
                                   (answers r) = None) responses) :
  forall k,
    Tabulation.dataMap q responses !! k
    = match q_options q with
      | Some opts =>
          if existsb (String.eqb k) opts && negb (String.eqb k "__proto__")
          then Some (Tabulation.Num 0) else None
      | None => None
      end.
Proof.
  intros k. unfold Tabulation.dataMap.
  rewrite foldl_countResponse_no_answer by exact Hnone.
  unfold Tabulation.seed. rewrite Htype.
  destruct (q_options q) as [opts|]; [|apply lookup_empty].
  rewrite foldl_zero_seed, lookup_empty. reflexivity.
Qed.

Lemma choice_table_zero_seeded_witness :
  Tabulation.dataMap Fixtures.choiceQuestion [] !! "Pro"
  = Some (Tabulation.Num 0).
Proof.
  exact (choice_table_zero_seeded Fixtures.choiceQuestion [] eq_refl
           (Forall_nil_2 _) "Pro").
Defined.

Lemma countResponse_ordinary (q : Question)
    (m : gmap string Tabulation.Count) (r : SurveyResponse) :
  (forall v, Counting.observed q r = Some v ->
             Tabulation.inherited v = false) ->
  Tabulation.countResponse q m r
  = match Counting.observed q r with
    | None => m
    | Some v =>
        <[v := match m !! v with
               | Some (Tabulation.Num n) => Tabulation.Num (S n)
               | Some Tabulation.NaN => Tabulation.NaN
               | None => Tabulation.Num 1
               end]> m
    end.
Proof.
  unfold Counting.observed, Tabulation.countResponse.
  destruct (find (fun a => String.eqb (questionId a) (q_id q)) (answers r))
    as [ans|]; simpl; [|done].
  intros Hord. specialize (Hord _ eq_refl).
  assert (Hproto : String.eqb (Tabulation.toString (answer ans)) "__proto__"
                   = false).
  { destruct (String.eqb_spec (Tabulation.toString (answer ans)) "__proto__")
      as [Heq|]; [|done].
    rewrite Heq in Hord. discriminate. }
  unfold Tabulation.isDefined, Tabulation.increment, Tabulation.setProp.
  rewrite Hproto, Hord.
  by destruct (m !! Tabulation.toString (answer ans)) as [[|n]|].
Qed.

Lemma occurrences_cons (q : Question) (r : SurveyResponse)
    (rs : list SurveyResponse) (k : string) :
  Counting.occurrences q (r :: rs) k
  = ((match Counting.observed q r with
      | Some v => if String.eqb v k then 1 else 0
      | None => 0
      end) + Counting.occurrences q rs k)%nat.
Proof.
  unfold Counting.occurrences. simpl.
  destruct (Counting.observed q r) as [v|]; [|reflexivity].
  by destruct (String.eqb v k).
Qed.

Lemma foldl_countResponse_counts (q : Question)
    (rs : list SurveyResponse) :
  Forall (fun r => forall v, Counting.observed q r = Some v ->
                     Tabulation.inherited v = false) rs ->
  forall (m : gmap string Tabulation.Count),
    (forall k c, m !! k = Some c -> exists n, c = Tabulation.Num n) ->
    forall k,
      foldl (Tabulation.countResponse q) m rs !! k
      = match m !! k with
        | Some (Tabulation.Num n) =>
            Some (Tabulation.Num (n + Counting.occurrences q rs k))
        | Some Tabulation.NaN => Some Tabulation.NaN
        | None =>
            if (Counting.occurrences q rs k =? 0)%nat then None
            else Some (Tabulation.Num (Counting.occurrences q rs k))
        end.
Proof.
  induction 1 as [|r rs Hr _ IH]; intros m Hm k.
  { simpl. destruct (m !! k) as [[|n]|]; try done.
    unfold Counting.occurrences. simpl. by rewrite Nat.add_0_r. }
  simpl. rewrite (countResponse_ordinary q m r Hr), occurrences_cons.
  destruct (Counting.observed q r) as [v|] eqn:Hobs; [|by apply IH].
  rewrite IH.
  2:{ intros k' c. destruct (decide (v = k')) as [<-|Hne].
      - rewrite lookup_insert_eq. intros [= <-].
        destruct (m !! v) as [c'|] eqn:Hv; [|by eexists].
        destruct (Hm _ _ Hv) as [n ->]. by eexists.
      - rewrite lookup_insert_ne by done. apply Hm. }
  destruct (String.eqb_spec v k) as [->|Hne].
  - rewrite lookup_insert_eq.
    destruct (m !! k) as [c|] eqn:Hk.
    + destruct (Hm _ _ Hk) as [n ->]. do 2 f_equal. lia.
    + simpl. do 2 f_equal.
  - rewrite lookup_insert_ne by done. reflexivity.
Qed.

(** X14. When no counted answer is a property name that every object
    inherits (such as constructor or toString), the table of a question
    is exact: the bucket of a text holds the number of responses whose
    answer to the question, as text, is that text; the buckets are the
    seeded ones (1 to 5, or the declared options) and the texts that
    occur. For each response only its first answer to the question
    counts. *)
Theorem table_counts_answers (q : Question)
    (responses : list SurveyResponse)
    (Hordinary : Forall (fun r => forall v, Counting.observed q r = Some v ->
                                    Tabulation.inherited v = false)
                        responses) :
  forall k,
    Tabulation.dataMap q responses !! k
    = match Tabulation.seed q !! k with
      | Some _ => Some (Tabulation.Num (Counting.occurrences q responses k))
      | None =>
          if (Counting.occurrences q responses k =? 0)%nat then None
          else Some (Tabulation.Num (Counting.occurrences q responses k))
      end.
Proof.
  intros k. unfold Tabulation.dataMap.
  rewrite (foldl_countResponse_counts q responses Hordinary).
  2:{ intros k' c Hc. exists 0%nat. by eapply seed_values. }
  destruct (Tabulation.seed q !! k) as [c|] eqn:Hseed.
  - rewrite (seed_values _ _ _ Hseed). reflexivity.
  - reflexivity.
Qed.

Lemma table_counts_answers_witness :
  Tabulation.dataMap Fixtures.ratingQuestion
    [{| personaId := "pa";
        answers := [{| questionId := "q1"; answer := AnswerNumber 5 |}] |};
     {| personaId := "pb";
        answers := [{| questionId := "q1"; answer := AnswerNumber 5 |};
                    {| questionId := "q1"; answer := AnswerNumber 2 |}] |}]
  !! "5" = Some (Tabulation.Num 2).
Proof.
  refine (table_counts_answers Fixtures.ratingQuestion _ _ "5").
  repeat constructor; by intros v [= <-].
Defined.

(** ** Numbers and their text *)

Lemma digitValue_pretty_N_char (d : N) :
  (d < 10)%N -> JS.digitValue (pretty_N_char d) = Some (Z.of_N d).
Proof.
  intros Hd.
  assert (d = 0 \/ d = 1 \/ d = 2 \/ d = 3 \/ d = 4 \/ d = 5 \/ d = 6
          \/ d = 7 \/ d = 8 \/ d = 9)%N as H by lia.
  repeat (destruct H as [->|H]; [reflexivity|]). by subst.
Qed.

Lemma parseDigits_pretty_N_go (x : N) :
  (0 < x)%N ->
  forall (s : string) (acc : option Z),
    default 0%Z acc = 0%Z ->
    JS.parseDigits 10 (pretty_N_go x s) acc
    = JS.parseDigits 10 s (Some (Z.of_N x)).
Proof.
  induction (N.lt_wf_0 x) as [x _ IH]; intros Hx s acc Hacc.
  rewrite pretty_N_go_step by exact Hx.
  assert (Hmod : (x `mod` 10 < 10)%N) by (apply N.mod_lt; lia).
  pose proof (N.div_mod x 10 ltac:(lia)) as Hdm.
  destruct (decide (x `div` 10 = 0)%N) as [H0|H0].
  - rewrite H0, pretty_N_go_0. simpl.
    rewrite (digitValue_pretty_N_char _ Hmod).
    replace (Z.of_N (x `mod` 10) <? 10)%Z with true
      by (symmetry; apply Z.ltb_lt; lia).
    rewrite Hacc. do 2 f_equal. lia.
  - rewrite IH; [| apply N.div_lt; lia | lia | exact Hacc].
    simpl. rewrite (digitValue_pretty_N_char _ Hmod).
    replace (Z.of_N (x `mod` 10) <? 10)%Z with true
      by (symmetry; apply Z.ltb_lt; lia).
    do 2 f_equal. lia.
Qed.

Lemma pretty_N_go_head (x : N) :
  (0 < x)%N ->
  forall s, exists d r,
    (1 <= d <= 9)%N /\ pretty_N_go x s = String (pretty_N_char d) r.
Proof.
  induction (N.lt_wf_0 x) as [x _ IH]; intros Hx s.
  rewrite pretty_N_go_step by exact Hx.
  pose proof (N.div_mod x 10 ltac:(lia)) as Hdm.
  assert (Hmod : (x `mod` 10 < 10)%N) by (apply N.mod_lt; lia).
  destruct (decide (x `div` 10 = 0)%N) as [H0|H0].
  - rewrite H0, pretty_N_go_0. exists (x `mod` 10)%N. eexists.
    split; [lia | reflexivity].
  - apply IH; [apply N.div_lt; lia | lia].
Qed.

Lemma leading_digit_is_plain (d : N) :
  (1 <= d <= 9)%N ->
  JS.isStrWhiteSpaceChar (pretty_N_char d) = false
  /\ Ascii.eqb (pretty_N_char d) "-" = false
  /\ Ascii.eqb (pretty_N_char d) "+" = false
  /\ Ascii.eqb (pretty_N_char d) "0" = false.
Proof.
  intros Hd.
  assert (d = 1 \/ d = 2 \/ d = 3 \/ d = 4 \/ d = 5 \/ d = 6
          \/ d = 7 \/ d = 8 \/ d = 9)%N as H by lia.
  repeat (destruct H as [->|H]; [by repeat split|]). subst.
  by repeat split.
Qed.

Lemma parseInt_unsigned (p : positive) :
  JS.trimStart (pretty (Npos p)) = pretty (Npos p)
  /\ JS.stripSign (pretty (Npos p)) = (1%Z, pretty (Npos p))
  /\ JS.stripPrefix (pretty (Npos p)) = (10%Z, pretty (Npos p))
  /\ JS.parseDigits 10 (pretty (Npos p)) None = Some (Zpos p).
Proof.
  unfold pretty, pretty_N. rewrite decide_False by done.
  destruct (pretty_N_go_head (Npos p) ltac:(lia) "") as (d & r & Hd & Hhead).
  destruct (leading_digit_is_plain d Hd) as (Hws & Hminus & Hplus & Hzero).
  split; [|split; [|split]].
  - rewrite Hhead. simpl. by rewrite Hws.
  - rewrite Hhead. unfold JS.stripSign. by rewrite Hminus, Hplus.
  - rewrite Hhead. unfold JS.stripPrefix. rewrite Hzero. by destruct r.
  - by rewrite parseDigits_pretty_N_go.
Qed.

Lemma parseInt_minus (t : string) :
  JS.parseInt (String "-" t)
  = let '(R, s2) := JS.stripPrefix t in
    match JS.parseDigits R s2 None with
    | Some n => Some (-1 * n)%Z
    | None => None
    end.
Proof. reflexivity. Qed.

(** X15. [parseInt] reads the decimal text of a safe integer (magnitude
    at most 2^53 - 1) back as that integer. So a rating answer that is
    the decimal text of a safe integer becomes that integer, and is
    tabulated under the very text it came as. A rating answer whose text
    starts with a safe integer is tabulated under the decimal text of
    that integer, whatever follows it, and one whose text starts with no
    integer is tabulated under 3. Larger integers, which the code rounds
    to a double and may print with an exponent, are outside this
    statement. *)
Theorem rating_text_is_normalised (survey : Survey) (a : RawAnswer)
    (q : Question)
    (Hq : find (fun quest => String.eqb (q_id quest) (raw_questionId a))
               (questions survey) = Some q)
    (Htype : q_type q = RATING_SCALE) :
  (forall n : Z, JS.isSafeInteger n = true -> JS.parseInt (pretty n) = Some n)
  /\ (forall n : Z, JS.isSafeInteger n = true -> raw_answer a = pretty n ->
        answer (sanitize survey a) = AnswerNumber n
        /\ Tabulation.toString (answer (sanitize survey a)) = raw_answer a)
  /\ (forall n : Z, JS.parseInt (raw_answer a) = Some n ->
        JS.isSafeInteger n = true ->
        answer (sanitize survey a) = AnswerNumber n
        /\ Tabulation.toString (answer (sanitize survey a)) = pretty n)
  /\ (JS.parseInt (raw_answer a) = None ->
      answer (sanitize survey a) = AnswerNumber 3
      /\ Tabulation.toString (answer (sanitize survey a)) = "3").
Proof.
  assert (Hround : forall n : Z, JS.parseInt (pretty n) = Some n).
  { intros [|p|p]; [reflexivity| |].
    - destruct (parseInt_unsigned p) as (Ht & Hs & Hp & Hd).
      unfold JS.parseInt.
      change (pretty (Z.pos p)) with (pretty (Npos p)).
      rewrite Ht, Hs, Hp, Hd. reflexivity.
    - destruct (parseInt_unsigned p) as (Ht & Hs & Hp & Hd).
      change (pretty (Z.neg p)) with (String "-" (pretty (Npos p))).
      rewrite parseInt_minus, Hp, Hd. reflexivity. }
  split; [intros n _; apply Hround|].
  unfold sanitize. rewrite Hq, Htype. simpl.
  split; [|split].
  - intros n _ Hn. rewrite Hn, Hround. by split.
  - intros n Hn _. rewrite Hn. by split.
  - intros Hn. rewrite Hn. by split.
Qed.

Lemma rating_text_is_normalised_witness :
  answer (sanitize Fixtures.ratingSurvey
            {| raw_questionId := "q1"; raw_answer := "5" |})
  = AnswerNumber 5.
Proof.
  exact (proj1 (proj1 (proj2
    (rating_text_is_normalised Fixtures.ratingSurvey
       {| raw_questionId := "q1"; raw_answer := "5" |}
       Fixtures.ratingQuestion eq_refl eq_refl)) 5%Z eq_refl eq_refl)).
Defined.

(** ** The step indicator *)

(** X16. The step indicator finds every step in its list, at the
    position the step has in the flow. The entry of a step is current
    exactly when it is the current step; it is marked completed, with a
    tick in place of its number, exactly when it comes before the current
    step; and the connector after it, which the last entry does not have,
    is highlighted exactly when the entry is completed. *)
Theorem step_indicator_marks (currentStep s : Step) (index : nat)
    (label : string)
    (Hentry : Indicator.steps !! index = Some (s, label)) :
  Indicator.currentIndex currentStep
  = Z.of_nat (Indicator.position currentStep)
  /\ index = Indicator.position s
  /\ Indicator.isCurrent currentStep index
     = Indicator.Step_eqb s currentStep
  /\ Indicator.isCompleted currentStep index
     = (Indicator.position s <? Indicator.position currentStep)%nat
  /\ Indicator.mark currentStep index
     = (if (Indicator.position s <? Indicator.position currentStep)%nat
        then Indicator.Tick else Indicator.Number (Indicator.position s + 1))
  /\ Indicator.connector currentStep index
     = match s with
       | RESULTS => None
       | _ => Some (Indicator.position s
                    <? Indicator.position currentStep)%nat
       end.
Proof.
  destruct index as [|[|[|[|index]]]]; simpl in Hentry;
    try discriminate; inversion Hentry; subst;
    by destruct currentStep.
Qed.

Lemma step_indicator_marks_witness :
  Indicator.mark SIMULATION 1 = Indicator.Tick
  /\ Indicator.mark SIMULATION 2 = Indicator.Number 3.
Proof.
  split.
  - exact (proj1 (proj2 (proj2 (proj2 (proj2
      (step_indicator_marks SIMULATION PERSONAS 1 "Target Audience"
         eq_refl)))))).
  - exact (proj1 (proj2 (proj2 (proj2 (proj2
      (step_indicator_marks SIMULATION SIMULATION 2 "Simulate"
         eq_refl)))))).
Defined.

(** ** More on templates *)

Lemma deepCopy_extends depth h v v' h' :
  Store.deepCopy depth h v = Some (v', h') -> Store.extends h h'.
Proof.
  unfold Store.deepCopy.
  destruct (Store.serialize depth h v) as [[j|]|] eqn:Hser; try discriminate.
  intros [= Hrev].
  by destruct (revive_serialize depth h v j Hser h v' h' Hrev) as (Hext & _).
Qed.

Lemma readSurvey_extends depth h h' v s :
  Store.extends h h' -> Store.readSurvey depth h v = Some s ->
  Store.readSurvey depth h' v = Some s.
Proof.
  intros Hext. unfold Store.readSurvey.
  destruct (Store.serialize depth h v) as [[j|]|] eqn:Hser; try discriminate.
  by rewrite (serialize_extends _ _ _ _ _ Hext Hser).
Qed.

(** X17. Saving a template and loading a template never disturb the
    templates that are already saved: each of them is still in the list
    afterwards and still holds the same survey, field by field. Saving
    leaves the survey being edited as it is, and loading leaves the list
    of templates as it is. *)
Theorem saved_templates_are_stable (depth : nat)
    (st st' : Templates.State)
    (Hstep : (exists newId now,
                Templates.saveTemplate depth newId now st = Some st')
             \/ (exists confirmed template,
                   Templates.loadTemplate depth confirmed template st
                   = Some st')) :
  (forall t s,
     In t (Templates.savedTemplates st) ->
     Store.readSurvey depth (Templates.store st) (Templates.t_survey t)
     = Some s ->
     In t (Templates.savedTemplates st')
     /\ Store.readSurvey depth (Templates.store st') (Templates.t_survey t)
        = Some s)
  /\ ((exists newId now,
         Templates.saveTemplate depth newId now st = Some st') ->
      Templates.survey st' = Templates.survey st
      /\ forall s,
           Store.readSurvey depth (Templates.store st) (Templates.survey st)
           = Some s ->
           Store.readSurvey depth (Templates.store st')
             (Templates.survey st') = Some s)
  /\ ((exists confirmed template,
         Templates.loadTemplate depth confirmed template st = Some st') ->
      Templates.savedTemplates st' = Templates.savedTemplates st).
Proof.
  assert (Hsave : forall newId now,
            Templates.saveTemplate depth newId now st = Some st' ->
            Store.extends (Templates.store st) (Templates.store st')
            /\ Templates.survey st' = Templates.survey st
            /\ exists added,
                 Templates.savedTemplates st'
                 = Templates.savedTemplates st ++ added).
  { intros newId now. unfold Templates.saveTemplate.
    destruct (String.eqb (JS.trim (Templates.templateNameInput st)) "").
    - intros [= <-]. simpl. split; [apply extends_refl|].
      split; [done|]. exists []. by rewrite app_nil_r.
    - destruct (Store.deepCopy depth (Templates.store st)
                  (Templates.survey st)) as [[snap h]|] eqn:Hcopy;
        [|discriminate].
      intros [= <-]. simpl. split; [by eapply deepCopy_extends|].
      split; [done|]. by eexists. }
  assert (Hload : forall confirmed template,
            Templates.loadTemplate depth confirmed template st = Some st' ->
            Store.extends (Templates.store st) (Templates.store st')
            /\ Templates.savedTemplates st' = Templates.savedTemplates st).
  { intros confirmed template. unfold Templates.loadTemplate.
    destruct confirmed.
    - destruct (Store.deepCopy depth (Templates.store st)
                  (Templates.t_survey template)) as [[copy h]|] eqn:Hcopy;
        [|discriminate].
      intros [= <-]. simpl. split; [by eapply deepCopy_extends | done].
    - intros [= <-]. split; [apply extends_refl | done]. }
  split; [|split].
  - intros t s Hin Hread.
    destruct Hstep as [(newId & now & H)|(confirmed & template & H)].
    + destruct (Hsave _ _ H) as (Hext & _ & added & Hlist).
      split; [rewrite Hlist; apply in_app_iff; by left|].
      by eapply readSurvey_extends.
    + destruct (Hload _ _ H) as (Hext & Hlist).
      split; [by rewrite Hlist|]. by eapply readSurvey_extends.
  - intros (newId & now & H).
    destruct (Hsave _ _ H) as (Hext & Hsurvey & _).
    split; [exact Hsurvey|]. intros s Hread. rewrite Hsurvey.
    by eapply readSurvey_extends.
  - intros (confirmed & template & H). by destruct (Hload _ _ H).
Qed.

(** X18. Deleting the template that was just saved gives back the list
    of templates as it was, when the id drawn for the new template was
    not the id of a saved one; declining the confirmation deletes
    nothing. *)
Theorem deleteTemplate_undoes_saveTemplate (depth : nat) (newId : string)
    (now : Z) (st st1 : Templates.State)
    (Hfresh : ~ In newId (map Templates.t_id (Templates.savedTemplates st)))
    (Hname : JS.trim (Templates.templateNameInput st) <> "")
    (Hsaved : Templates.saveTemplate depth newId now st = Some st1) :
  Templates.savedTemplates (TemplateList.deleteTemplate true newId st1)
  = Templates.savedTemplates st
  /\ Templates.survey (TemplateList.deleteTemplate true newId st1)
     = Templates.survey st
  /\ TemplateList.deleteTemplate false newId st1 = st1.
Proof.
  unfold Templates.saveTemplate in Hsaved.
  apply String.eqb_neq in Hname. rewrite Hname in Hsaved.
  destruct (Store.deepCopy depth (Templates.store st) (Templates.survey st))
    as [[snap h]|]; [|discriminate].
  inversion Hsaved; subst. clear Hsaved. simpl.
  split; [|done].
  rewrite List.filter_app. simpl. rewrite String.eqb_refl. simpl.
  rewrite app_nil_r. apply filter_all. intros t Ht.
  destruct (String.eqb_spec (Templates.t_id t) newId) as [Heq|]; [|done].
  exfalso. apply Hfresh. rewrite <- Heq. by apply in_map.
Qed.


Lemma saved_templates_are_stable_witness :
  exists st1 st2,
    Templates.saveTemplate 8 "lq3x9k2ab1" 1700000000000
      Fixtures.templateState = Some st1
    /\ Templates.saveTemplate 8 "lq3x9k7zz2" 1700000000500 st1 = Some st2
    /\ Forall (fun t =>
                 In t (Templates.savedTemplates st2)
                 /\ Store.readSurvey 8 (Templates.store st2)
                      (Templates.t_survey t)
                    = Some Fixtures.templateSurvey)
              (Templates.savedTemplates st1).
Proof.
  destruct (Templates.saveTemplate 8 "lq3x9k2ab1" 1700000000000
              Fixtures.templateState) as [st1|] eqn:H1;
    [|vm_compute in H1; discriminate].
  destruct (Templates.saveTemplate 8 "lq3x9k7zz2" 1700000000500 st1)
    as [st2|] eqn:H2.
  2:{ vm_compute in H1. inversion H1; subst. vm_compute in H2.
      discriminate. }
  exists st1, st2. split; [reflexivity|]. split; [exact H2|].
  apply Forall_forall. intros t Ht.
  apply (proj1 (saved_templates_are_stable 8 st1 st2
                  (or_introl (ex_intro _ _ (ex_intro _ _ H2))))).
  - by apply list_elem_of_In.
  - vm_compute in H1. inversion H1; subst. clear H1 H2.
    simpl in Ht. apply list_elem_of_singleton in Ht. subst t.
    reflexivity.
Defined.

Lemma deleteTemplate_undoes_saveTemplate_witness :
  exists st1,
    Templates.saveTemplate 8 "lq3x9k2ab1" 1700000000000
      Fixtures.templateState = Some st1
    /\ Templates.savedTemplates
         (TemplateList.deleteTemplate true "lq3x9k2ab1" st1) = [].
Proof.
  destruct (Templates.saveTemplate 8 "lq3x9k2ab1" 1700000000000
              Fixtures.templateState) as [st1|] eqn:H1;
    [|vm_compute in H1; discriminate].
  exists st1. split; [reflexivity|].
  refine (proj1 (deleteTemplate_undoes_saveTemplate 8 "lq3x9k2ab1"
                   1700000000000 Fixtures.templateState st1 _ _ H1)).
  - simpl. tauto.
  - discriminate.
Defined.


Lemma trimStart_blank (s : string) :
  Csv.allChars JS.isStrWhiteSpaceChar s = true <-> JS.trimStart s = "".
Proof.
  induction s as [|c s IH]; simpl; [done|].
  destruct (JS.isStrWhiteSpaceChar c); simpl; [exact IH|].
  split; discriminate.
Qed.

Lemma trimEnd_empty (s : string) : JS.trimEnd s = "" -> 
  Csv.allChars JS.isStrWhiteSpaceChar s = true.
Proof.
  induction s as [|c s IH]; simpl; [done|].
  destruct (JS.trimEnd s) as [|c' r] eqn:Hend; [|discriminate].
  destruct (JS.isStrWhiteSpaceChar c); [|discriminate].
  intros _. by apply IH.
Qed.

Lemma trim_blank (s : string) :
  Csv.allChars JS.isStrWhiteSpaceChar s = true <-> JS.trim s = "".
Proof.
  unfold JS.trim. split.
  - intros H. apply trimStart_blank in H. by rewrite H.
  - intros H. apply trimEnd_empty in H.
    assert (Hstart : forall t,
              Csv.allChars JS.isStrWhiteSpaceChar (JS.trimStart t) = true ->
              Csv.allChars JS.isStrWhiteSpaceChar t = true).
    { induction t as [|c t IH]; simpl; [done|].
      destruct (JS.isStrWhiteSpaceChar c) eqn:Hc; simpl; [exact IH|].
      by rewrite Hc. }
    by apply Hstart.
Qed.

(** X19. A template name that consists of white space only (spaces,
    tabs, line breaks), or is empty, is refused: no template is saved,
    the store and the survey are as before, the dialog to save stays
    open, and the operator is asked for a name. *)
Theorem blank_template_name_is_refused (depth : nat) (newId : string)
    (now : Z) (st : Templates.State)
    (Hblank : Csv.allChars JS.isStrWhiteSpaceChar
                (Templates.templateNameInput st) = true) :
  exists st',
    Templates.saveTemplate depth newId now st = Some st'
    /\ Templates.savedTemplates st' = Templates.savedTemplates st
    /\ Templates.store st' = Templates.store st
    /\ Templates.survey st' = Templates.survey st
    /\ Templates.isSaveModalOpen st' = Templates.isSaveModalOpen st
    /\ Templates.dialogs st'
       = Templates.dialogs st ++ ["Please enter a name for the template."].
Proof.
  apply trim_blank in Hblank.
  unfold Templates.saveTemplate. rewrite Hblank. simpl.
  eexists. split; [reflexivity|]. by repeat split.
Qed.

Lemma blank_template_name_is_refused_witness :
  exists st',
    Templates.saveTemplate 8 "lq3x9k2ab1" 1700000000000
      {| Templates.store := Fixtures.surveyStore;
         Templates.survey := Store.VRef 4;
         Templates.savedTemplates := [];
         Templates.templateNameInput := "   ";
         Templates.isSaveModalOpen := true;
         Templates.isLoadModalOpen := false;
         Templates.dialogs := [] |} = Some st'
    /\ Templates.savedTemplates st' = [].
Proof.
  destruct (blank_template_name_is_refused 8 "lq3x9k2ab1" 1700000000000
              {| Templates.store := Fixtures.surveyStore;
                 Templates.survey := Store.VRef 4;
                 Templates.savedTemplates := [];
                 Templates.templateNameInput := "   ";
                 Templates.isSaveModalOpen := true;
                 Templates.isLoadModalOpen := false;
                 Templates.dialogs := [] |} eq_refl)
    as (st' & H1 & H2 & _).
  exists st'. split; assumption.
Defined.

(** ** Reading the export back *)

Section ReadingBack.

Import CsvReader.

Lemma string_app_nil_r (s : string) : (s ++ "")%string = s.
Proof.
  induction s as [|c s IH]; [reflexivity|].
  by rewrite string_app_cons, IH.
Qed.

Lemma string_app_snoc (f : string) (c : ascii) (t : string) :
  ((f ++ String c "") ++ t)%string = (f ++ String c t)%string.
Proof. by rewrite string_app_assoc. Qed.

Lemma run_app (a b : string) : forall st, run st (a ++ b) = run (run st a) b.
Proof.
  induction a as [|c a IH]; intros st; [reflexivity|].
  rewrite string_app_cons. simpl. apply IH.
Qed.

Lemma run_quoted_body (t : string) : forall f r rs,
  run {| mode := InQuoted; field := f; row := r; rows := rs |}
      (Csv.doubleQuotes t)
  = {| mode := InQuoted; field := (f ++ t)%string; row := r; rows := rs |}.
Proof.
  induction t as [|c t IH]; intros f r rs.
  - simpl. by rewrite string_app_nil_r.
  - cbn [Csv.doubleQuotes].
    destruct (Ascii.eqb c Csv.dquote) eqn:Hc.
    + apply Ascii.eqb_eq in Hc. subst c.
      cbn [run]. unfold step at 2. cbn [mode].
      rewrite Ascii.eqb_refl. unfold setMode. cbn [field row rows].
      unfold step at 1. cbn [mode]. rewrite Ascii.eqb_refl.
      unfold addChar. cbn [field row rows mode].
      rewrite IH. by rewrite string_app_snoc.
    + cbn [run]. unfold step. cbn [mode]. rewrite Hc.
      unfold addChar. cbn [field row rows mode].
      rewrite IH. by rewrite string_app_snoc.
Qed.

Lemma run_quoted (v : AnswerValue) (r : list string)
    (rs : list (list string)) :
  run (atField r rs) (Csv.escapeCsv (Some v))
  = {| mode := AfterQuote; field := Tabulation.toString v; row := r;
       rows := rs |}.
Proof.
  unfold Csv.escapeCsv, atField. cbn [run].
  change (step {| mode := FieldStart; field := ""; row := r; rows := rs |}
            Csv.dquote)
    with {| mode := InQuoted; field := ""; row := r; rows := rs |}.
  rewrite run_app, run_quoted_body. reflexivity.
Qed.

Lemma encodes_quoted (v : AnswerValue) :
  encodes (Csv.escapeCsv (Some v)) (Tabulation.toString v).
Proof.
  intros r rs. rewrite run_quoted. unfold complete. simpl.
  split; [|by split]. split; [reflexivity | by left].
Qed.

Lemma run_plain (u : string) : forall f r rs,
  Csv.allChars plainChar u = true ->
  run {| mode := InUnquoted; field := f; row := r; rows := rs |} u
  = {| mode := InUnquoted; field := (f ++ u)%string; row := r;
       rows := rs |}.
Proof.
  induction u as [|c u IH]; intros f r rs Hu.
  - simpl. by rewrite string_app_nil_r.
  - simpl in Hu. apply andb_true_iff in Hu as [Hc Hu].
    unfold plainChar in Hc.
    apply andb_true_iff in Hc as [Hc Hlf].
    apply andb_true_iff in Hc as [Hdq Hcomma].
    apply negb_true_iff in Hlf, Hcomma.
    cbn [run]. unfold step. cbn [mode]. rewrite Hcomma, Hlf.
    unfold addChar. cbn [field row rows mode].
    rewrite IH by exact Hu. by rewrite string_app_snoc.
Qed.

Lemma run_plain_field (c : ascii) (u : string) (r : list string)
    (rs : list (list string)) :
  Csv.allChars plainChar (String c u) = true ->
  run (atField r rs) (String c u)
  = {| mode := InUnquoted; field := String c u; row := r; rows := rs |}.
Proof.
  intros Hu. simpl in Hu. apply andb_true_iff in Hu as [Hc Hu].
  unfold plainChar in Hc.
  apply andb_true_iff in Hc as [Hc Hlf].
  apply andb_true_iff in Hc as [Hdq Hcomma].
  apply negb_true_iff in Hlf, Hcomma, Hdq.
  unfold atField. cbn [run]. unfold step. cbn [mode].
  rewrite Hdq, Hcomma, Hlf. unfold addChar. cbn [field row rows mode].
  by rewrite run_plain.
Qed.

Lemma encodes_plain (u : string) :
  Csv.allChars plainChar u = true -> encodes u u.
Proof.
  intros Hu r rs. destruct u as [|c u].
  - simpl. unfold complete. simpl. split; [|by split].
    split; [reflexivity|]. right. right. by split.
  - rewrite run_plain_field by exact Hu. unfold complete. simpl.
    split; [|by split]. split; [reflexivity|]. right. by left.
Qed.

Lemma complete_separators (st : Lexer) (text : string) :
  complete st text ->
  step st comma = atField (row st ++ [text]) (rows st)
  /\ step st lineFeed = atField [] (rows st ++ [row st ++ [text]])
  /\ finish st = Some (rows st ++ [row st ++ [text]]).
Proof.
  intros [Hfield Hmode]. unfold step, finish, endField, endRow, atField.
  destruct Hmode as [->|[->|[-> _]]]; rewrite Hfield; by repeat split.
Qed.

Lemma run_row (fields texts : list string) :
  Forall2 encodes fields texts -> fields <> [] ->
  forall r rs, exists init last,
    texts = init ++ [last]
    /\ complete (run (atField r rs) (Csv.join "," fields)) last
    /\ row (run (atField r rs) (Csv.join "," fields)) = r ++ init
    /\ rows (run (atField r rs) (Csv.join "," fields)) = rs.
Proof.
  induction 1 as [|f t fields texts Hf Hrest IH]; [done|]. intros _ r rs.
  destruct (Hf r rs) as (Hcomplete & Hrow & Hrows).
  destruct fields as [|f2 fields].
  - inversion Hrest; subst. exists [], t. simpl.
    rewrite app_nil_r. split; [reflexivity|].
    split; [exact Hcomplete|]. split; [exact Hrow | exact Hrows].
  - change (Csv.join "," (f :: f2 :: fields))
      with (f ++ String comma (Csv.join "," (f2 :: fields)))%string.
    rewrite run_app. cbn [run].
    destruct (complete_separators _ _ Hcomplete) as (-> & _ & _).
    rewrite Hrow, Hrows.
    destruct (IH ltac:(done) (r ++ [t]) rs)
      as (init & last & -> & Hc & Hr & Hrs).
    exists (t :: init), last. split; [reflexivity|].
    split; [exact Hc|]. split; [|exact Hrs].
    rewrite Hr. by rewrite <- app_assoc.
Qed.

Lemma run_rows (fieldRows textRows : list (list string)) :
  Forall2 (fun fields texts => Forall2 encodes fields texts /\ fields <> [])
          fieldRows textRows ->
  fieldRows <> [] ->
  forall rs,
    finish (run (atField [] rs)
              (Csv.join Csv.newline (map (Csv.join ",") fieldRows)))
    = Some (rs ++ textRows).
Proof.
  induction 1 as [|fs ts fieldRows textRows [Hfs Hne] Hrest IH]; [done|].
  intros _ rs.
  destruct (run_row fs ts Hfs Hne [] rs)
    as (init & last & -> & Hcomplete & Hrow & Hrows).
  destruct fieldRows as [|fs2 fieldRows].
  - inversion Hrest; subst. simpl.
    destruct (complete_separators _ _ Hcomplete) as (_ & _ & ->).
    by rewrite Hrow, Hrows.
  - change (Csv.join Csv.newline
              (map (Csv.join ",") (fs :: fs2 :: fieldRows)))
      with (Csv.join "," fs
            ++ String lineFeed
                 (Csv.join Csv.newline
                    (map (Csv.join ",") (fs2 :: fieldRows))))%string.
    rewrite run_app. cbn [run].
    destruct (complete_separators _ _ Hcomplete) as (_ & -> & _).
    rewrite Hrow, Hrows, IH by done.
    simpl. by rewrite <- app_assoc.
Qed.

Lemma plain_pretty_N_go (x : N) : forall s,
  Csv.allChars plainChar s = true ->
  Csv.allChars plainChar (pretty_N_go x s) = true.
Proof.
  induction (N.lt_wf_0 x) as [x _ IH]; intros s Hs.
  destruct (decide (x = 0)%N) as [->|Hx]; [by rewrite pretty_N_go_0|].
  rewrite pretty_N_go_step by lia.
  apply IH; [apply N.div_lt; lia|].
  simpl. rewrite Hs, andb_true_r.
  unfold pretty_N_char. by repeat case_match.
Qed.

Lemma plain_pretty_Z (z : Z) : Csv.allChars plainChar (pretty z) = true.
Proof.
  assert (Hpos : forall p : positive,
            Csv.allChars plainChar (pretty (Npos p)) = true).
  { intros p. unfold pretty, pretty_N. rewrite decide_False by done.
    by apply plain_pretty_N_go. }
  destruct z as [|p|p]; [reflexivity | apply Hpos |].
  change (pretty (Z.neg p)) with (String "-" (pretty (Npos p))).
  simpl. apply Hpos.
Qed.

Lemma headers_encode (sv : Survey) :
  Forall2 encodes (Csv.headers sv) (headerTexts sv).
Proof.
  unfold Csv.headers, headerTexts.
  apply Forall2_app.
  - repeat (apply List.Forall2_cons; [by apply encodes_plain|]).
    apply List.Forall2_nil.
  - induction (questions sv) as [|q qs IH]; simpl; constructor; [|exact IH].
    apply (encodes_quoted (AnswerText (q_text q))).
Qed.

Lemma row_encodes (sv : Survey) (p : GeneratedPersona)
    (r : SurveyResponse) :
  Forall2 encodes (Csv.row sv p r) (rowTexts sv p r).
Proof.
  unfold Csv.row, rowTexts. apply Forall2_app.
  - repeat (apply List.Forall2_cons;
              [first [ apply (encodes_quoted (AnswerText _))
                     | apply encodes_plain, plain_pretty_Z ]|]).
    apply List.Forall2_nil.
  - induction (questions sv) as [|q qs IH]; simpl; constructor; [|exact IH].
    destruct (find (fun a => String.eqb (questionId a) (q_id q)) (answers r))
      as [a|]; simpl.
    + apply encodes_quoted.
    + by apply encodes_plain.
Qed.

Lemma table_encodes (sv : Survey) (panel : list GeneratedPersona)
    (responses : list SurveyResponse) :
  Forall2 (fun fields texts => Forall2 encodes fields texts /\ fields <> [])
          (Csv.rowFields sv panel responses)
          (tableTexts sv panel responses).
Proof.
  unfold Csv.rowFields, tableTexts. constructor.
  - split; [apply headers_encode | done].
  - induction responses as [|r rs IH]; [constructor|].
    change (omap ?f (r :: rs))
      with (match f r with Some y => y :: omap f rs | None => omap f rs end).
    cbv beta.
    destruct (find (fun gp => String.eqb (p_id gp) (personaId r)) panel)
      as [p|]; [|exact IH].
    constructor; [|exact IH]. split; [apply row_encodes | done].
Qed.

End ReadingBack.

(** X20. The exported CSV text, read as comma-separated values, is the
    table it was made from: the header row with the five column names
    and the question texts, then for each response of a persona of the
    panel the persona's id, name, age, occupation and traits and, per
    question, the text of the response's first answer to it, or the
    empty text when there is none. Commas, line breaks and double quotes
    inside names, traits, question texts or answers do not shift or split
    any field. *)
Theorem csv_export_reads_back (sv : Survey) (panel : list GeneratedPersona)
    (responses : list SurveyResponse) :
  CsvReader.readCsv (Csv.csvContent sv panel responses)
  = Some (CsvReader.tableTexts sv panel responses).
Proof.
  unfold CsvReader.readCsv, Csv.csvContent.
  apply (run_rows _ _ (table_encodes sv panel responses) ltac:(done) []).
Qed.
